(** * webmcp-crawler: a shallow embedding of [src/index.ts]

    The development follows the layout of the program: string primitives
    of the JavaScript runtime, the URL and JSON-schema libraries the
    program calls, then the program's own functions ([normalizeUrl],
    [checkUrl], [parseCsvUrls], [escapeCsvField], [resultsToCsv],
    [runBatch]) and the theorems about them.

    Strings.  A JavaScript string is a sequence of UTF-16 code units.
    The embedding uses [string]; every character stands for the code
    unit with the same number, so the strings covered are those whose
    code units lie in 0..255. *)

From Stdlib Require Import String Ascii List Bool Arith NArith ZArith QArith Lia.
From Stdlib Require Import DecimalString.
From Stdlib Require DecimalN DecimalPos DecimalFacts.
Import ListNotations.
Close Scope Q_scope.
Open Scope string_scope.
Open Scope bool_scope.

Set Warnings "-register-all".

(* ------------------------------------------------------------------ *)
(** ** Code units and the string methods the program calls *)

Module Js.

Definition code (c : ascii) : N := N_of_ascii c.

Definition LF : ascii := "010"%char.
Definition CR : ascii := "013"%char.
Definition TAB : ascii := "009"%char.
Definition DQ : ascii := "034"%char.
Definition SQ : ascii := "039"%char.

Definition between (lo hi : N) (c : ascii) : bool :=
  (lo <=? code c)%N && (code c <=? hi)%N.

(** WhiteSpace and LineTerminator code units below 256: TAB, LF, VT, FF,
    CR, SPACE and NO-BREAK SPACE (what [String.prototype.trim] strips,
    and what [\s] matches). *)
Definition is_space (c : ascii) : bool :=
  between 9 13 c || (code c =? 32)%N || (code c =? 160)%N.

Definition is_empty (s : string) : bool :=
  match s with EmptyString => true | String _ _ => false end.

(** [dropStart p s] removes the longest prefix of [s] whose characters
    satisfy [p]; [dropEnd p s] the longest such suffix. *)
Fixpoint dropStart (p : ascii -> bool) (s : string) : string :=
  match s with
  | EmptyString => EmptyString
  | String c s' => if p c then dropStart p s' else s
  end.

Fixpoint dropEnd (p : ascii -> bool) (s : string) : string :=
  match s with
  | EmptyString => EmptyString
  | String c s' =>
      let r := dropEnd p s' in
      if p c && is_empty r then EmptyString else String c r
  end.

(** [s.trim()] *)
Definition trim (s : string) : string := dropEnd is_space (dropStart is_space s).

Fixpoint filter_chars (p : ascii -> bool) (s : string) : string :=
  match s with
  | EmptyString => EmptyString
  | String c s' => if p c then String c (filter_chars p s') else filter_chars p s'
  end.

Fixpoint forall_chars (p : ascii -> bool) (s : string) : bool :=
  match s with
  | EmptyString => true
  | String c s' => p c && forall_chars p s'
  end.

Definition exists_chars (p : ascii -> bool) (s : string) : bool :=
  negb (forall_chars (fun c => negb (p c)) s).

(** [span p s] is the longest prefix of [s] satisfying [p], and the
    rest. *)
Fixpoint span (p : ascii -> bool) (s : string) : string * string :=
  match s with
  | EmptyString => (EmptyString, EmptyString)
  | String c s' =>
      if p c then let (a, b) := span p s' in (String c a, b)
      else (EmptyString, s)
  end.

Fixpoint map_chars (f : ascii -> ascii) (s : string) : string :=
  match s with
  | EmptyString => EmptyString
  | String c s' => String (f c) (map_chars f s')
  end.

Definition shift32 (c : ascii) : ascii := ascii_of_N (code c + 32).

(** ASCII lower-casing (A-Z only). *)
Definition ascii_lower_char (c : ascii) : ascii :=
  if between 65 90 c then shift32 c else c.

Definition ascii_lower : string -> string := map_chars ascii_lower_char.

(** [s.toLowerCase()] on code units below 256: A-Z, and the Latin-1
    capitals U+00C0..U+00DE except the multiplication sign U+00D7. *)
Definition lower_char (c : ascii) : ascii :=
  if between 65 90 c then shift32 c
  else if between 192 222 c && negb (code c =? 215)%N then shift32 c
  else c.

Definition toLowerCase : string -> string := map_chars lower_char.

(** [s.includes(c)] for a one-character needle. *)
Fixpoint includes (c : ascii) (s : string) : bool :=
  match s with
  | EmptyString => false
  | String d s' => Ascii.eqb d c || includes c s'
  end.

(** [s.split(d)] for a one-character separator; the result is never
    empty. *)
Fixpoint split (d : ascii) (s : string) : list string :=
  match s with
  | EmptyString => [EmptyString]
  | String c s' =>
      if Ascii.eqb c d then EmptyString :: split d s'
      else match split d s' with
           | piece :: rest => String c piece :: rest
           | [] => [String c EmptyString]
           end
  end.

(** [xs.join(sep)] *)
Definition join (sep : string) (xs : list string) : string :=
  String.concat sep xs.

Fixpoint last_char (s : string) : option ascii :=
  match s with
  | EmptyString => None
  | String c EmptyString => Some c
  | String _ s' => last_char s'
  end.

Fixpoint drop_last (s : string) : string :=
  match s with
  | EmptyString => EmptyString
  | String _ EmptyString => EmptyString
  | String c s' => String c (drop_last s')
  end.

Definition tail (s : string) : string :=
  match s with
  | EmptyString => EmptyString
  | String _ s' => s'
  end.

(** [s.endsWith(c)] for a one-character [c]. *)
Definition endsWith (c : ascii) (s : string) : bool :=
  match last_char s with
  | Some d => Ascii.eqb d c
  | None => false
  end.

(** [String(n)] for a non-negative integer. *)
Definition dec (n : N) : string := NilEmpty.string_of_uint (N.to_uint n).

(** [String(b)] *)
Definition of_bool (b : bool) : string := if b then "true" else "false".

(** [s.startsWith(p)] *)
Fixpoint startsWith (p s : string) : bool :=
  match p with
  | EmptyString => true
  | String a p' =>
      match s with
      | EmptyString => false
      | String b s' => Ascii.eqb a b && startsWith p' s'
      end
  end.

(** [map f xs] when [f] succeeds on every element. *)
Fixpoint map_option {A B} (f : A -> option B) (xs : list A) : option (list B) :=
  match xs with
  | [] => Some []
  | x :: xs' =>
      match f x, map_option f xs' with
      | Some y, Some ys => Some (y :: ys)
      | _, _ => None
      end
  end.

End Js.

(* ------------------------------------------------------------------ *)
(** ** Parsed JSON documents *)

Module Json.

(** A number as [JSON.parse] produces it: a finite value, or an infinity
    when the literal overflows. *)
Inductive number :=
| Finite (q : Q)
| Infinite (negative : bool).

(** The members of an object are kept in enumeration order. *)
Inductive json :=
| JNull
| JBool (b : bool)
| JNum (n : number)
| JStr (s : string)
| JArr (items : list json)
| JObj (members : list (string * json)).

Fixpoint assoc (k : string) (ms : list (string * json)) : option json :=
  match ms with
  | [] => None
  | (k', v) :: ms' => if String.eqb k' k then Some v else assoc k ms'
  end.

(** [data[k]], [None] for [undefined]. *)
Definition get (data : json) (k : string) : option json :=
  match data with
  | JObj ms => assoc k ms
  | _ => None
  end.

End Json.

(* ------------------------------------------------------------------ *)
(** ** The runtime the program runs on

    Four pieces of the platform are taken as given: the Unicode part of
    host parsing, the IPv6 literal parser, the [date-time] format of
    ajv-formats, and the network. *)

(** What [fetch] followed by [response.json()] can do. *)
Inductive FetchOutcome :=
| Rejected (message : option string)
    (** [fetch] rejects with [err]; [Some m] when [err instanceof Error]
        with [err.message = m], [None] for any other thrown value *)
| Responded (status : N) (body : option Json.json)
    (** a response with [response.status = status]; [body] is the value
        [response.json()] resolves to, [None] when it rejects *).

Record Runtime := {
  (** Unicode ToASCII of the URL Standard's "domain to ASCII", applied
      to the UTF-8 bytes of a percent-decoded domain that is not plain
      ASCII or has a label starting with [xn--]; [None] on failure *)
  unicodeToASCII : string -> option string;
  (** the IPv6 parser followed by the IPv6 serializer, on the text
      between the brackets; [None] on failure *)
  ipv6 : string -> option string;
  (** the [date-time] format check installed by [addFormats] *)
  dateTime : string -> bool;
  (** the response of the network to a GET of the given URL *)
  fetch : string -> FetchOutcome
}.

(* ------------------------------------------------------------------ *)
(** ** [new URL(s).origin]

    A transcription of the URL Standard's basic URL parser, without a
    base URL, as far as the origin depends on it: scheme, authority,
    host and port.  Path, query and fragment never make parsing fail
    and do not enter the origin.  Only the schemes [http] and [https]
    are covered; [normalizeUrl] passes no other (see
    [normalizeUrl_argument_has_scheme]). *)

Module Url.
Import Js.

Record URLRecord := {
  scheme : string;
  host : string;          (** serialized host *)
  port : option N         (** [None] when absent or the scheme's default *)
}.

Definition is_c0_or_space (c : ascii) : bool := (code c <=? 32)%N.
Definition is_tab_or_newline (c : ascii) : bool :=
  Ascii.eqb c TAB || Ascii.eqb c LF || Ascii.eqb c CR.
Definition is_alpha (c : ascii) : bool := between 65 90 c || between 97 122 c.
Definition is_digit (c : ascii) : bool := between 48 57 c.
Definition is_scheme_char (c : ascii) : bool :=
  is_alpha c || is_digit c ||
  Ascii.eqb c "+" || Ascii.eqb c "-" || Ascii.eqb c ".".
Definition is_slash (c : ascii) : bool := Ascii.eqb c "/" || Ascii.eqb c "\".
Definition is_authority_end (c : ascii) : bool :=
  Ascii.eqb c "/" || Ascii.eqb c "?" || Ascii.eqb c "#" || Ascii.eqb c "\".

(** Input preparation of the parser. *)
Definition preprocess (input : string) : string :=
  filter_chars (fun c => negb (is_tab_or_newline c))
    (dropEnd is_c0_or_space (dropStart is_c0_or_space input)).

(** Scheme start state and scheme state. *)
Definition parse_scheme (s : string) : option (string * string) :=
  match s with
  | EmptyString => None
  | String c s' =>
      if is_alpha c then
        let (buf, rest) := span is_scheme_char s' in
        match rest with
        | String d rest' =>
            if Ascii.eqb d ":" then Some (ascii_lower (String c buf), rest')
            else None
        | EmptyString => None
        end
      else None
  end.

Definition default_port (scheme : string) : option N :=
  if String.eqb scheme "http" then Some 80%N
  else if String.eqb scheme "https" then Some 443%N
  else None.

(** The part of the authority after its last ["@"], if it has one. *)
Fixpoint after_last_at (s : string) : option string :=
  match s with
  | EmptyString => None
  | String c s' =>
      match after_last_at s' with
      | Some r => Some r
      | None => if Ascii.eqb c "@" then Some s' else None
      end
  end.

(** Host state: the buffer runs to the first [":"] outside brackets. *)
Fixpoint split_host_port (inside : bool) (s : string) : string * option string :=
  match s with
  | EmptyString => (EmptyString, None)
  | String c s' =>
      if Ascii.eqb c ":" && negb inside then (EmptyString, Some s')
      else
        let inside' :=
          if Ascii.eqb c "[" then true
          else if Ascii.eqb c "]" then false else inside in
        let (h, p) := split_host_port inside' s' in (String c h, p)
  end.

(** UTF-8 bytes of a string of code units below 256. *)
Fixpoint utf8_encode (s : string) : string :=
  match s with
  | EmptyString => EmptyString
  | String c s' =>
      if (code c <? 128)%N then String c (utf8_encode s')
      else String (ascii_of_N (192 + code c / 64))
             (String (ascii_of_N (128 + code c mod 64)) (utf8_encode s'))
  end.

Definition digit_val (c : ascii) : option N :=
  if is_digit c then Some (code c - 48)%N
  else if between 97 102 c then Some (code c - 87)%N
  else if between 65 70 c then Some (code c - 55)%N
  else None.

Fixpoint percent_decode (s : string) : string :=
  match s with
  | EmptyString => EmptyString
  | String c s' =>
      if Ascii.eqb c "%" then
        match s' with
        | String h1 (String h2 s'') =>
            match digit_val h1, digit_val h2 with
            | Some a, Some b => String (ascii_of_N (16 * a + b)) (percent_decode s'')
            | _, _ => String c (percent_decode s')
            end
        | _ => String c (percent_decode s')
        end
      else String c (percent_decode s')
  end.

Definition is_ascii_char (c : ascii) : bool := (code c <? 128)%N.

Definition has_xn_label (domain : string) : bool :=
  existsb (fun l => startsWith "xn--" (ascii_lower l)) (split "." domain).

(** Forbidden domain code points. *)
Definition forbidden_domain (c : ascii) : bool :=
  (code c <=? 32)%N || (code c =? 127)%N ||
  Ascii.eqb c "#" || Ascii.eqb c "%" || Ascii.eqb c "/" || Ascii.eqb c ":" ||
  Ascii.eqb c "<" || Ascii.eqb c ">" || Ascii.eqb c "?" || Ascii.eqb c "@" ||
  Ascii.eqb c "[" || Ascii.eqb c "\" || Ascii.eqb c "]" || Ascii.eqb c "^" ||
  Ascii.eqb c "|".

Fixpoint parse_radix (R acc : N) (s : string) : option N :=
  match s with
  | EmptyString => Some acc
  | String c s' =>
      match digit_val c with
      | Some d => if (d <? R)%N then parse_radix R (acc * R + d)%N s' else None
      | None => None
      end
  end.

(** IPv4 number parser. *)
Definition ipv4_number (input : string) : option N :=
  if is_empty input then None
  else if (2 <=? String.length input)%nat
          && (startsWith "0x" input || startsWith "0X" input)
  then parse_radix 16 0 (tail (tail input))
  else if (2 <=? String.length input)%nat && startsWith "0" input
  then parse_radix 8 0 (tail input)
  else parse_radix 10 0 input.

(** The parts of a dotted host, without one trailing empty part when
    there are several parts. *)
Definition ipv4_parts (input : string) : list string :=
  let parts := split "." input in
  if is_empty (last parts EmptyString) && (1 <? List.length parts)%nat
  then removelast parts else parts.

Fixpoint ipv4_sum (numbers : list N) (counter : nat) : N :=
  match numbers with
  | [] => 0%N
  | n :: ns => (n * 256 ^ N.of_nat (3 - counter) + ipv4_sum ns (S counter))%N
  end.

(** IPv4 parser. *)
Definition ipv4_parse (input : string) : option N :=
  let parts := ipv4_parts input in
  if (4 <? List.length parts)%nat then None
  else
    match map_option ipv4_number parts with
    | None => None
    | Some numbers =>
        let final := last numbers 0%N in
        let others := removelast numbers in
        if existsb (fun n => (255 <? n)%N) others then None
        else if (256 ^ N.of_nat (5 - List.length numbers) <=? final)%N then None
        else Some (final + ipv4_sum others 0)%N
    end.

(** IPv4 serializer. *)
Definition ipv4_serialize (a : N) : string :=
  dec (a / 16777216) ++ "." ++ dec ((a / 65536) mod 256) ++ "." ++
  dec ((a / 256) mod 256) ++ "." ++ dec (a mod 256).

(** Ends-in-a-number checker. *)
Definition ends_in_a_number (input : string) : bool :=
  let parts := split "." input in
  if is_empty (last parts EmptyString) && (List.length parts =? 1)%nat then false
  else
    let parts := if is_empty (last parts EmptyString) then removelast parts else parts in
    let final := last parts EmptyString in
    (negb (is_empty final) && forall_chars is_digit final) ||
    (match ipv4_number final with Some _ => true | None => false end).

Section WithRuntime.
Variable rt : Runtime.

(** Domain to ASCII, not strict. *)
Definition domain_to_ascii (domain : string) : option string :=
  let result :=
    if forall_chars is_ascii_char domain && negb (has_xn_label domain)
    then Some (ascii_lower domain)
    else unicodeToASCII rt domain in
  match result with
  | Some r => if is_empty r then None else Some r
  | None => None
  end.

(** Host parser for a special scheme; the result is the serialized
    host. *)
Definition host_parse (input : string) : option string :=
  if startsWith "[" input then
    if negb (endsWith "]" input) then None
    else
      match ipv6 rt (drop_last (tail input)) with
      | Some a => Some ("[" ++ a ++ "]")
      | None => None
      end
  else
    match domain_to_ascii (percent_decode (utf8_encode input)) with
    | None => None
    | Some asciiDomain =>
        if exists_chars forbidden_domain asciiDomain then None
        else if ends_in_a_number asciiDomain
        then option_map ipv4_serialize (ipv4_parse asciiDomain)
        else Some asciiDomain
    end.

(** Port state, on the text after the [":"]. *)
Definition parse_port (scheme buffer : string) : option (option N) :=
  if forall_chars is_digit buffer then
    if is_empty buffer then Some None
    else
      match parse_radix 10 0 buffer with
      | Some p =>
          if (65535 <? p)%N then None
          else if match default_port scheme with
                  | Some d => (p =? d)%N
                  | None => false
                  end
               then Some None else Some (Some p)
      | None => None
      end
  else None.

(** Authority, host and port states. *)
Definition parse_authority (scheme rest : string) : option URLRecord :=
  let authority := fst (span (fun c => negb (is_authority_end c)) rest) in
  let hostport :=
    match after_last_at authority with
    | Some b => b
    | None => authority
    end in
  let (buffer, portText) := split_host_port false hostport in
  if is_empty buffer then None
  else
    match host_parse buffer with
    | None => None
    | Some h =>
        match portText with
        | None => Some {| scheme := scheme; host := h; port := None |}
        | Some t =>
            match parse_port scheme t with
            | Some p => Some {| scheme := scheme; host := h; port := p |}
            | None => None
            end
        end
    end.

(** [new URL(input)], [None] when the constructor throws. *)
Definition parse (input : string) : option URLRecord :=
  match parse_scheme (preprocess input) with
  | None => None
  | Some (scheme, rest) =>
      if String.eqb scheme "http" || String.eqb scheme "https"
      then parse_authority scheme (dropStart is_slash rest)
      else None
  end.

End WithRuntime.

Definition port_text (p : option N) : string :=
  match p with
  | Some n => ":" ++ dec n
  | None => EmptyString
  end.

(** [url.origin]: the serialization of the tuple origin of an http(s)
    URL. *)
Definition origin (u : URLRecord) : string :=
  scheme u ++ "://" ++ host u ++ port_text (port u).

End Url.

(* ------------------------------------------------------------------ *)
(** ** The validator: [ajv.compile(webmcpSchema)] with [allErrors]

    The schema is the constant of the source.  The interpreter below
    gives the keywords the schema uses their draft-07 meaning and
    reports every violation, in the order and with the messages of
    Ajv 8. *)

Module Ajv.
Import Js Json.

(** The two fields of an Ajv error object the program reads. *)
Record ErrorObject := {
  instancePath : string;
  message : string
}.

Record Pattern := {
  source : string;
  test : string -> bool
}.

Inductive Format := DateTime.

Inductive schema :=
| SString (enum : option (list string)) (minLength : option N)
          (pattern : option Pattern) (format : option Format)
| SNumber (minimum : option N)
| SBoolean
| SArray (minItems : option N) (items : schema)
| SObject (required : list string) (additionalProperties : bool)
          (properties : list (string * schema)).

(** [^https?://] *)
Definition origin_pattern : Pattern := {|
  source := "^https?://";
  test := fun s => startsWith "http://" s || startsWith "https://" s
|}.

Definition is_lower (c : ascii) : bool := between 97 122 c.
Definition is_name_char (c : ascii) : bool :=
  between 97 122 c || between 48 57 c || Ascii.eqb c "_".

(** [^[a-z][a-z0-9_]*$] *)
Definition name_pattern : Pattern := {|
  source := "^[a-z][a-z0-9_]*$";
  test := fun s =>
    match s with
    | EmptyString => false
    | String c s' => is_lower c && forall_chars is_name_char s'
    end
|}.

(** [{ type: "string" }] *)
Definition string_ : schema := SString None None None None.
(** [{ type: "object" }] *)
Definition object_ : schema := SObject [] true [].
(** [{ type: "array", items: { type: "string" } }] *)
Definition strings_ : schema := SArray None string_.

Definition webmcpSchema : schema :=
  SObject ["manifest_version"; "origin"; "updated_at"; "tools"] false
    [ ("manifest_version", SString (Some ["0.1"]) None None None);
      ("origin", SString None None (Some origin_pattern) None);
      ("updated_at", SString None None None (Some DateTime));
      ("tools",
        SArray (Some 1%N)
          (SObject
             ["name"; "description"; "version"; "tags"; "risk_level";
              "requires_user_confirm"; "input_schema"; "output_schema"]
             false
             [ ("name", SString None None (Some name_pattern) None);
               ("description", SString None (Some 1%N) None None);
               ("version", SString None (Some 1%N) None None);
               ("tags", strings_);
               ("risk_level", SString (Some ["low"; "medium"; "high"]) None None None);
               ("requires_user_confirm", SBoolean);
               ("input_schema", object_);
               ("output_schema", object_);
               ("pricing",
                 SObject ["model"] false
                   [ ("model",
                       SString (Some ["free"; "per_call"; "subscription"])
                         None None None);
                     ("price_usd", SNumber (Some 0%N));
                     ("notes", string_) ]) ]));
      ("auth",
        SObject ["requires_login"] false
          [ ("requires_login", SBoolean);
            ("oauth_scopes", strings_) ]);
      ("attestation",
        SObject ["algo"; "public_key_jwk"; "signature"; "signed_fields"] false
          [ ("algo", SString (Some ["ed25519"]) None None None);
            ("public_key_jwk", object_);
            ("signature", string_);
            ("signed_fields", strings_) ]) ].

Definition err (path msg : string) : ErrorObject :=
  {| instancePath := path; message := msg |}.

Definition quoted (s : string) : string :=
  String DQ s ++ String DQ EmptyString.

Definition is_some {A} (o : option A) : bool :=
  match o with Some _ => true | None => false end.

Section WithRuntime.
Variable rt : Runtime.

(** The keywords that apply to strings only. *)
Definition string_rules (minLength : option N) (pattern : option Pattern)
    (format : option Format) (path s : string) : list ErrorObject :=
  match minLength with
  | Some n =>
      if (N.of_nat (String.length s) <? n)%N
      then [err path ("must NOT have fewer than " ++ dec n ++ " characters")]
      else []
  | None => []
  end ++
  match pattern with
  | Some p =>
      if test p s then []
      else [err path ("must match pattern " ++ quoted (source p))]
  | None => []
  end ++
  match format with
  | Some DateTime =>
      if dateTime rt s then []
      else [err path ("must match format " ++ quoted "date-time")]
  | None => []
  end.

(** The errors of [data] against [s]; [path] is the JSON pointer of
    [data] in the document.  A type is checked ahead of the other
    keywords when the schema has no keyword of that type's own, and in
    place of them otherwise. *)
Fixpoint validate_at (s : schema) (path : string) (data : json) {struct s}
  : list ErrorObject :=
  match s with
  | SString enum minLength pattern format =>
      let own := is_some minLength || is_some pattern || is_some format in
      let wrong_type := [err path "must be string"] in
      let not_allowed := [err path "must be equal to one of the allowed values"] in
      (if own then []
       else match data with JStr _ => [] | _ => wrong_type end) ++
      match enum with
      | Some allowed =>
          match data with
          | JStr v => if existsb (String.eqb v) allowed then [] else not_allowed
          | _ => not_allowed
          end
      | None => []
      end ++
      (if own then
         match data with
         | JStr v => string_rules minLength pattern format path v
         | _ => wrong_type
         end
       else [])
  | SNumber minimum =>
      match data with
      | JNum (Finite q) =>
          match minimum with
          | Some m =>
              if Qle_bool (inject_Z (Z.of_N m)) q then []
              else [err path ("must be >= " ++ dec m)]
          | None => []
          end
      | _ => [err path "must be number"]
      end
  | SBoolean =>
      match data with
      | JBool _ => []
      | _ => [err path "must be boolean"]
      end
  | SArray minItems items =>
      match data with
      | JArr xs =>
          match minItems with
          | Some n =>
              if (N.of_nat (List.length xs) <? n)%N
              then [err path ("must NOT have fewer than " ++ dec n ++ " items")]
              else []
          | None => []
          end ++
          (fix each (i : N) (xs : list json) : list ErrorObject :=
             match xs with
             | [] => []
             | x :: xs' =>
                 (validate_at items (path ++ "/" ++ dec i)%string x
                    ++ each (i + 1)%N xs')%list
             end) 0%N xs
      | _ => [err path "must be array"]
      end
  | SObject required additionalProperties properties =>
      match data with
      | JObj ms =>
          flat_map
            (fun k =>
               match assoc k ms with
               | Some _ => []
               | None => [err path ("must have required property '" ++ k ++ "'")]
               end) required ++
          (if additionalProperties then []
           else
             flat_map
               (fun m =>
                  if existsb (String.eqb (fst m)) (map fst properties) then []
                  else [err path "must NOT have additional properties"]) ms) ++
          (fix props (ps : list (string * schema)) : list ErrorObject :=
             match ps with
             | [] => []
             | (k, sk) :: ps' =>
                 (match assoc k ms with
                  | Some v => validate_at sk (path ++ "/" ++ k)%string v
                  | None => []
                  end ++ props ps')%list
             end) properties
      | _ => [err path "must be object"]
      end
  end.

(** [validate.errors] after a call of [validate(data)]; the empty list
    stands for [null]. *)
Definition errors (data : json) : list ErrorObject :=
  validate_at webmcpSchema EmptyString data.

(** [validate(data)] *)
Definition validate (data : json) : bool :=
  match errors data with [] => true | _ :: _ => false end.

End WithRuntime.

End Ajv.

(* ------------------------------------------------------------------ *)
(** ** The program *)

Module Crawler.
Import Js Json.

Record CheckResult := {
  url : string;
  detected : bool;
  valid : bool;
  version : string;
  toolCount : nat;
  toolNames : string;
  error : string
}.

(** [/^https?:\/\//i.test(url)] *)
Definition has_scheme (url : string) : bool :=
  startsWith "http://" (ascii_lower url) || startsWith "https://" (ascii_lower url).

(** [tool.name] of an element of [m.tools], when it is a string. *)
Definition tool_name (t : json) : option string :=
  match get t "name" with
  | Some (JStr n) => Some n
  | _ => None
  end.

Definition failure (u : string) (d : bool) (e : string) : CheckResult :=
  {| url := u; detected := d; valid := false; version := EmptyString;
     toolCount := 0; toolNames := EmptyString; error := e |}.

(** [`${e.instancePath || "/"} ${e.message}`] *)
Definition render_error (e : Ajv.ErrorObject) : string :=
  (if is_empty (Ajv.instancePath e) then "/" else Ajv.instancePath e)
  ++ " " ++ Ajv.message e.

Section WithRuntime.
Variable rt : Runtime.

(** [normalizeUrl]; [None] when [new URL] throws. *)
Definition normalizeUrl (input : string) : option string :=
  let url := trim input in
  let url := if has_scheme url then url else "https://" ++ url in
  match Url.parse rt url with
  | Some parsed => Some (Url.origin parsed)
  | None => None
  end.

(** [response.ok] *)
Definition ok (status : N) : bool := (200 <=? status)%N && (status <=? 299)%N.

(** [checkUrl].  The request headers and the timeout are part of what
    [fetch rt] stands for.  The result is [None] only if a validated
    manifest did not have the shape the cast [manifest as {...}]
    asserts, which [checkUrl_outcome] excludes. *)
Definition checkUrl (input : string) : option CheckResult :=
  match normalizeUrl input with
  | None => Some (failure input false "Invalid URL")
  | Some origin =>
      let manifestUrl := origin ++ "/.well-known/webmcp.json" in
      match fetch rt manifestUrl with
      | Rejected e =>
          let message :=
            match e with
            | Some m => m
            | None => "Unknown network error"
            end in
          Some (failure origin false message)
      | Responded status body =>
          if negb (ok status) then
            Some (failure origin false ("HTTP " ++ dec status))
          else
            match body with
            | None => Some (failure origin false "Invalid JSON")
            | Some manifest =>
                let isValid := Ajv.validate rt manifest in
                if negb isValid then
                  let errors :=
                    join "; " (map render_error (Ajv.errors rt manifest)) in
                  Some (failure origin true ("Invalid manifest: " ++ errors))
                else
                  match get manifest "manifest_version", get manifest "tools" with
                  | Some (JStr manifest_version), Some (JArr tools) =>
                      match map_option tool_name tools with
                      | Some names =>
                          Some {| url := origin;
                                  detected := true;
                                  valid := true;
                                  version := manifest_version;
                                  toolCount := List.length tools;
                                  toolNames := join "; " names;
                                  error := EmptyString |}
                      | None => None
                      end
                  | _, _ => None
                  end
            end
      end
  end.

End WithRuntime.

(** *** CSV helpers *)

(** [content.split(/\r?\n/)]: split at every line feed and drop one
    carriage return before it. *)
Definition drop_cr (s : string) : string :=
  match last_char s with
  | Some c => if Ascii.eqb c CR then drop_last s else s
  | None => s
  end.

Fixpoint map_init {A} (f : A -> A) (xs : list A) : list A :=
  match xs with
  | [] => []
  | [x] => [x]
  | x :: xs' => f x :: map_init f xs'
  end.

Definition split_lines (content : string) : list string :=
  map_init drop_cr (split LF content).

Definition is_quote (c : ascii) : bool := Ascii.eqb c DQ || Ascii.eqb c SQ.

(** The [replace] of [parseCsvUrls]: one quote character, single or
    double, is removed at the start and one at the end. *)
Definition strip_quotes (col : string) : string :=
  let s := match col with
           | String c s' => if is_quote c then s' else col
           | EmptyString => col
           end in
  match last_char s with
  | Some c => if is_quote c then drop_last s else s
  | None => s
  end.

(** [parseCsvUrls], on the content of the file. *)
Definition parseCsvUrls (content : string) : list string :=
  let lines := filter (fun line => negb (is_empty (trim line))) (split_lines content) in
  let first := option_map (fun l => trim (toLowerCase l)) (hd_error lines) in
  let is_header :=
    match first with
    | Some f => String.eqb f "url" || String.eqb f "domain" || String.eqb f "website"
    | None => false
    end in
  let start := if is_header then 1 else 0 in
  map (fun line =>
         let col := trim (hd EmptyString (split "," line)) in
         strip_quotes col)
      (skipn start lines).

(** The [replace] of [escapeCsvField]: every double quote is doubled. *)
Fixpoint double_quotes (value : string) : string :=
  match value with
  | EmptyString => EmptyString
  | String c s' =>
      if Ascii.eqb c DQ then String DQ (String DQ (double_quotes s'))
      else String c (double_quotes s')
  end.

Definition escapeCsvField (value : string) : string :=
  if includes "," value || includes DQ value || includes LF value
  then String DQ (double_quotes value) ++ String DQ EmptyString
  else value.

Definition csv_header : string :=
  "url,detected,valid,version,tool_count,tool_names,error".

Definition csv_row (r : CheckResult) : string :=
  join ","
    [ escapeCsvField (url r);
      of_bool (detected r);
      of_bool (valid r);
      escapeCsvField (version r);
      dec (N.of_nat (toolCount r));
      escapeCsvField (toolNames r);
      escapeCsvField (error r) ].

Definition resultsToCsv (results : list CheckResult) : string :=
  join (String LF EmptyString) (csv_header :: map csv_row results)
  ++ String LF EmptyString.

(** *** Batch mode *)

Record BatchState := {
  results : list CheckResult;
  detectedCount : nat        (** the variable [detected] of [runBatch] *)
}.

Section Batch.
Variable rt : Runtime.

(** One turn of the loop of [runBatch]; the progress line written to
    the console is left out. *)
Definition batch_step (st : BatchState) (result : CheckResult) : BatchState :=
  {| results := results st ++ [result];
     detectedCount :=
       if detected result && valid result
       then S (detectedCount st) else detectedCount st |}.

Fixpoint batch_loop (urls : list string) (st : BatchState) : option BatchState :=
  match urls with
  | [] => Some st
  | u :: rest =>
      match checkUrl rt u with
      | Some result => batch_loop rest (batch_step st result)
      | None => None
      end
  end.

Definition batch_start : BatchState := {| results := []; detectedCount := 0 |}.

(** What a run of [runBatch] leaves behind: the text written to the
    output file, if any, and the exit code. *)
Record BatchRun := {
  written : option string;
  exitCode : nat
}.

(** [runBatch], on the content of the input file. *)
Definition runBatch (content : string) : option BatchRun :=
  let urls := parseCsvUrls content in
  if (List.length urls =? 0)%nat then
    Some {| written := None; exitCode := 1 |}
  else
    match batch_loop urls batch_start with
    | Some st =>
        Some {| written := Some (resultsToCsv (results st));
                exitCode := if (0 <? detectedCount st)%nat then 0 else 1 |}
    | None => None
    end.

End Batch.

End Crawler.

(* ------------------------------------------------------------------ *)
(** ** A concrete runtime, for examples

    Four sites: one serves a conformant manifest with three tools, one
    serves a JSON document that is not a manifest, one answers 404, one
    answers with a body that is not JSON; any other request fails in
    the network. *)

Module Example.
Import Js Json.

Definition tool (name : string) : json :=
  JObj [ ("name", JStr name);
         ("description", JStr "A tool");
         ("version", JStr "1.0.0");
         ("tags", JArr [JStr "shop"]);
         ("risk_level", JStr "low");
         ("requires_user_confirm", JBool false);
         ("input_schema", JObj []);
         ("output_schema", JObj []) ].

Definition manifest : json :=
  JObj [ ("manifest_version", JStr "0.1");
         ("origin", JStr "https://example.com");
         ("updated_at", JStr "2025-01-01T00:00:00Z");
         ("tools", JArr [tool "search_products"; tool "get_order";
                         tool "create_return"]) ].

Definition not_a_manifest : json :=
  JObj [ ("manifest_version", JStr "0.2"); ("tools", JArr []) ].

(** A plain check of the shape [dddd-dd-ddTdd:dd:ddZ]. *)
Definition date_time_shape (s : string) : bool :=
  (String.length s =? 20)%nat &&
  forall_chars (fun c => between 48 57 c || Ascii.eqb c "-" || Ascii.eqb c ":"
                         || Ascii.eqb c "T" || Ascii.eqb c "Z") s.

Definition network (u : string) : FetchOutcome :=
  if String.eqb u "https://example.com/.well-known/webmcp.json"
  then Responded 200 (Some manifest)
  else if String.eqb u "https://stripe.com/.well-known/webmcp.json"
  then Responded 200 (Some not_a_manifest)
  else if String.eqb u "https://github.com/.well-known/webmcp.json"
  then Responded 404 None
  else if String.eqb u "https://text.example/.well-known/webmcp.json"
  then Responded 200 None
  else Rejected (Some "fetch failed").

(** Of the IPv6 literals, only the loopback address is known. *)
Definition loopback (s : string) : option string :=
  if String.eqb s "::1" then Some "::1" else None.

Definition runtime : Runtime := {|
  unicodeToASCII := fun _ => None;
  ipv6 := loopback;
  dateTime := date_time_shape;
  fetch := network
|}.

End Example.

(* ------------------------------------------------------------------ *)
(** ** The command line: [runSingle] and [main]

    Text written to the console is a list of UTF-16 code units, since
    the messages use three characters above 255.  The console output of
    [main] itself (the help text and its error message) and of
    [runBatch] is left out; writing the output file is taken to
    succeed. *)

Module Cli.
Import Js Json Crawler.

Definition text := list N.

(** The code units of a string of the program. *)
Fixpoint units (s : string) : text :=
  match s with
  | EmptyString => []
  | String c s' => code c :: units s'
  end.

Definition ESC : ascii := "027"%char.

(** U+2718 and U+2714, the cross and the tick of the messages. *)
Definition cross : text := [10008%N].
Definition tick : text := [10004%N].

Definition bold (t : text) : text :=
  (units (String ESC "[1m") ++ t ++ units (String ESC "[0m"))%list.
Definition green (t : text) : text :=
  (units (String ESC "[32m") ++ t ++ units (String ESC "[0m"))%list.
Definition red (t : text) : text :=
  (units (String ESC "[31m") ++ t ++ units (String ESC "[0m"))%list.
Definition dim (t : text) : text :=
  (units (String ESC "[2m") ++ t ++ units (String ESC "[0m"))%list.

(** [s.split(sep)] for a separator of two characters [a], [b]. *)
Fixpoint split2 (a b : ascii) (s : string) : list string :=
  match s with
  | EmptyString => [EmptyString]
  | String c s' =>
      match s' with
      | String d s'' =>
          if Ascii.eqb c a && Ascii.eqb d b then EmptyString :: split2 a b s''
          else match split2 a b s' with
               | piece :: rest => String c piece :: rest
               | [] => [String c EmptyString]
               end
      | EmptyString => [String c EmptyString]
      end
  end.

(** What a run leaves behind: the lines written with [console.log] and
    with [console.error], and the exit code. *)
Record Run := {
  stdout : list text;
  stderr : list text;
  exit : nat
}.

(** The line [if (result.error) console.log(dim(...))]. *)
Definition error_detail (result : CheckResult) : list text :=
  if is_empty (error result) then []
  else [dim (units ("  " ++ error result))].

Section WithRuntime.
Variable rt : Runtime.

(** [runSingle] *)
Definition runSingle (input : string) : option Run :=
  match normalizeUrl rt input with
  | None =>
      Some {| stdout := [];
              stderr := [(red cross ++ units (" Invalid URL: " ++ input)%string)%list];
              exit := 1 |}
  | Some origin =>
      let checking :=
        dim (units ("Checking " ++ origin ++ "/.well-known/webmcp.json..."
                    ++ String LF EmptyString)) in
      match checkUrl rt input with
      | None => None
      | Some result =>
          if negb (detected result) then
            Some {| stdout :=
                      checking :: (red cross ++ units " WebMCP not detected")%list
                      :: error_detail result;
                    stderr := [];
                    exit := 1 |}
          else if negb (valid result) then
            Some {| stdout :=
                      checking
                      :: (red cross ++ units " WebMCP manifest found but invalid")%list
                      :: error_detail result;
                    stderr := [];
                    exit := 1 |}
          else
            Some {| stdout :=
                      ([ checking;
                         (green tick ++ units " WebMCP detected")%list;
                         units ("  Origin:   " ++ url result);
                         units ("  Version:  " ++ version result);
                         units ("  Tools:    " ++ dec (N.of_nat (toolCount result))) ]
                       ++ map (fun name => units ("    - " ++ name))
                            (split2 ";" " " (toolNames result)))%list;
                    stderr := [];
                    exit := 0 |}
      end
  end.

End WithRuntime.

(** What [main] decides from [process.argv.slice(2)]. *)
Inductive Action :=
| Help (code : nat)                       (** print the usage and exit *)
| CsvNeedsFile                            (** [--csv requires a file path] *)
| Batch (inputFile outputFile : string)   (** [runBatch] *)
| Single (input : string).                (** [runSingle] *)

(** [args.indexOf(x)], [None] for -1. *)
Fixpoint indexOf (x : string) (args : list string) : option nat :=
  match args with
  | [] => None
  | a :: rest =>
      if String.eqb a x then Some 0
      else option_map S (indexOf x rest)
  end.

(** [args.includes(x)] *)
Definition includes_arg (x : string) (args : list string) : bool :=
  existsb (fun a => String.eqb a x) args.

(** The argument at an index, when it is there and not empty. *)
Definition truthy_arg (args : list string) (i : nat) : option string :=
  match nth_error args i with
  | Some a => if is_empty a then None else Some a
  | None => None
  end.

(** The branches of [main]. *)
Definition action (args : list string) : Action :=
  if (List.length args =? 0)%nat || includes_arg "--help" args
     || includes_arg "-h" args
  then Help (if (List.length args =? 0)%nat then 1 else 0)
  else
    match indexOf "--csv" args with
    | Some csvIndex =>
        match truthy_arg args (csvIndex + 1) with
        | None => CsvNeedsFile
        | Some inputFile =>
            let outputFile :=
              match indexOf "-o" args with
              | Some outIndex =>
                  match truthy_arg args (outIndex + 1) with
                  | Some f => f
                  | None => "results.csv"
                  end
              | None => "results.csv"
              end in
            Batch inputFile outputFile
        end
    | None => Single (hd EmptyString args)
    end.

(** The end of the process: the exit code and the file written, with
    its path. *)
Record Exit := {
  status : nat;
  file : option (string * string)
}.

(** [main], with [readFile path] the content [readFileSync] returns,
    [None] when it throws. *)
Definition main (rt : Runtime) (readFile : string -> option string)
    (args : list string) : option Exit :=
  match action args with
  | Help c => Some {| status := c; file := None |}
  | CsvNeedsFile => Some {| status := 1; file := None |}
  | Batch inputFile outputFile =>
      match readFile inputFile with
      | None => Some {| status := 1; file := None |}
      | Some content =>
          match runBatch rt content with
          | Some run =>
              Some {| status := exitCode run;
                      file := option_map (fun t => (outputFile, t)) (written run) |}
          | None => None
          end
      end
  | Single input =>
      match runSingle rt input with
      | Some run => Some {| status := exit run; file := None |}
      | None => None
      end
  end.

End Cli.

(** A reader of comma-separated text in the usual convention (a field
    may be put between double quotes, inside which a doubled quote
    stands for one quote), against which the text [resultsToCsv] writes
    is read back.  [read_csv s quoted field row] reads [s] with [field]
    and [row] the field and the record begun so far. *)
Fixpoint read_csv (s : string) (quoted : bool) (field : string)
    (row : list string) {struct s} : list (list string) :=
  match s with
  | EmptyString =>
      if Js.is_empty field && (List.length row =? 0)%nat then []
      else [row ++ [field]]%list
  | String c s' =>
      if quoted then
        if Ascii.eqb c Js.DQ then
          match s' with
          | String d s'' =>
              if Ascii.eqb d Js.DQ
              then read_csv s'' true (field ++ String Js.DQ EmptyString) row
              else read_csv s' false field row
          | EmptyString => read_csv s' false field row
          end
        else read_csv s' true (field ++ String c EmptyString) row
      else if Ascii.eqb c Js.DQ then read_csv s' true field row
      else if Ascii.eqb c "," then read_csv s' false EmptyString (row ++ [field])%list
      else if Ascii.eqb c Js.LF
      then ((row ++ [field])%list :: read_csv s' false EmptyString [])%list
      else read_csv s' false (field ++ String c EmptyString) row
  end.

(* ------------------------------------------------------------------ *)
(** ** Definitions used in the statements and proofs *)

Import Js Json Crawler.

Definition nl : string := String LF EmptyString.

(** The errors of the properties of an object, and of the items of an
    array, as the two local loops of [Ajv.validate_at] compute them. *)
Definition props_errors (rt : Runtime) (ms : list (string * json))
    (path : string) (ps : list (string * Ajv.schema)) : list Ajv.ErrorObject :=
  flat_map (fun p =>
    match assoc (fst p) ms with
    | Some v => Ajv.validate_at rt (snd p) (path ++ "/" ++ fst p) v
    | None => []
    end) ps.

Fixpoint items_errors (rt : Runtime) (items : Ajv.schema) (path : string)
    (i : N) (xs : list json) : list Ajv.ErrorObject :=
  match xs with
  | [] => []
  | x :: xs' =>
      (Ajv.validate_at rt items (path ++ "/" ++ dec i)%string x
       ++ items_errors rt items path (i + 1)%N xs')%list
  end.

(** The number of outcomes with [valid = true]. *)
Definition count_valid (rs : list CheckResult) : nat :=
  List.length (filter valid rs).

(** The field contains a comma, a double quote or a line feed. *)
Definition needs_quotes (v : string) : Prop :=
  In ","%char (list_ascii_of_string v) \/ In DQ (list_ascii_of_string v)
  \/ In LF (list_ascii_of_string v).

(** The printable ASCII characters other than the space. *)
Definition visible (c : ascii) : bool := (32 <? code c)%N && (code c <? 127)%N.

(** The value of a decimal numeral read from its most significant digit,
    continuing from [acc]. *)
Fixpoint uval (acc : N) (d : Decimal.uint) : N :=
  match d with
  | Decimal.Nil => acc
  | Decimal.D0 d => uval (acc * 10 + 0) d
  | Decimal.D1 d => uval (acc * 10 + 1) d
  | Decimal.D2 d => uval (acc * 10 + 2) d
  | Decimal.D3 d => uval (acc * 10 + 3) d
  | Decimal.D4 d => uval (acc * 10 + 4) d
  | Decimal.D5 d => uval (acc * 10 + 5) d
  | Decimal.D6 d => uval (acc * 10 + 6) d
  | Decimal.D7 d => uval (acc * 10 + 7) d
  | Decimal.D8 d => uval (acc * 10 + 8) d
  | Decimal.D9 d => uval (acc * 10 + 9) d
  end.

(** Character classes of the parts of a serialized origin. *)
Definition digit_or_dot (c : ascii) : bool := Url.is_digit c || Ascii.eqb c ".".
Definition domain_char (c : ascii) : bool :=
  Url.is_ascii_char c && negb (Url.forbidden_domain c).
Definition ipv6_char (c : ascii) : bool :=
  Url.is_digit c || between 97 102 c || Ascii.eqb c ":".
Definition authority_char (c : ascii) : bool :=
  negb (Url.is_authority_end c) && negb (Ascii.eqb c "@").
Definition plain_char (c : ascii) : bool :=
  negb (Ascii.eqb c ":") && negb (Ascii.eqb c "[") && negb (Ascii.eqb c "]").
Definition not_bracket (c : ascii) : bool :=
  negb (Ascii.eqb c "[") && negb (Ascii.eqb c "]").

(** Two facts about the parts of the runtime that are taken as given.
    Unicode ToASCII yields ASCII text that "domain to ASCII" maps to
    itself; the IPv6 serializer writes lower-case hexadecimal digits and
    colons, and its output parses to the same address. *)
Definition unicode_stable (rt : Runtime) : Prop :=
  forall d r, unicodeToASCII rt d = Some r ->
    forall_chars Url.is_ascii_char r = true /\ Url.domain_to_ascii rt r = Some r.

Definition ipv6_stable (rt : Runtime) : Prop :=
  forall s a, ipv6 rt s = Some a ->
    forall_chars ipv6_char a = true /\ ipv6 rt a = Some a.

(** The serialized hosts: a domain or IPv4 address that the host parser
    maps to itself, or a bracketed IPv6 address. *)
Inductive good_host (rt : Runtime) (h : string) : Prop :=
| GoodDomain :
    is_empty h = false -> forall_chars domain_char h = true ->
    Url.host_parse rt h = Some h -> good_host rt h
| GoodIPv6 a :
    h = "[" ++ a ++ "]" -> forall_chars ipv6_char a = true ->
    ipv6 rt a = Some a -> good_host rt h.

(** A port of a URL record is at most 65535 and never the default port
    of the scheme. *)
Definition port_ok (sch : string) (p : option N) : Prop :=
  match p with
  | Some n => (n <= 65535)%N /\ Url.default_port sch <> Some n
  | None => True
  end.

(** An item put in front of the first piece of a split. *)
Definition cons_head (c : ascii) (l : list string) : list string :=
  match l with
  | piece :: rest => String c piece :: rest
  | [] => [String c EmptyString]
  end.

(** The keys the schema allows in a manifest and in a tool, and the
    shape the schema describes: of an array of strings, of a pricing,
    of a tool, of [auth], of [attestation] and of the manifest. *)
Definition root_keys : list string :=
  ["manifest_version"; "origin"; "updated_at"; "tools"; "auth"; "attestation"].

Definition tool_keys : list string :=
  ["name"; "description"; "version"; "tags"; "risk_level";
   "requires_user_confirm"; "input_schema"; "output_schema"; "pricing"].

Definition strings_shape (xs : list json) : Prop :=
  Forall (fun x => exists v, x = JStr v) xs.

Definition pricing_shape (pricing : json) : Prop :=
  exists pm model,
    pricing = JObj pm
    /\ (forall k v, In (k, v) pm -> In k ["model"; "price_usd"; "notes"])
    /\ assoc "model" pm = Some (JStr model)
    /\ In model ["free"; "per_call"; "subscription"]
    /\ (forall price, assoc "price_usd" pm = Some price ->
          exists q, price = JNum (Finite q) /\ (0 <= q)%Q)
    /\ (forall notes, assoc "notes" pm = Some notes ->
          exists v, notes = JStr v).

Definition tool_shape (t : json) : Prop :=
  exists tm name description version tags risk confirm ins outs,
    t = JObj tm
    /\ (forall k v, In (k, v) tm -> In k tool_keys)
    /\ assoc "name" tm = Some (JStr name)
    /\ Ajv.test Ajv.name_pattern name = true
    /\ assoc "description" tm = Some (JStr description) /\ description <> ""
    /\ assoc "version" tm = Some (JStr version) /\ version <> ""
    /\ assoc "tags" tm = Some (JArr tags) /\ strings_shape tags
    /\ assoc "risk_level" tm = Some (JStr risk)
    /\ In risk ["low"; "medium"; "high"]
    /\ assoc "requires_user_confirm" tm = Some (JBool confirm)
    /\ assoc "input_schema" tm = Some (JObj ins)
    /\ assoc "output_schema" tm = Some (JObj outs)
    /\ (forall pricing, assoc "pricing" tm = Some pricing -> pricing_shape pricing).

Definition auth_shape (auth : json) : Prop :=
  exists am login,
    auth = JObj am
    /\ (forall k v, In (k, v) am -> In k ["requires_login"; "oauth_scopes"])
    /\ assoc "requires_login" am = Some (JBool login)
    /\ (forall scopes, assoc "oauth_scopes" am = Some scopes ->
          exists xs, scopes = JArr xs /\ strings_shape xs).

Definition attestation_shape (attestation : json) : Prop :=
  exists tm key signature signed,
    attestation = JObj tm
    /\ (forall k v, In (k, v) tm ->
          In k ["algo"; "public_key_jwk"; "signature"; "signed_fields"])
    /\ assoc "algo" tm = Some (JStr "ed25519")
    /\ assoc "public_key_jwk" tm = Some (JObj key)
    /\ assoc "signature" tm = Some (JStr signature)
    /\ assoc "signed_fields" tm = Some (JArr signed)
    /\ strings_shape signed.

Definition manifest_shape (rt : Runtime) (doc : json) : Prop :=
  exists ms origin updated_at tools,
    doc = JObj ms
    /\ (forall k v, In (k, v) ms -> In k root_keys)
    /\ assoc "manifest_version" ms = Some (JStr "0.1")
    /\ assoc "origin" ms = Some (JStr origin)
    /\ startsWith "http://" origin || startsWith "https://" origin = true
    /\ assoc "updated_at" ms = Some (JStr updated_at)
    /\ dateTime rt updated_at = true
    /\ assoc "tools" ms = Some (JArr tools)
    /\ tools <> []
    /\ Forall tool_shape tools
    /\ (forall auth, assoc "auth" ms = Some auth -> auth_shape auth)
    /\ (forall attestation, assoc "attestation" ms = Some attestation ->
          attestation_shape attestation).

(** The two line ends of a CSV file, and the words [parseCsvUrls] takes
    for a header. *)
Definition crlf : string := String CR nl.

Definition header_words : list string := ["url"; "domain"; "website"].

(** A row of an input file is a URL followed by the rest of its line:
    the URL is not empty and has no white space, quote or comma; the
    rest is empty or starts with a comma, and has no line end in it. *)
Definition url_char (c : ascii) : bool :=
  negb (is_space c) && negb (is_quote c) && negb (Ascii.eqb c ",").

Definition url_text (u : string) : bool :=
  negb (is_empty u) && forall_chars url_char u.

Definition columns_text (rest : string) : bool :=
  (is_empty rest || startsWith "," rest)
  && negb (includes LF rest) && negb (includes CR rest).

Definition csv_line (r : string * string) : string := fst r ++ snd r.

Definition csv_rows (rows : list (string * string)) : Prop :=
  Forall (fun r => url_text (fst r) = true /\ columns_text (snd r) = true) rows.

(** A line without line feed that does not end with a carriage return. *)
Definition line_text (l : string) : Prop :=
  includes LF l = false /\ last_char l <> Some CR.

(** The fields of the header and of an outcome, as [resultsToCsv] lays
    them out, and a line written from fields. *)
Definition header_fields : list string :=
  ["url"; "detected"; "valid"; "version"; "tool_count"; "tool_names"; "error"].

Definition fields (r : CheckResult) : list string :=
  [ url r; of_bool (detected r); of_bool (valid r); version r;
    dec (N.of_nat (toolCount r)); toolNames r; error r ].

(** The text after a written field: nothing, or a first character
    other than the double quote. *)
Definition field_end (rest : string) : Prop :=
  rest = "" \/ exists c s, rest = String c s /\ Ascii.eqb c DQ = false.

Definition written_line (fs : list string) : string :=
  join "," (map escapeCsvField fs).

(* ------------------------------------------------------------------ *)
(** ** Strings, numerals and characters *)

Ltac ascii_cases c := destruct c as [[|] [|] [|] [|] [|] [|] [|] [|]].

(** *** Strings *)
Lemma append_assoc (a b c : string) : (a ++ b) ++ c = a ++ (b ++ c).
Proof. induction a as [|x a IH]; cbn; [reflexivity|now rewrite IH]. Qed.

Lemma append_nil_r (a : string) : a ++ "" = a.
Proof. induction a as [|x a IH]; cbn; [reflexivity|now rewrite IH]. Qed.

Lemma forall_chars_app p a b :
  forall_chars p (a ++ b) = forall_chars p a && forall_chars p b.
Proof.
  induction a as [|x a IH]; cbn; [reflexivity|]. rewrite IH. apply andb_assoc.
Qed.

Lemma forall_chars_impl (p q : ascii -> bool) s :
  (forall c, p c = true -> q c = true) ->
  forall_chars p s = true -> forall_chars q s = true.
Proof.
  intros Hpq. induction s as [|c s IH]; cbn; [reflexivity|].
  rewrite !andb_true_iff. intros [H1 H2]. auto.
Qed.

Lemma dropEnd_id p s :
  forall_chars (fun c => negb (p c)) s = true -> dropEnd p s = s.
Proof.
  induction s as [|c s IH]; cbn; [reflexivity|].
  rewrite andb_true_iff, negb_true_iff. intros [Hc Hs].
  rewrite Hc, (IH Hs). reflexivity.
Qed.

Lemma dropStart_id p s :
  forall_chars (fun c => negb (p c)) s = true -> dropStart p s = s.
Proof.
  destruct s as [|c s]; cbn; [reflexivity|].
  rewrite andb_true_iff, negb_true_iff. intros [-> _]. reflexivity.
Qed.

Lemma filter_chars_id p s : forall_chars p s = true -> filter_chars p s = s.
Proof.
  induction s as [|c s IH]; cbn; [reflexivity|].
  rewrite andb_true_iff. intros [-> Hs]. now rewrite IH.
Qed.

Lemma span_all p s : forall_chars p s = true -> span p s = (s, "").
Proof.
  induction s as [|c s IH]; cbn; [reflexivity|].
  rewrite andb_true_iff. intros [-> Hs]. now rewrite IH.
Qed.

(** *** Decimal numerals *)
Lemma parse_radix_uint d : forall acc,
  Url.parse_radix 10 acc (NilEmpty.string_of_uint d) = Some (uval acc d).
Proof.
  induction d; intros acc; cbn [NilEmpty.string_of_uint uval Url.parse_radix];
    [reflexivity|..]; apply IHd.
Qed.

Lemma of_uint_acc_uval d : forall p,
  Npos (Pos.of_uint_acc d p) = uval (Npos p) d.
Proof.
  induction d; intros p; cbn [Pos.of_uint_acc uval]; [f_equal; lia|..];
    rewrite IHd; f_equal; lia.
Qed.

Lemma of_uint_uval d : N.of_uint d = uval 0 d.
Proof.
  unfold N.of_uint.
  induction d; cbn [Pos.of_uint uval]; try exact IHd; try reflexivity;
    apply of_uint_acc_uval.
Qed.

Lemma parse_dec n : Url.parse_radix 10 0 (dec n) = Some n.
Proof.
  unfold dec. rewrite parse_radix_uint, <- of_uint_uval.
  now rewrite DecimalN.Unsigned.of_to.
Qed.

Lemma digits_uint d : forall_chars Url.is_digit (NilEmpty.string_of_uint d) = true.
Proof. induction d; cbn; auto. Qed.

Lemma dec_digits n : forall_chars Url.is_digit (dec n) = true.
Proof. apply digits_uint. Qed.

Lemma dec_nonempty n : is_empty (dec n) = false.
Proof.
  unfold dec. destruct n as [|p]; [reflexivity|].
  cbn [N.to_uint]. pose proof (DecimalPos.Unsigned.to_uint_nonnil p) as H.
  destruct (Pos.to_uint p); [congruence|..]; reflexivity.
Qed.

Lemma dec_leading_zero n : startsWith "0" (dec n) = true -> dec n = "0".
Proof.
  unfold dec. pose proof (DecimalN.Unsigned.to_of (N.to_uint n)) as H.
  rewrite DecimalN.Unsigned.of_to in H.
  destruct (N.to_uint n) eqn:E; cbn; try discriminate.
  intros _. unfold Decimal.unorm in H.
  destruct (Decimal.nzhead (Decimal.D0 u)) eqn:En; try discriminate.
  - injection H as ->. reflexivity.
  - exfalso. exact (DecimalFacts.nzhead_nonzero _ _ En).
Qed.

(** *** Splitting, and the IPv4 parser on a serialized address *)
Lemma split_no_sep d s : includes d s = false -> split d s = [s].
Proof.
  induction s as [|c s IH]; cbn; [reflexivity|].
  rewrite orb_false_iff. intros [Hc Hs]. rewrite Hc, (IH Hs). reflexivity.
Qed.

Lemma split_app_sep d a b :
  includes d a = false -> split d (a ++ String d b) = a :: split d b.
Proof.
  induction a as [|c a IH]; cbn [append split includes].
  - intros _. now rewrite Ascii.eqb_refl.
  - rewrite orb_false_iff. intros [Hc Ha]. rewrite Hc, (IH Ha). reflexivity.
Qed.

Lemma split_In_chars p d s l :
  forall_chars p s = true -> In l (split d s) -> forall_chars p l = true.
Proof.
  revert l. induction s as [|c s IH]; intros l; cbn [split forall_chars].
  - intros _ [<-|[]]. reflexivity.
  - rewrite andb_true_iff. intros [Hc Hs].
    destruct (Ascii.eqb c d).
    + intros [<-|Hl]; [reflexivity|auto].
    + destruct (split d s) as [|piece rest] eqn:E.
      * intros [<-|[]]. cbn. now rewrite Hc.
      * intros [<-|Hl].
        -- cbn. rewrite Hc. apply IH; [exact Hs|left; reflexivity].
        -- apply IH; [exact Hs|right; exact Hl].
Qed.

Lemma includes_false_chars d s :
  forall_chars (fun c => negb (Ascii.eqb c d)) s = true -> includes d s = false.
Proof.
  induction s as [|c s IH]; cbn; [reflexivity|].
  rewrite andb_true_iff, negb_true_iff. intros [-> Hs]. now rewrite IH.
Qed.

Lemma digit_not_dot c : Url.is_digit c = true -> negb (Ascii.eqb c ".") = true.
Proof. ascii_cases c; vm_compute; congruence. Qed.

Lemma dec_no_dot n : includes "." (dec n) = false.
Proof.
  apply includes_false_chars.
  eapply forall_chars_impl; [exact digit_not_dot|apply dec_digits].
Qed.

Lemma prefix_zero_x s :
  startsWith "0" s = false -> startsWith "0x" s = false /\ startsWith "0X" s = false.
Proof.
  destruct s as [|c s]; cbn [startsWith]; [auto|].
  destruct (Ascii.eqb "0" c); [discriminate|auto].
Qed.

Lemma ipv4_number_dec n : Url.ipv4_number (dec n) = Some n.
Proof.
  destruct (startsWith "0" (dec n)) eqn:E.
  - assert (n = 0%N) as ->; [|reflexivity].
    pose proof (parse_dec n) as P. rewrite (dec_leading_zero n E) in P.
    vm_compute in P. congruence.
  - unfold Url.ipv4_number. rewrite dec_nonempty.
    destruct (prefix_zero_x _ E) as [-> ->]. rewrite E, !andb_false_r. apply parse_dec.
Qed.

Lemma ipv4_serialize_split a :
  split "." (Url.ipv4_serialize a) =
  [dec (a / 16777216); dec ((a / 65536) mod 256); dec ((a / 256) mod 256); dec (a mod 256)].
Proof.
  unfold Url.ipv4_serialize.
  cbn [append].
  rewrite !split_app_sep by apply dec_no_dot.
  rewrite split_no_sep by apply dec_no_dot. reflexivity.
Qed.

Lemma ipv4_octets (a : N) :
  (a < 4294967296 ->
   a / 16777216 < 256 /\
   a mod 256 + (a / 16777216 * 16777216 + ((a / 65536) mod 256 * 65536 +
     ((a / 256) mod 256 * 256 + 0))) = a)%N.
Proof.
  intros H. split.
  - apply N.Div0.div_lt_upper_bound. lia.
  - pose proof (N.Div0.div_mod a 256). pose proof (N.Div0.div_mod (a / 256) 256).
    pose proof (N.Div0.div_mod (a / 256 / 256) 256).
    rewrite !N.Div0.div_div in *.
    change (256 * 256)%N with 65536%N in *. change (65536 * 256)%N with 16777216%N in *.
    assert (a / 16777216 < 256)%N by (apply N.Div0.div_lt_upper_bound; lia).
    lia.
Qed.

Lemma ipv4_parse_serialize a :
  (a < 4294967296)%N -> Url.ipv4_parse (Url.ipv4_serialize a) = Some a.
Proof.
  intros Ha. unfold Url.ipv4_parse, Url.ipv4_parts.
  rewrite ipv4_serialize_split.
  cbn [last List.length removelast]. rewrite dec_nonempty. cbn [andb Nat.ltb Nat.leb].
  cbn [map_option]. rewrite !ipv4_number_dec.
  cbn [last List.length removelast existsb].
  destruct (ipv4_octets a Ha) as [Hhi Hsum].
  assert (Hm : forall x, (255 <? x mod 256)%N = false).
  { intros x. apply N.ltb_ge. pose proof (N.mod_lt x 256). lia. }
  rewrite !Hm. replace (255 <? a / 16777216)%N with false
    by (symmetry; apply N.ltb_ge; lia).
  cbn [orb]. change (256 ^ N.of_nat (5 - 4))%N with 256%N.
  replace (256 <=? a mod 256)%N with false
    by (symmetry; apply N.leb_gt; pose proof (N.mod_lt a 256); lia).
  f_equal. cbn [Url.ipv4_sum].
  change (256 ^ N.of_nat (3 - 0))%N with 16777216%N.
  change (256 ^ N.of_nat (3 - 1))%N with 65536%N.
  change (256 ^ N.of_nat (3 - 2))%N with 256%N.
  exact Hsum.
Qed.

Lemma ends_in_a_number_serialize a : Url.ends_in_a_number (Url.ipv4_serialize a) = true.
Proof.
  unfold Url.ends_in_a_number. rewrite ipv4_serialize_split.
  cbn [last List.length removelast]. rewrite dec_nonempty. cbn [andb negb last].
  rewrite dec_nonempty, dec_digits. reflexivity.
Qed.

Lemma map_option_length {A B} (f : A -> option B) xs ys :
  map_option f xs = Some ys -> List.length ys = List.length xs.
Proof.
  revert ys. induction xs as [|x xs IH]; intros ys; cbn [map_option].
  - intros [= <-]. reflexivity.
  - destruct (f x); [|discriminate]. destruct (map_option f xs); [|discriminate].
    intros [= <-]. cbn. f_equal. apply IH. reflexivity.
Qed.

Lemma ipv4_parse_bound s n : Url.ipv4_parse s = Some n -> (n < 4294967296)%N.
Proof.
  unfold Url.ipv4_parse.
  destruct (4 <? List.length (Url.ipv4_parts s))%nat eqn:Hlen; [discriminate|].
  apply Nat.ltb_ge in Hlen.
  destruct (map_option Url.ipv4_number (Url.ipv4_parts s)) as [numbers|] eqn:Hn;
    [|discriminate].
  apply map_option_length in Hn. rewrite <- Hn in Hlen. clear Hn.
  destruct (existsb _ _) eqn:Hsmall; [discriminate|].
  destruct (N.leb_spec (256 ^ N.of_nat (5 - List.length numbers)) (last numbers 0%N));
    [discriminate|].
  intros [= <-].
  destruct numbers as [|a [|b [|c [|d [|e rest]]]]]; cbn in Hlen; try lia;
    cbn [last removelast List.length Nat.sub N.of_nat Pos.of_succ_nat Pos.succ
         existsb Url.ipv4_sum orb] in *;
    rewrite ?orb_false_r, ?orb_false_iff in Hsmall;
    repeat match goal with
           | H : _ /\ _ |- _ => destruct H
           | H : (255 <? _)%N = false |- _ => apply N.ltb_ge in H
           end;
    change (256 ^ 4)%N with 4294967296%N in *;
    change (256 ^ 3)%N with 16777216%N in *;
    change (256 ^ 2)%N with 65536%N in *;
    change (256 ^ 1)%N with 256%N in *;
    change (256 ^ 5)%N with 1099511627776%N in *;
    change (256 ^ N.of_nat (3 - 0))%N with 16777216%N in *;
    change (256 ^ N.of_nat (3 - 1))%N with 65536%N in *;
    change (256 ^ N.of_nat (3 - 2))%N with 256%N in *;
    lia.
Qed.

(** *** Character classes, by cases on the character *)
Ltac char_fact c := ascii_cases c; vm_compute; congruence.

Lemma domain_char_visible c : domain_char c = true -> visible c = true.
Proof. char_fact c. Qed.
Lemma domain_char_ascii c : domain_char c = true -> Url.is_ascii_char c = true.
Proof. char_fact c. Qed.
Lemma domain_char_allowed c : domain_char c = true -> negb (Url.forbidden_domain c) = true.
Proof. char_fact c. Qed.
Lemma domain_char_authority c : domain_char c = true -> authority_char c = true.
Proof. char_fact c. Qed.
Lemma domain_char_plain c : domain_char c = true -> plain_char c = true.
Proof. char_fact c. Qed.
Lemma domain_char_no_percent c : domain_char c = true -> negb (Ascii.eqb c "%") = true.
Proof. char_fact c. Qed.
Lemma domain_char_no_bracket c : domain_char c = true -> Ascii.eqb "[" c = false.
Proof. char_fact c. Qed.
Lemma domain_char_no_slash c : domain_char c = true -> Url.is_slash c = false.
Proof. char_fact c. Qed.
Lemma digit_or_dot_domain c : digit_or_dot c = true -> domain_char c = true.
Proof. char_fact c. Qed.
Lemma digit_or_dot_lower c : digit_or_dot c = true -> ascii_lower_char c = c.
Proof. char_fact c. Qed.
Lemma digit_or_dot_not_x c : digit_or_dot c = true -> Ascii.eqb "x" (ascii_lower_char c) = false.
Proof. char_fact c. Qed.
Lemma digit_digit_or_dot c : Url.is_digit c = true -> digit_or_dot c = true.
Proof. char_fact c. Qed.
Lemma ipv6_char_visible c : ipv6_char c = true -> visible c = true.
Proof. char_fact c. Qed.
Lemma ipv6_char_authority c : ipv6_char c = true -> authority_char c = true.
Proof. char_fact c. Qed.
Lemma ipv6_char_not_bracket c : ipv6_char c = true -> not_bracket c = true.
Proof. char_fact c. Qed.
Lemma digit_visible c : Url.is_digit c = true -> visible c = true.
Proof. char_fact c. Qed.
Lemma digit_authority c : Url.is_digit c = true -> authority_char c = true.
Proof. char_fact c. Qed.
Lemma visible_not_space c : visible c = true -> negb (is_space c) = true.
Proof. char_fact c. Qed.
Lemma visible_not_c0 c : visible c = true -> negb (Url.is_c0_or_space c) = true.
Proof. char_fact c. Qed.
Lemma visible_not_tab c : visible c = true -> negb (Url.is_tab_or_newline c) = true.
Proof. char_fact c. Qed.
Lemma ascii_lower_char_idem c : ascii_lower_char (ascii_lower_char c) = ascii_lower_char c.
Proof. ascii_cases c; reflexivity. Qed.
Lemma ascii_lower_char_ascii c :
  Url.is_ascii_char (ascii_lower_char c) = Url.is_ascii_char c.
Proof. ascii_cases c; reflexivity. Qed.
Lemma ascii_lower_char_dot c : Ascii.eqb (ascii_lower_char c) "." = Ascii.eqb c ".".
Proof. ascii_cases c; reflexivity. Qed.

(** *** Lower-casing, and the steps of the host parser *)
Lemma ascii_lower_idem s : ascii_lower (ascii_lower s) = ascii_lower s.
Proof.
  unfold ascii_lower. induction s as [|c s IH]; cbn; [reflexivity|].
  now rewrite ascii_lower_char_idem, IH.
Qed.

Lemma ascii_lower_ascii s :
  forall_chars Url.is_ascii_char (ascii_lower s) = forall_chars Url.is_ascii_char s.
Proof.
  unfold ascii_lower. induction s as [|c s IH]; cbn; [reflexivity|].
  now rewrite ascii_lower_char_ascii, IH.
Qed.

Lemma ascii_lower_empty s : is_empty (ascii_lower s) = is_empty s.
Proof. destruct s; reflexivity. Qed.

Lemma ascii_lower_split s :
  split "." (ascii_lower s) = map ascii_lower (split "." s).
Proof.
  unfold ascii_lower. induction s as [|c s IH]; [reflexivity|].
  cbn [map_chars split]. rewrite ascii_lower_char_dot, IH.
  destruct (Ascii.eqb c "."); [reflexivity|].
  destruct (split "." s); reflexivity.
Qed.

Lemma has_xn_label_lower s : Url.has_xn_label (ascii_lower s) = Url.has_xn_label s.
Proof.
  unfold Url.has_xn_label. rewrite ascii_lower_split.
  induction (split "." s) as [|l ls IH]; [reflexivity|].
  cbn [map existsb]. now rewrite ascii_lower_idem, IH.
Qed.

Lemma ascii_lower_digit_or_dot s :
  forall_chars digit_or_dot s = true -> ascii_lower s = s.
Proof.
  unfold ascii_lower. induction s as [|c s IH]; cbn; [reflexivity|].
  rewrite andb_true_iff. intros [Hc Hs]. now rewrite (digit_or_dot_lower c Hc), IH.
Qed.

Lemma has_xn_label_digit_or_dot s :
  forall_chars digit_or_dot s = true -> Url.has_xn_label s = false.
Proof.
  intros H. unfold Url.has_xn_label.
  destruct (existsb _ _) eqn:E; [|reflexivity].
  apply existsb_exists in E as (l & Hl & Hp).
  pose proof (split_In_chars digit_or_dot "." s l H Hl) as Hd.
  destruct l as [|c l]; [discriminate|].
  cbn in Hd. apply andb_true_iff in Hd as [Hc _].
  cbn [ascii_lower map_chars startsWith] in Hp.
  rewrite (digit_or_dot_not_x c Hc) in Hp. discriminate.
Qed.

Lemma utf8_encode_ascii s :
  forall_chars Url.is_ascii_char s = true -> Url.utf8_encode s = s.
Proof.
  induction s as [|c s IH]; cbn [forall_chars Url.utf8_encode]; [reflexivity|].
  rewrite andb_true_iff. intros [Hc Hs]. unfold Url.is_ascii_char in Hc.
  now rewrite Hc, IH.
Qed.

Lemma percent_decode_id s :
  forall_chars (fun c => negb (Ascii.eqb c "%")) s = true -> Url.percent_decode s = s.
Proof.
  induction s as [|c s IH]; cbn [forall_chars Url.percent_decode]; [reflexivity|].
  rewrite andb_true_iff, negb_true_iff. intros [-> Hs]. now rewrite IH.
Qed.

Lemma exists_chars_false p s :
  forall_chars (fun c => negb (p c)) s = true -> exists_chars p s = false.
Proof. unfold exists_chars. now intros ->. Qed.

Lemma exists_chars_false_inv p s :
  exists_chars p s = false -> forall_chars (fun c => negb (p c)) s = true.
Proof. unfold exists_chars. now destruct (forall_chars _ s). Qed.

Lemma forall_chars_and p q s :
  forall_chars p s = true -> forall_chars q s = true ->
  forall_chars (fun c => p c && q c) s = true.
Proof.
  induction s as [|c s IH]; cbn; [reflexivity|].
  rewrite !andb_true_iff. intros [? ?] [? ?]. auto.
Qed.

(** *** Hosts *)
Section HostFacts.
Variable rt : Runtime.
Hypothesis Hunicode : unicode_stable rt.
Hypothesis Hipv6 : ipv6_stable rt.

Lemma domain_to_ascii_stable d r :
  Url.domain_to_ascii rt d = Some r ->
  is_empty r = false /\ forall_chars Url.is_ascii_char r = true
  /\ Url.domain_to_ascii rt r = Some r.
Proof.
  unfold Url.domain_to_ascii at 1.
  destruct (forall_chars Url.is_ascii_char d && negb (Url.has_xn_label d)) eqn:E.
  - destruct (is_empty (ascii_lower d)) eqn:Hne; [discriminate|]. intros [= <-].
    apply andb_true_iff in E as [Ha Hx].
    split; [exact Hne|]. split; [now rewrite ascii_lower_ascii|].
    unfold Url.domain_to_ascii.
    rewrite ascii_lower_ascii, has_xn_label_lower, Ha, Hx. cbn [andb].
    now rewrite ascii_lower_idem, Hne.
  - destruct (unicodeToASCII rt d) as [r0|] eqn:Hu; [|discriminate].
    destruct (is_empty r0) eqn:Hne; [discriminate|]. intros [= <-].
    destruct (Hunicode _ _ Hu) as [Ha Hfix]. auto.
Qed.

Lemma domain_host_parse r :
  is_empty r = false -> forall_chars domain_char r = true ->
  Url.domain_to_ascii rt r = Some r ->
  Url.host_parse rt r =
  if Url.ends_in_a_number r then option_map Url.ipv4_serialize (Url.ipv4_parse r)
  else Some r.
Proof.
  intros Hne Hchars Hfix. unfold Url.host_parse.
  replace (startsWith "[" r) with false.
  2:{ destruct r as [|c r]; [discriminate|]. cbn in Hchars.
      apply andb_true_iff in Hchars as [Hc _]. cbn [startsWith].
      now rewrite (domain_char_no_bracket c Hc). }
  rewrite utf8_encode_ascii
    by (eapply forall_chars_impl; [exact domain_char_ascii|exact Hchars]).
  rewrite percent_decode_id
    by (eapply forall_chars_impl; [exact domain_char_no_percent|exact Hchars]).
  rewrite Hfix.
  rewrite exists_chars_false
    by (eapply forall_chars_impl; [exact domain_char_allowed|exact Hchars]).
  reflexivity.
Qed.

Lemma ipv4_serialize_chars a : forall_chars digit_or_dot (Url.ipv4_serialize a) = true.
Proof.
  unfold Url.ipv4_serialize. rewrite !forall_chars_app.
  assert (H : forall n, forall_chars digit_or_dot (dec n) = true).
  { intros n. eapply forall_chars_impl; [exact digit_digit_or_dot|apply dec_digits]. }
  rewrite !H. reflexivity.
Qed.

Lemma ipv4_serialize_nonempty a : is_empty (Url.ipv4_serialize a) = false.
Proof.
  unfold Url.ipv4_serialize. pose proof (dec_nonempty (a / 16777216)) as H.
  destruct (dec (a / 16777216)); [discriminate|reflexivity].
Qed.

Lemma ipv4_host_good a : (a < 4294967296)%N -> good_host rt (Url.ipv4_serialize a).
Proof.
  intros Ha. pose proof (ipv4_serialize_chars a) as Hc.
  pose proof (ipv4_serialize_nonempty a) as Hne.
  assert (Hd : forall_chars domain_char (Url.ipv4_serialize a) = true)
    by (eapply forall_chars_impl; [exact digit_or_dot_domain|exact Hc]).
  apply GoodDomain; [exact Hne|exact Hd|].
  rewrite domain_host_parse; [|exact Hne|exact Hd|].
  - rewrite ends_in_a_number_serialize, ipv4_parse_serialize by exact Ha. reflexivity.
  - unfold Url.domain_to_ascii.
    rewrite (forall_chars_impl _ _ _ domain_char_ascii Hd).
    rewrite (has_xn_label_digit_or_dot _ Hc). cbn [andb negb].
    rewrite (ascii_lower_digit_or_dot _ Hc), Hne. reflexivity.
Qed.

Lemma host_parse_good b h : Url.host_parse rt b = Some h -> good_host rt h.
Proof.
  unfold Url.host_parse. destruct (startsWith "[" b).
  - destruct (negb (endsWith "]" b)); [discriminate|].
    destruct (ipv6 rt (drop_last (tail b))) as [a|] eqn:Ha; [|discriminate].
    intros [= <-]. destruct (Hipv6 _ _ Ha) as [Hc Hfix].
    eapply GoodIPv6; [reflexivity|exact Hc|exact Hfix].
  - destruct (Url.domain_to_ascii rt _) as [r|] eqn:Hr; [|discriminate].
    destruct (exists_chars Url.forbidden_domain r) eqn:Hforb; [discriminate|].
    apply domain_to_ascii_stable in Hr as (Hne & Hascii & Hfix).
    apply exists_chars_false_inv in Hforb.
    pose proof (forall_chars_and _ _ _ Hascii Hforb) as Hd.
    change (forall_chars domain_char r = true) in Hd.
    destruct (Url.ends_in_a_number r) eqn:Hnum.
    + destruct (Url.ipv4_parse r) as [a|] eqn:Hp; [|discriminate].
      intros [= <-]. apply ipv4_host_good. eapply ipv4_parse_bound; exact Hp.
    + intros [= <-]. apply GoodDomain; [exact Hne|exact Hd|].
      rewrite domain_host_parse by assumption. now rewrite Hnum.
Qed.

End HostFacts.

Lemma origin_eq u :
  Url.origin u = Url.scheme u ++ "://" ++ Url.host u ++ Url.port_text (Url.port u).
Proof. reflexivity. Qed.

Lemma parse_port_ok sch t p : Url.parse_port sch t = Some p -> port_ok sch p.
Proof.
  unfold Url.parse_port. destruct (forall_chars Url.is_digit t); [|discriminate].
  destruct (is_empty t); [intros [= <-]; exact I|].
  destruct (Url.parse_radix 10 0 t) as [n|]; [|discriminate].
  destruct (N.ltb_spec 65535 n); [discriminate|].
  destruct (Url.default_port sch) as [d|] eqn:Hd.
  - destruct (N.eqb_spec n d); intros [= <-]; [exact I|].
    split; [assumption|congruence].
  - intros [= <-]. split; [assumption|congruence].
Qed.

Lemma parse_port_dec sch n :
  (n <= 65535)%N -> Url.default_port sch <> Some n ->
  Url.parse_port sch (dec n) = Some (Some n).
Proof.
  intros Hn Hd. unfold Url.parse_port.
  rewrite dec_digits, dec_nonempty, parse_dec.
  destruct (N.ltb_spec 65535 n); [lia|].
  destruct (Url.default_port sch) as [d|]; [|reflexivity].
  destruct (N.eqb_spec n d); [congruence|reflexivity].
Qed.

Lemma after_last_at_none s :
  forall_chars authority_char s = true -> Url.after_last_at s = None.
Proof.
  induction s as [|c s IH]; cbn [forall_chars Url.after_last_at]; [reflexivity|].
  rewrite andb_true_iff. intros [Hc Hs]. rewrite (IH Hs).
  unfold authority_char in Hc. apply andb_true_iff in Hc as [_ Hc].
  apply negb_true_iff in Hc. now rewrite Hc.
Qed.

Lemma split_host_port_plain h rest :
  forall_chars plain_char h = true ->
  Url.split_host_port false (h ++ rest) =
  (h ++ fst (Url.split_host_port false rest), snd (Url.split_host_port false rest)).
Proof.
  induction h as [|c h IH]; cbn [forall_chars append Url.split_host_port].
  - intros _. now destruct (Url.split_host_port false rest).
  - rewrite andb_true_iff. intros [Hc Hs]. unfold plain_char in Hc.
    rewrite !andb_true_iff, !negb_true_iff in Hc. destruct Hc as [[H1 H2] H3].
    rewrite H1, H2, H3. cbn [andb]. rewrite (IH Hs). reflexivity.
Qed.

Lemma split_host_port_inside a rest :
  forall_chars not_bracket a = true ->
  Url.split_host_port true (a ++ rest) =
  (a ++ fst (Url.split_host_port true rest), snd (Url.split_host_port true rest)).
Proof.
  induction a as [|c a IH]; cbn [forall_chars append Url.split_host_port].
  - intros _. now destruct (Url.split_host_port true rest).
  - rewrite andb_true_iff. intros [Hc Hs]. unfold not_bracket in Hc.
    rewrite !andb_true_iff, !negb_true_iff in Hc. destruct Hc as [H1 H2].
    rewrite H1, H2, andb_false_r. rewrite (IH Hs). reflexivity.
Qed.

Lemma split_host_port_text p :
  Url.split_host_port false (Url.port_text p) = ("", option_map dec p).
Proof. destruct p; reflexivity. Qed.

Lemma last_char_cons c s : exists d, last_char (String c s) = Some d.
Proof.
  revert c. induction s as [|x s IH]; intros c; [exists c; reflexivity|].
  destruct (IH x) as [d Hd]. exists d. cbn [last_char] in *. exact Hd.
Qed.

Lemma last_char_app (a b : string) :
  last_char (a ++ b) =
  match last_char b with Some c => Some c | None => last_char a end.
Proof.
  destruct b as [|y b]; [rewrite append_nil_r; reflexivity|].
  destruct (last_char_cons y b) as [d Hd]. rewrite Hd.
  induction a as [|x a IH]; [exact Hd|].
  cbn [append last_char]. rewrite IH.
  destruct (a ++ String y b) eqn:E; [destruct a; discriminate|reflexivity].
Qed.

Lemma drop_last_snoc a c : drop_last (a ++ String c "") = a.
Proof.
  induction a as [|x a IH]; [reflexivity|].
  cbn [append drop_last]. rewrite IH.
  destruct (a ++ String c "") eqn:E; [destruct a; discriminate|reflexivity].
Qed.

Section OriginFacts.
Variable rt : Runtime.

Lemma good_host_facts h :
  good_host rt h ->
  is_empty h = false
  /\ forall_chars visible h = true
  /\ forall_chars authority_char h = true
  /\ (forall rest, dropStart Url.is_slash (h ++ rest) = h ++ rest)
  /\ (forall p, Url.split_host_port false (h ++ Url.port_text p) = (h, option_map dec p))
  /\ Url.host_parse rt h = Some h.
Proof.
  intros [Hne Hc Hfix | a -> Hc Hfix].
  - split; [exact Hne|]. split; [eapply forall_chars_impl; [exact domain_char_visible|exact Hc]|].
    split; [eapply forall_chars_impl; [exact domain_char_authority|exact Hc]|].
    split; [|split; [|exact Hfix]].
    + intros rest. destruct h as [|c h]; [discriminate|].
      cbn in Hc. apply andb_true_iff in Hc as [Hc _].
      cbn [append dropStart]. now rewrite (domain_char_no_slash c Hc).
    + intros p. rewrite split_host_port_plain
        by (eapply forall_chars_impl; [exact domain_char_plain|exact Hc]).
      now rewrite split_host_port_text, append_nil_r.
  - assert (Hv : forall_chars visible a = true)
      by (eapply forall_chars_impl; [exact ipv6_char_visible|exact Hc]).
    assert (Ha : forall_chars authority_char a = true)
      by (eapply forall_chars_impl; [exact ipv6_char_authority|exact Hc]).
    assert (Hb : forall_chars not_bracket a = true)
      by (eapply forall_chars_impl; [exact ipv6_char_not_bracket|exact Hc]).
    split; [reflexivity|].
    split; [cbn [append forall_chars]; rewrite forall_chars_app, Hv; reflexivity|].
    split; [cbn [append forall_chars]; rewrite forall_chars_app, Ha; reflexivity|].
    split; [intros rest; reflexivity|]. split.
    + intros p. cbn [append Url.split_host_port].
      change (Ascii.eqb "[" ":" && negb false) with false. cbn iota.
      change (Ascii.eqb "[" "[") with true. cbn iota.
      rewrite append_assoc, split_host_port_inside by exact Hb.
      cbn [append Url.split_host_port].
      change (Ascii.eqb "]" ":" && negb true) with false. cbn iota.
      change (Ascii.eqb "]" "[") with false. change (Ascii.eqb "]" "]") with true.
      cbn iota. rewrite split_host_port_text. cbn [fst snd].
      reflexivity.
    + unfold Url.host_parse. cbn [append startsWith].
      change (Ascii.eqb "[" "[" && true) with true. cbn iota.
      unfold endsWith. change (String "[" (a ++ "]")) with ("[" ++ (a ++ "]")).
      rewrite !last_char_app. cbn [last_char]. change (Ascii.eqb "]" "]") with true.
      cbn [negb append tail]. change (a ++ "]") with (a ++ String "]" "").
      rewrite drop_last_snoc, Hfix. reflexivity.
Qed.

Lemma parse_authority_fix sch h p :
  good_host rt h -> port_ok sch p ->
  Url.parse_authority rt sch (h ++ Url.port_text p) =
  Some {| Url.scheme := sch; Url.host := h; Url.port := p |}.
Proof.
  intros Hh Hp.
  destruct (good_host_facts h Hh) as (Hne & _ & Hauth & _ & Hsplit & Hfix).
  assert (Hall : forall_chars authority_char (h ++ Url.port_text p) = true).
  { rewrite forall_chars_app, Hauth. destruct p as [n|]; [|reflexivity].
    cbn [Url.port_text append forall_chars andb].
    change (authority_char ":") with true. cbn [andb].
    eapply forall_chars_impl; [exact digit_authority|apply dec_digits]. }
  unfold Url.parse_authority.
  rewrite span_all.
  2:{ eapply forall_chars_impl; [|exact Hall].
      intros c Hc. unfold authority_char in Hc. now apply andb_true_iff in Hc as [-> _]. }
  cbn [fst]. rewrite after_last_at_none by exact Hall.
  rewrite Hsplit, Hne, Hfix.
  destruct p as [n|]; cbn [option_map]; [|reflexivity].
  destruct Hp as [Hn Hd]. now rewrite parse_port_dec.
Qed.

Lemma origin_visible sch h p :
  forall_chars visible sch = true -> good_host rt h ->
  forall_chars visible (sch ++ "://" ++ h ++ Url.port_text p) = true.
Proof.
  intros Hs Hh. destruct (good_host_facts h Hh) as (_ & Hv & _).
  rewrite !forall_chars_app, Hs, Hv. destruct p as [n|]; [|reflexivity].
  cbn [Url.port_text append forall_chars andb].
  change (visible ":") with true. change (visible "/") with true. cbn [andb].
  eapply forall_chars_impl; [exact digit_visible|apply dec_digits].
Qed.

Lemma preprocess_visible s : forall_chars visible s = true -> Url.preprocess s = s.
Proof.
  intros H. unfold Url.preprocess.
  rewrite dropStart_id, dropEnd_id, filter_chars_id; try reflexivity;
    eapply forall_chars_impl; try exact H;
    [exact visible_not_tab|exact visible_not_c0|exact visible_not_c0].
Qed.

Lemma trim_visible s : forall_chars visible s = true -> trim s = s.
Proof.
  intros H. unfold trim.
  rewrite dropStart_id, dropEnd_id; try reflexivity;
    eapply forall_chars_impl; try exact H; exact visible_not_space.
Qed.

Lemma parse_scheme_http r : Url.parse_scheme ("http://" ++ r) = Some ("http", "//" ++ r).
Proof. reflexivity. Qed.
Lemma parse_scheme_https r : Url.parse_scheme ("https://" ++ r) = Some ("https", "//" ++ r).
Proof. reflexivity. Qed.
Lemma dropStart_slashes r : dropStart Url.is_slash ("//" ++ r) = dropStart Url.is_slash r.
Proof. reflexivity. Qed.

Lemma parse_fix sch h p :
  sch = "http" \/ sch = "https" -> good_host rt h -> port_ok sch p ->
  Url.parse rt (sch ++ "://" ++ h ++ Url.port_text p) =
  Some {| Url.scheme := sch; Url.host := h; Url.port := p |}.
Proof.
  intros Hs Hh Hp. unfold Url.parse.
  rewrite preprocess_visible
    by (apply origin_visible; [destruct Hs as [-> | ->]; reflexivity|exact Hh]).
  destruct (good_host_facts h Hh) as (_ & _ & _ & Hslash & _).
  destruct Hs as [-> | ->].
  - change ("http" ++ "://" ++ h ++ Url.port_text p) with ("http://" ++ (h ++ Url.port_text p)).
    rewrite parse_scheme_http. cbv iota beta.
    change (String.eqb "http" "http" || String.eqb "http" "https") with true.
    cbv iota. rewrite dropStart_slashes, Hslash. apply parse_authority_fix; assumption.
  - change ("https" ++ "://" ++ h ++ Url.port_text p) with ("https://" ++ (h ++ Url.port_text p)).
    rewrite parse_scheme_https. cbv iota beta.
    change (String.eqb "https" "http" || String.eqb "https" "https") with true.
    cbv iota. rewrite dropStart_slashes, Hslash. apply parse_authority_fix; assumption.
Qed.

Lemma parse_shape u r :
  Url.parse rt u = Some r ->
  (Url.scheme r = "http" \/ Url.scheme r = "https")
  /\ port_ok (Url.scheme r) (Url.port r)
  /\ (exists sch rest, Url.parse_scheme (Url.preprocess u) = Some (sch, rest)
                       /\ Url.scheme r = sch)
  /\ exists buffer, Url.host_parse rt buffer = Some (Url.host r).
Proof.
  intros H. unfold Url.parse in H.
  destruct (Url.parse_scheme (Url.preprocess u)) as [[sch rest]|]; [|discriminate].
  assert (Hs : sch = "http" \/ sch = "https").
  { destruct (String.eqb_spec sch "http"); [now left|].
    destruct (String.eqb_spec sch "https"); [now right|discriminate]. }
  destruct (String.eqb sch "http" || String.eqb sch "https"); [|discriminate].
  unfold Url.parse_authority in H.
  destruct (Url.split_host_port false _) as [buffer portText].
  destruct (is_empty buffer); [discriminate|].
  destruct (Url.host_parse rt buffer) as [h|] eqn:Hh; [|discriminate].
  destruct portText as [t|].
  - destruct (Url.parse_port sch t) as [p|] eqn:Hp; [|discriminate].
    injection H as <-. cbn [Url.scheme Url.host Url.port].
    split; [exact Hs|]. split; [eapply parse_port_ok; exact Hp|].
    split; [exists sch, rest; auto|exists buffer; exact Hh].
  - injection H as <-. cbn [Url.scheme Url.host Url.port].
    split; [exact Hs|]. split; [exact I|].
    split; [exists sch, rest; auto|exists buffer; exact Hh].
Qed.

Lemma parse_sound u r :
  Url.parse rt u = Some r ->
  unicode_stable rt -> ipv6_stable rt ->
  (Url.scheme r = "http" \/ Url.scheme r = "https")
  /\ good_host rt (Url.host r) /\ port_ok (Url.scheme r) (Url.port r).
Proof.
  intros H Hu H6. destruct (parse_shape u r H) as (Hs & Hp & _ & buffer & Hh).
  split; [exact Hs|]. split; [|exact Hp].
  eapply host_parse_good; eassumption.
Qed.

Lemma has_scheme_http r : has_scheme ("http://" ++ r) = true.
Proof. reflexivity. Qed.
Lemma has_scheme_https r : has_scheme ("https://" ++ r) = true.
Proof. reflexivity. Qed.


(** *** Trimming and prefixes *)
Lemma dropStart_spec p s :
  exists a, s = a ++ dropStart p s /\ forall_chars p a = true
    /\ (forall c r, dropStart p s = String c r -> p c = false).
Proof.
  induction s as [|x s (a & Ha & Hp & Hf)]; cbn [dropStart].
  - exists "". repeat split. discriminate.
  - destruct (p x) eqn:Hx.
    + exists (String x a). cbn [append forall_chars]. rewrite <- Ha, Hx, Hp. auto.
    + exists "". repeat split. intros c r [= <- <-]. exact Hx.
Qed.

Lemma dropEnd_spec p s :
  exists b, s = dropEnd p s ++ b /\ forall_chars p b = true
    /\ (forall c, last_char (dropEnd p s) = Some c -> p c = false)
    /\ (forall c r, s = String c r -> p c = false ->
          exists r', dropEnd p s = String c r').
Proof.
  induction s as [|x s (b & Hb & Hp & Hl & _)]; cbn [dropEnd].
  - exists "". repeat split; discriminate.
  - destruct (p x && is_empty (dropEnd p s)) eqn:E.
    + apply andb_true_iff in E as [Hx He].
      exists (String x b). destruct (dropEnd p s); [|discriminate].
      cbn [append] in *. subst s. cbn [forall_chars]. rewrite Hx, Hp.
      repeat split; try discriminate. intros c r [= <- <-]. congruence.
    + exists b. cbn [append]. rewrite <- Hb. split; [reflexivity|]. split; [exact Hp|].
      split; [|intros c r [= <- <-] _; eauto].
      intros c. cbn [last_char]. destruct (dropEnd p s) eqn:Ed.
      * intros [= <-]. cbn in E. now rewrite andb_true_r in E.
      * apply Hl.
Qed.

Lemma trim_spec input :
  exists a b, input = a ++ trim input ++ b
    /\ forall_chars is_space a = true /\ forall_chars is_space b = true
    /\ (forall c r, trim input = String c r -> is_space c = false)
    /\ (forall c, last_char (trim input) = Some c -> is_space c = false).
Proof.
  unfold trim.
  destruct (dropStart_spec is_space input) as (a & Ha & Hpa & Hfirst).
  destruct (dropEnd_spec is_space (dropStart is_space input)) as (b & Hb & Hpb & Hlast & Hkeep).
  exists a, b. split; [rewrite <- Hb; exact Ha|]. split; [exact Hpa|].
  split; [exact Hpb|]. split; [|exact Hlast].
  intros c r Hc. destruct (dropStart is_space input) as [|x s] eqn:Es; [discriminate|].
  destruct (Hkeep x s eq_refl (Hfirst x s eq_refl)) as [r' Hr'].
  rewrite Hr' in Hc. injection Hc as <- _. apply (Hfirst x s eq_refl).
Qed.

Lemma startsWith_lower q t :
  startsWith q (ascii_lower t) = true <->
  exists p r, t = p ++ r /\ ascii_lower p = q.
Proof.
  revert t. induction q as [|x q IH]; intros t; cbn [startsWith].
  - split; [intros _; exists "", t; auto|reflexivity].
  - destruct t as [|c t]; cbn [ascii_lower map_chars].
    + split; [discriminate|]. intros (p & r & Ht & Hp).
      destruct p; [discriminate|discriminate].
    + fold (ascii_lower t). rewrite andb_true_iff, Ascii.eqb_eq, IH. split.
      * intros [-> (p & r & -> & <-)]. exists (String c p), r. auto.
      * intros (p & r & Ht & Hp). destruct p as [|c' p]; [discriminate|].
        cbn in Ht, Hp. injection Ht as <- ->. injection Hp as <- <-.
        split; [reflexivity|]. exists p, r. auto.
Qed.

Lemma has_scheme_spec t :
  has_scheme t = true <->
  exists p r, t = p ++ r /\ (ascii_lower p = "http://" \/ ascii_lower p = "https://").
Proof.
  unfold has_scheme. rewrite orb_true_iff, !startsWith_lower. split.
  - intros [(p & r & H1 & H2)|(p & r & H1 & H2)]; exists p, r; auto.
  - intros (p & r & H1 & [H2|H2]); [left|right]; exists p, r; auto.
Qed.

Lemma dropEnd_keep p a c r :
  forall_chars (fun x => negb (p x)) a = true -> p c = false ->
  dropEnd p (a ++ String c r) = a ++ String c (dropEnd p r).
Proof.
  intros Ha Hc. induction a as [|x a IH]; cbn [append dropEnd].
  - now rewrite Hc.
  - cbn in Ha. apply andb_true_iff in Ha as [Hx Ha]. apply negb_true_iff in Hx.
    now rewrite Hx, (IH Ha).
Qed.

Lemma dropStart_keep p a c r :
  forall_chars (fun x => negb (p x)) a = true -> p c = false ->
  dropStart p (a ++ String c r) = a ++ String c r.
Proof.
  intros Ha Hc. destruct a as [|x a]; cbn [append dropStart]; [now rewrite Hc|].
  cbn in Ha. apply andb_true_iff in Ha as [Hx _]. apply negb_true_iff in Hx.
  now rewrite Hx.
Qed.

Lemma filter_chars_app p a b :
  filter_chars p (a ++ b) = filter_chars p a ++ filter_chars p b.
Proof.
  induction a as [|x a IH]; cbn [append filter_chars]; [reflexivity|].
  destruct (p x); cbn [append]; now rewrite IH.
Qed.

Lemma preprocess_prefix a c r :
  forall_chars visible a = true -> visible c = true ->
  exists r', Url.preprocess (a ++ String c r) = a ++ String c r'.
Proof.
  intros Ha Hc. unfold Url.preprocess.
  assert (Ha0 : forall_chars (fun x => negb (Url.is_c0_or_space x)) a = true)
    by (eapply forall_chars_impl; [exact visible_not_c0|exact Ha]).
  assert (Hc0 : Url.is_c0_or_space c = false)
    by (apply negb_true_iff, visible_not_c0, Hc).
  rewrite dropStart_keep, dropEnd_keep by assumption.
  rewrite filter_chars_app. cbn [filter_chars].
  rewrite (visible_not_tab c Hc).
  rewrite filter_chars_id
    by (eapply forall_chars_impl; [exact visible_not_tab|exact Ha]).
  eexists. reflexivity.
Qed.

Lemma trim_prefix a c r :
  forall_chars visible a = true -> visible c = true ->
  trim (a ++ String c r) = a ++ String c (dropEnd is_space r).
Proof.
  intros Ha Hc. unfold trim.
  assert (Ha0 : forall_chars (fun x => negb (is_space x)) a = true)
    by (eapply forall_chars_impl; [exact visible_not_space|exact Ha]).
  assert (Hc0 : is_space c = false) by (apply negb_true_iff, visible_not_space, Hc).
  now rewrite dropStart_keep, dropEnd_keep.
Qed.

Lemma parse_prepended t r :
  Url.parse rt ("https://" ++ t) = Some r -> Url.scheme r = "https".
Proof.
  intros H. destruct (parse_shape _ r H) as (_ & _ & (sch & rest & Hs & ->) & _).
  destruct (preprocess_prefix "https:/" "/" t eq_refl eq_refl) as [r' Hr'].
  change ("https:/" ++ String "/" t) with ("https://" ++ t) in Hr'.
  rewrite Hr' in Hs. change ("https:/" ++ String "/" r') with ("https://" ++ r') in Hs.
  rewrite parse_scheme_https in Hs. congruence.
Qed.

Lemma span_prefix p a c r :
  forall_chars p a = true -> p c = false -> span p (a ++ String c r) = (a, String c r).
Proof.
  intros Ha Hc. induction a as [|x a IH]; cbn [append span]; [now rewrite Hc|].
  cbn in Ha. apply andb_true_iff in Ha as [Hx Ha]. now rewrite Hx, (IH Ha).
Qed.

Lemma parse_authority_path sch auth c rest :
  forall_chars (fun x => negb (Url.is_authority_end x)) auth = true ->
  Url.is_authority_end c = true ->
  Url.parse_authority rt sch (auth ++ String c rest) = Url.parse_authority rt sch auth.
Proof.
  intros Ha Hc. unfold Url.parse_authority.
  rewrite span_prefix, span_all; [reflexivity|exact Ha|exact Ha|now rewrite Hc].
Qed.

Lemma authority_end_visible c : Url.is_authority_end c = true -> visible c = true.
Proof. char_fact c. Qed.
Lemma not_authority_end_slash c :
  negb (Url.is_authority_end c) = true -> Url.is_slash c = false.
Proof. char_fact c. Qed.

Lemma normalizeUrl_path_discarded sch auth c rest :
  sch = "http" \/ sch = "https" ->
  is_empty auth = false ->
  forall_chars visible auth = true ->
  forall_chars (fun x => negb (Url.is_authority_end x)) auth = true ->
  Url.is_authority_end c = true ->
  normalizeUrl rt (sch ++ "://" ++ auth ++ String c rest) =
  normalizeUrl rt (sch ++ "://" ++ auth).
Proof.
  intros Hs Hne Hv Ha Hc.
  assert (Hcv : visible c = true) by (apply authority_end_visible, Hc).
  assert (Hslash : forall r, dropStart Url.is_slash (auth ++ r) = auth ++ r).
  { intros r. destruct auth as [|x auth]; [discriminate|].
    cbn in Ha. apply andb_true_iff in Ha as [Hx _].
    cbn [append dropStart]. now rewrite (not_authority_end_slash x Hx). }
  assert (Hpre : forall_chars visible (sch ++ "://" ++ auth) = true).
  { rewrite !forall_chars_app, Hv. destruct Hs as [-> | ->]; reflexivity. }
  assert (Hsch : forall r, has_scheme (sch ++ "://" ++ r) = true)
    by (intros r; destruct Hs as [-> | ->]; reflexivity).
  assert (Hps : forall r, Url.parse_scheme (sch ++ "://" ++ r) = Some (sch, "//" ++ r))
    by (intros r; destruct Hs as [-> | ->]; reflexivity).
  assert (Heq : String.eqb sch "http" || String.eqb sch "https" = true)
    by (destruct Hs as [-> | ->]; reflexivity).
  unfold normalizeUrl.
  replace (sch ++ "://" ++ auth ++ String c rest)
    with ((sch ++ "://" ++ auth) ++ String c rest) by now rewrite !append_assoc.
  rewrite trim_prefix, trim_visible by assumption.
  replace (has_scheme ((sch ++ "://" ++ auth) ++ String c (dropEnd is_space rest)))
    with true by (rewrite !append_assoc; symmetry; apply Hsch).
  rewrite (Hsch auth).
  unfold Url.parse.
  destruct (preprocess_prefix (sch ++ "://" ++ auth) c (dropEnd is_space rest) Hpre Hcv)
    as [r' ->].
  rewrite preprocess_visible by exact Hpre.
  rewrite !append_assoc, !Hps. rewrite Heq.
  assert (Hslash0 : dropStart Url.is_slash auth = auth)
    by (rewrite <- (append_nil_r auth) at 1; rewrite Hslash; apply append_nil_r).
  rewrite !dropStart_slashes, Hslash, Hslash0.
  now rewrite parse_authority_path.
Qed.

Lemma lower_visible c : visible (ascii_lower_char c) = true -> visible c = true.
Proof. char_fact c. Qed.
Lemma lower_alpha c : Url.is_alpha (ascii_lower_char c) = true -> Url.is_alpha c = true.
Proof. char_fact c. Qed.
Lemma lower_fixed c : Url.is_alpha (ascii_lower_char c) = false -> ascii_lower_char c = c.
Proof. char_fact c. Qed.
Lemma alpha_scheme_char c : Url.is_alpha c = true -> Url.is_scheme_char c = true.
Proof. char_fact c. Qed.

Lemma ascii_lower_visible s :
  forall_chars visible (ascii_lower s) = true -> forall_chars visible s = true.
Proof.
  unfold ascii_lower. induction s as [|c s IH]; cbn; [reflexivity|].
  rewrite !andb_true_iff. intros [Hc Hs]. split; [apply lower_visible, Hc|auto].
Qed.

(* A letter, then a punctuation character, of a scheme prefix in any case. *)
Ltac scheme_letter H :=
  match type of H with
  | ascii_lower_char ?c = ?l =>
      let Ha := fresh "Ha" in
      assert (Ha : Url.is_alpha c = true) by (apply lower_alpha; rewrite H; reflexivity);
      rewrite ?Ha, ?(alpha_scheme_char c Ha)
  end.

Ltac scheme_punct H :=
  match type of H with
  | ascii_lower_char ?c = ?l =>
      rewrite (lower_fixed c) in H by (rewrite H; reflexivity); subst c
  end.

Lemma parse_scheme_prefix p r :
  (ascii_lower p = "http://" -> exists r',
     Url.parse_scheme (Url.preprocess (p ++ r)) = Some ("http", "//" ++ r'))
  /\ (ascii_lower p = "https://" -> exists r',
     Url.parse_scheme (Url.preprocess (p ++ r)) = Some ("https", "//" ++ r')).
Proof.
  split; intros Hp.
  - assert (Hv : forall_chars visible p = true)
      by (apply ascii_lower_visible; rewrite Hp; reflexivity).
    destruct p as [|c1 [|c2 [|c3 [|c4 [|c5 [|c6 [|c7 [|c8 p]]]]]]]]; try discriminate.
    cbn in Hp. injection Hp as H1 H2 H3 H4 H5 H6 H7.
    scheme_punct H5. scheme_punct H6. scheme_punct H7.
    change (String c1 (String c2 (String c3 (String c4 (String ":" (String "/" (String "/" ""))))))
            ++ r)
      with (String c1 (String c2 (String c3 (String c4 (String ":" (String "/" ""))))) ++ String "/" r).
    destruct (preprocess_prefix
                (String c1 (String c2 (String c3 (String c4 (String ":" (String "/" ""))))))
                "/" r) as [r' ->].
    { cbn in Hv. rewrite !andb_true_iff in Hv. cbn. rewrite !andb_true_iff. tauto. }
    { reflexivity. }
    exists r'. cbn [append Url.parse_scheme span].
    scheme_letter H1. scheme_letter H2. scheme_letter H3. scheme_letter H4.
    change (Url.is_scheme_char ":") with false. cbv iota beta.
    change (Ascii.eqb ":" ":") with true. cbv iota.
    cbn [ascii_lower map_chars]. now rewrite H1, H2, H3, H4.
  - assert (Hv : forall_chars visible p = true)
      by (apply ascii_lower_visible; rewrite Hp; reflexivity).
    destruct p as [|c1 [|c2 [|c3 [|c4 [|c5 [|c6 [|c7 [|c8 [|c9 p]]]]]]]]]; try discriminate.
    cbn in Hp. injection Hp as H1 H2 H3 H4 H5 H6 H7 H8.
    scheme_punct H6. scheme_punct H7. scheme_punct H8.
    change (String c1 (String c2 (String c3 (String c4 (String c5
              (String ":" (String "/" (String "/" ""))))))) ++ r)
      with (String c1 (String c2 (String c3 (String c4 (String c5
              (String ":" (String "/" "")))))) ++ String "/" r).
    destruct (preprocess_prefix
                (String c1 (String c2 (String c3 (String c4 (String c5
                   (String ":" (String "/" "")))))))
                "/" r) as [r' ->].
    { cbn in Hv. rewrite !andb_true_iff in Hv. cbn. rewrite !andb_true_iff. tauto. }
    { reflexivity. }
    exists r'. cbn [append Url.parse_scheme span].
    scheme_letter H1. scheme_letter H2. scheme_letter H3. scheme_letter H4.
    scheme_letter H5.
    change (Url.is_scheme_char ":") with false. cbv iota beta.
    change (Ascii.eqb ":" ":") with true. cbv iota.
    cbn [ascii_lower map_chars]. now rewrite H1, H2, H3, H4, H5.
Qed.

(** The argument [normalizeUrl] passes to the URL parser begins with
    [http://] or [https://], and the parser finds that scheme in it. *)
Lemma normalizeUrl_argument_has_scheme input :
  let t := trim input in
  let u := if has_scheme t then t else "https://" ++ t in
  has_scheme u = true
  /\ exists sch rest,
       Url.parse_scheme (Url.preprocess u) = Some (sch, rest)
       /\ (sch = "http" \/ sch = "https").
Proof.
  intros t u.
  assert (Hu : has_scheme u = true)
    by (unfold u; destruct (has_scheme t) eqn:E; [exact E|reflexivity]).
  split; [exact Hu|].
  apply has_scheme_spec in Hu as (p & r & -> & [Hp|Hp]).
  - destruct (proj1 (parse_scheme_prefix p r) Hp) as [r' Hr']. eauto.
  - destruct (proj2 (parse_scheme_prefix p r) Hp) as [r' Hr']. eauto.
Qed.

Lemma parse_keeps_scheme p r u :
  Url.parse rt (p ++ r) = Some u ->
  (ascii_lower p = "http://" -> Url.scheme u = "http")
  /\ (ascii_lower p = "https://" -> Url.scheme u = "https").
Proof.
  intros H. destruct (parse_shape _ u H) as (_ & _ & (sch & rest & Hs & ->) & _).
  split; intros Hp.
  - destruct (proj1 (parse_scheme_prefix p r) Hp) as [r' Hr']. congruence.
  - destruct (proj2 (parse_scheme_prefix p r) Hp) as [r' Hr']. congruence.
Qed.


End OriginFacts.

(* ------------------------------------------------------------------ *)
(** ** The validator and the Checker *)

Section AjvFacts.
Variable rt : Runtime.
Import Ajv.

Lemma validate_at_object req addl ps path ms :
  validate_at rt (SObject req addl ps) path (JObj ms) =
  (flat_map (fun k => match assoc k ms with
                      | Some _ => []
                      | None => [err path ("must have required property '" ++ k ++ "'")]
                      end) req ++
   (if addl then []
    else flat_map (fun m => if existsb (String.eqb (fst m)) (map fst ps) then []
                            else [err path "must NOT have additional properties"]) ms) ++
   props_errors rt ms path ps)%list.
Proof.
  cbn [validate_at]. do 2 f_equal.
  induction ps as [|[k sk] ps IH]; [reflexivity|].
  cbn [props_errors flat_map fst snd]. f_equal. exact IH.
Qed.

Lemma validate_at_array mi items path xs :
  validate_at rt (SArray mi items) path (JArr xs) =
  (match mi with
   | Some n => if (N.of_nat (List.length xs) <? n)%N
               then [err path ("must NOT have fewer than " ++ dec n ++ " items")]
               else []
   | None => []
   end ++ items_errors rt items path 0 xs)%list.
Proof.
  cbn [validate_at]. f_equal.
  generalize 0%N. induction xs as [|x xs IH]; intro i; [reflexivity|].
  cbn [items_errors]. f_equal. apply IH.
Qed.

Lemma object_valid_inv req addl ps path data :
  validate_at rt (SObject req addl ps) path data = [] ->
  exists ms, data = JObj ms
    /\ (forall k, In k req -> assoc k ms <> None)
    /\ (forall k sk v, In (k, sk) ps -> assoc k ms = Some v ->
          validate_at rt sk (path ++ "/" ++ k) v = []).
Proof.
  destruct data; try discriminate.
  rewrite validate_at_object. intros H.
  apply app_eq_nil in H as [Hreq H]. apply app_eq_nil in H as [_ Hps].
  exists members. split; [reflexivity|]. split.
  - intros k Hk Hnone.
    induction req as [|r req IH]; [contradiction|].
    cbn [flat_map] in Hreq. apply app_eq_nil in Hreq as [H1 H2].
    destruct Hk as [->|Hk]; [rewrite Hnone in H1; discriminate | auto].
  - intros k sk v Hin Hv. unfold props_errors in Hps.
    induction ps as [|p ps IH]; [contradiction|].
    cbn [flat_map] in Hps. apply app_eq_nil in Hps as [H1 H2].
    destruct Hin as [->|Hin]; [cbn [fst snd] in H1; rewrite Hv in H1; exact H1 | auto].
Qed.

Lemma items_valid_inv items path xs : forall i,
  items_errors rt items path i xs = [] ->
  Forall (fun x => exists p, validate_at rt items p x = []) xs.
Proof.
  induction xs as [|x xs IH]; intros i H; [constructor|].
  cbn [items_errors] in H. apply app_eq_nil in H as [H1 H2].
  constructor; [eexists; exact H1 | eapply IH; exact H2].
Qed.

Lemma array_valid_inv mi items path data :
  validate_at rt (SArray mi items) path data = [] ->
  exists xs, data = JArr xs
    /\ (forall n, mi = Some n -> (n <= N.of_nat (List.length xs))%N)
    /\ Forall (fun x => exists p, validate_at rt items p x = []) xs.
Proof.
  destruct data; try discriminate.
  rewrite validate_at_array. intros H. apply app_eq_nil in H as [Hmin Hitems].
  exists items0. split; [reflexivity|]. split.
  - intros n ->. destruct (N.ltb_spec (N.of_nat (List.length items0)) n); [discriminate|assumption].
  - eapply items_valid_inv; exact Hitems.
Qed.

Lemma enum_valid_inv allowed path data :
  validate_at rt (SString (Some allowed) None None None) path data = [] ->
  exists v, data = JStr v /\ In v allowed.
Proof.
  destruct data; try discriminate. cbn. intros H.
  exists s. split; [reflexivity|].
  destruct (existsb (String.eqb s) allowed) eqn:E; [|discriminate].
  apply existsb_exists in E as (x & Hx & Heq). apply String.eqb_eq in Heq. subst. exact Hx.
Qed.

Lemma pattern_valid_inv p path data :
  validate_at rt (SString None None (Some p) None) path data = [] ->
  exists v, data = JStr v /\ test p v = true.
Proof.
  destruct data; try discriminate. cbn. intros H.
  exists s. split; [reflexivity|]. destruct (test p s); [reflexivity|discriminate].
Qed.

Lemma valid_manifest_shape doc :
  validate rt doc = true ->
  exists ms tools,
    doc = JObj ms
    /\ assoc "manifest_version" ms = Some (JStr "0.1")
    /\ assoc "tools" ms = Some (JArr tools)
    /\ 1 <= List.length tools
    /\ Forall (fun t => exists n, tool_name t = Some n /\ test name_pattern n = true) tools.
Proof.
  unfold validate, errors.
  destruct (validate_at rt webmcpSchema "" doc) eqn:E; [intros _|discriminate].
  unfold webmcpSchema in E.
  apply object_valid_inv in E as (ms & -> & Hreq & Hps).
  destruct (assoc "manifest_version" ms) as [mv|] eqn:Emv;
    [|exfalso; apply (Hreq "manifest_version"); [left; reflexivity|exact Emv]].
  destruct (assoc "tools" ms) as [ts|] eqn:Ets;
    [|exfalso; apply (Hreq "tools"); [do 3 right; left; reflexivity|exact Ets]].
  pose proof (Hps _ _ _ (or_introl eq_refl) Emv) as Hmv.
  apply enum_valid_inv in Hmv as (v & -> & [<-|[]]).
  pose proof (Hps _ _ _ (or_intror (or_intror (or_intror (or_introl eq_refl)))) Ets) as Hts.
  apply array_valid_inv in Hts as (tools & -> & Hmin & Hall).
  exists ms, tools. split; [reflexivity|]. split; [exact Emv|].
  split; [exact Ets|]. split.
  - specialize (Hmin _ eq_refl). lia.
  - clear -Hall. induction Hall as [|t ts [p Ht] _ IH]; constructor; [|exact IH].
    apply object_valid_inv in Ht as (tm & -> & Hr & Hp).
    unfold tool_name, get.
    destruct (assoc "name" tm) as [nm|] eqn:En;
      [|exfalso; apply (Hr "name"); [left; reflexivity|exact En]].
    pose proof (Hp _ _ _ (or_introl eq_refl) En) as Hn.
    apply pattern_valid_inv in Hn as (n & -> & Hn). exists n. split; [reflexivity|exact Hn].
Qed.

End AjvFacts.

Section CheckerFacts.
Variable rt : Runtime.

Lemma map_option_Forall {A B} (f : A -> option B) (P : B -> Prop) xs :
  Forall (fun x => exists y, f x = Some y /\ P y) xs ->
  exists ys, map_option f xs = Some ys /\ Forall P ys
             /\ map f xs = map Some ys.
Proof.
  induction 1 as [|x xs (y & Hy & HP) _ (ys & Hys & HPs & Hm)].
  - exists []. repeat split; constructor.
  - exists (y :: ys). cbn [map_option map]. rewrite Hy, Hys, Hm.
    repeat split. constructor; assumption.
Qed.

Lemma valid_manifest_view doc :
  Ajv.validate rt doc = true ->
  exists tools names,
    get doc "manifest_version" = Some (JStr "0.1")
    /\ get doc "tools" = Some (JArr tools)
    /\ map_option tool_name tools = Some names
    /\ map tool_name tools = map Some names
    /\ 1 <= List.length tools.
Proof.
  intros H. apply valid_manifest_shape in H as (ms & tools & -> & Hmv & Hts & Hlen & Hall).
  apply map_option_Forall in Hall as (names & Hn & _ & Hm).
  exists tools, names. cbn [get]. auto.
Qed.


Lemma checkUrl_outcome input :
  exists r, checkUrl rt input = Some r
    /\ (valid r = true -> detected r = true)
    /\ (valid r = false -> version r = "" /\ toolCount r = 0 /\ toolNames r = "")
    /\ (valid r = true -> error r = "").
Proof.
  unfold checkUrl.
  destruct (normalizeUrl rt input) as [origin|];
    [|eexists; split; [reflexivity|cbn; repeat split; auto; discriminate]].
  destruct (fetch rt _) as [e|status body];
    [eexists; split; [reflexivity|cbn; repeat split; auto; discriminate]|].
  destruct (ok status); cbn [negb];
    [|eexists; split; [reflexivity|cbn; repeat split; auto; discriminate]].
  destruct body as [doc|];
    [|eexists; split; [reflexivity|cbn; repeat split; auto; discriminate]].
  destruct (Ajv.validate rt doc) eqn:Hv; cbn [negb];
    [|eexists; split; [reflexivity|cbn; repeat split; auto; discriminate]].
  destruct (valid_manifest_view _ Hv) as (tools & names & Hmv & Hts & Hnames & _).
  rewrite Hmv, Hts, Hnames.
  eexists; split; [reflexivity|cbn; repeat split; auto; discriminate].
Qed.

(** C2.  For every input and every behaviour of the network and of the
    validator, [checkUrl] produces an outcome, and in it [valid]
    implies [detected], [version], [toolCount] and [toolNames] are
    empty, zero and empty unless [valid], and [error] is empty when
    [valid]. *)
Theorem checkUrl_invariants input :
  exists r, checkUrl rt input = Some r
    /\ (valid r = true -> detected r = true)
    /\ (valid r = false -> version r = "" /\ toolCount r = 0 /\ toolNames r = "")
    /\ (valid r = true -> error r = "").
Proof. exact (checkUrl_outcome input). Qed.

(** C3.  When normalization of the input fails, [checkUrl] returns the
    outcome with [detected = false], [valid = false], the error
    [Invalid URL] and the raw input as [url]; nothing is thrown.
    Normalization fails on the empty string and on [http://]. *)
Theorem checkUrl_invalid_url input :
  normalizeUrl rt input = None ->
  checkUrl rt input =
    Some {| url := input; detected := false; valid := false; version := "";
            toolCount := 0; toolNames := ""; error := "Invalid URL" |}
  /\ normalizeUrl rt "" = None
  /\ normalizeUrl rt "http://" = None.
Proof.
  intros H. split; [|split; reflexivity].
  unfold checkUrl. rewrite H. reflexivity.
Qed.

(** C4.  After a successful normalization, a response whose status is
    not in 200..299 gives the outcome with [detected = false],
    [valid = false] and the error [HTTP] followed by the status in
    decimal, whatever the body is ([HTTP 404] for a 404); a response
    with a status in 200..299 whose body is not JSON gives the same
    outcome with the error [Invalid JSON]. *)
Theorem checkUrl_http_and_parse_errors input origin status body :
  normalizeUrl rt input = Some origin ->
  fetch rt (origin ++ "/.well-known/webmcp.json") = Responded status body ->
  ((status < 200 \/ 299 < status)%N ->
     checkUrl rt input =
     Some {| url := origin; detected := false; valid := false; version := "";
             toolCount := 0; toolNames := ""; error := "HTTP " ++ dec status |})
  /\ ((200 <= status <= 299)%N -> body = None ->
     checkUrl rt input =
     Some {| url := origin; detected := false; valid := false; version := "";
             toolCount := 0; toolNames := ""; error := "Invalid JSON" |})
  /\ "HTTP " ++ dec 404 = "HTTP 404".
Proof.
  intros Hn Hf. unfold checkUrl. rewrite Hn, Hf. split; [|split; [|reflexivity]].
  - intros Hs. replace (ok status) with false; [reflexivity|].
    unfold ok. symmetry. apply andb_false_iff.
    destruct Hs; [left; apply N.leb_gt|right; apply N.leb_gt]; assumption.
  - intros [H1 H2] ->. replace (ok status) with true; [reflexivity|].
    unfold ok. symmetry. apply andb_true_iff. split; apply N.leb_le; assumption.
Qed.


End CheckerFacts.

(* ------------------------------------------------------------------ *)
(** ** The batch loop *)

Section BatchFacts.
Variable rt : Runtime.

Lemma count_valid_snoc rs r :
  count_valid (rs ++ [r]) = count_valid rs + (if valid r then 1 else 0).
Proof.
  unfold count_valid. rewrite filter_app, length_app. cbn [filter].
  destruct (valid r); reflexivity.
Qed.

Lemma batch_loop_from urls : forall st,
  detectedCount st = count_valid (results st) ->
  exists st', batch_loop rt urls st = Some st'
    /\ map Some (results st') = (map Some (results st) ++ map (checkUrl rt) urls)%list
    /\ detectedCount st' = count_valid (results st').
Proof.
  induction urls as [|u urls IH]; intros st Hst.
  - exists st. cbn [batch_loop map]. rewrite app_nil_r. auto.
  - destruct (checkUrl_outcome rt u) as (r & Hr & Hvd & _).
    cbn [batch_loop map]. rewrite Hr.
    destruct (IH (batch_step st r)) as (st' & Hloop & Hres & Hcount).
    + cbn [batch_step results detectedCount]. rewrite count_valid_snoc, Hst.
      destruct (valid r) eqn:Hv.
      * rewrite (Hvd eq_refl). cbn [andb]. lia.
      * rewrite andb_false_r. lia.
    + exists st'. split; [exact Hloop|]. split; [|exact Hcount].
      rewrite Hres. cbn [batch_step results]. rewrite map_app, <- app_assoc. reflexivity.
Qed.

Lemma map_Some_inj {A} (xs ys : list A) : map Some xs = map Some ys -> xs = ys.
Proof.
  revert ys. induction xs as [|x xs IH]; intros [|y ys]; try discriminate;
    [reflexivity|].
  cbn [map]. intros [= -> H]. f_equal. apply IH, H.
Qed.

(** C7.  For every list of inputs, the loop of [runBatch] ends with as
    many outcomes as inputs, the i-th outcome being the result of
    [checkUrl] on the i-th input; the outcomes of any initial part of
    the inputs are the initial part of the outcomes (each turn appends
    one outcome and depends on no other); and the count the loop keeps
    is the number of outcomes with [valid = true]. *)
Theorem batch_loop_outcomes urls :
  exists st, batch_loop rt urls batch_start = Some st
    /\ List.length (results st) = List.length urls
    /\ (forall i u, nth_error urls i = Some u ->
          exists r, nth_error (results st) i = Some r /\ checkUrl rt u = Some r)
    /\ map Some (results st) = map (checkUrl rt) urls
    /\ (forall k, exists stk,
          batch_loop rt (firstn k urls) batch_start = Some stk
          /\ results stk = firstn k (results st))
    /\ detectedCount st = List.length (filter valid (results st)).
Proof.
  destruct (batch_loop_from urls batch_start eq_refl) as (st & Hloop & Hres & Hcount).
  cbn [batch_start results map app] in Hres.
  exists st. split; [exact Hloop|].
  split; [|split; [|split; [exact Hres|split; [|exact Hcount]]]].
  - rewrite <- (length_map Some), Hres. apply length_map.
  - intros i u Hi.
    pose proof (map_nth_error (checkUrl rt) i urls Hi) as H.
    rewrite <- Hres in H. rewrite nth_error_map in H.
    destruct (nth_error (results st) i) as [r|]; [|discriminate].
    exists r. split; [reflexivity|]. cbn in H. congruence.
  - intros k.
    destruct (batch_loop_from (firstn k urls) batch_start eq_refl)
      as (stk & Hk & Hresk & _).
    cbn [batch_start results map app] in Hresk.
    exists stk. split; [exact Hk|]. apply map_Some_inj.
    rewrite Hresk, <- firstn_map, <- Hres, firstn_map. reflexivity.
Qed.

End BatchFacts.

(* ------------------------------------------------------------------ *)
(** ** CSV *)

Lemma includes_In c s :
  includes c s = true <-> In c (list_ascii_of_string s).
Proof.
  induction s as [|d s IH]; cbn; [split; [discriminate|contradiction]|].
  rewrite orb_true_iff, IH, Ascii.eqb_eq. reflexivity.
Qed.

Lemma last_char_In s c : last_char s = Some c -> In c (list_ascii_of_string s).
Proof.
  induction s as [|d s IH]; [discriminate|].
  cbn [last_char]. destruct s; [intros [= ->]; left; reflexivity|].
  intros H. right. apply IH, H.
Qed.

Lemma escapeCsvField_quoted v :
  needs_quotes v -> escapeCsvField v = String DQ (double_quotes v) ++ String DQ "".
Proof.
  unfold needs_quotes, escapeCsvField. rewrite <- !includes_In. intros H.
  replace (includes "," v || includes DQ v || includes LF v) with true; [reflexivity|].
  symmetry. rewrite !orb_true_iff. tauto.
Qed.

Lemma escapeCsvField_plain v : ~ needs_quotes v -> escapeCsvField v = v.
Proof.
  unfold needs_quotes, escapeCsvField. rewrite <- !includes_In. intros H.
  destruct (includes "," v || includes DQ v || includes LF v) eqn:E; [|reflexivity].
  exfalso. apply H. rewrite !orb_true_iff in E. tauto.
Qed.

Lemma double_quotes_chars v :
  list_ascii_of_string (double_quotes v) =
  flat_map (fun c => if Ascii.eqb c DQ then [DQ; DQ] else [c]) (list_ascii_of_string v).
Proof.
  induction v as [|c v IH]; [reflexivity|].
  cbn [double_quotes list_ascii_of_string flat_map].
  destruct (Ascii.eqb c DQ); cbn; now rewrite IH.
Qed.

Lemma escapeCsvField_last v : last_char (escapeCsvField v) <> Some LF.
Proof.
  unfold escapeCsvField.
  destruct (includes "," v || includes DQ v || includes LF v) eqn:E.
  - change (String DQ (double_quotes v) ++ String DQ "")
      with (String DQ (double_quotes v ++ String DQ "")).
    change (String DQ (double_quotes v ++ String DQ ""))
      with (String DQ "" ++ (double_quotes v ++ String DQ "")).
    rewrite !last_char_app. cbn. discriminate.
  - intros H. apply last_char_In, includes_In in H.
    rewrite !orb_false_iff in E. destruct E as [_ E]. congruence.
Qed.

Lemma csv_row_eq r :
  csv_row r =
  escapeCsvField (url r) ++ "," ++ of_bool (detected r) ++ "," ++
  of_bool (valid r) ++ "," ++ escapeCsvField (version r) ++ "," ++
  dec (N.of_nat (toolCount r)) ++ "," ++ escapeCsvField (toolNames r) ++ "," ++
  escapeCsvField (error r).
Proof. reflexivity. Qed.

Lemma csv_row_last r : last_char (csv_row r) <> Some LF.
Proof.
  rewrite csv_row_eq. rewrite !last_char_app.
  destruct (last_char (escapeCsvField (error r))) eqn:E.
  - rewrite <- E. apply escapeCsvField_last.
  - cbn. discriminate.
Qed.

Lemma csv_row_nonempty r : last_char (csv_row r) <> None.
Proof.
  rewrite csv_row_eq. rewrite !last_char_app.
  destruct (last_char (escapeCsvField (error r))); cbn; discriminate.
Qed.

Lemma join_cons sep x y l : join sep (x :: y :: l) = x ++ sep ++ join sep (y :: l).
Proof. reflexivity. Qed.

Lemma join_lines_last (P : string -> Prop) x xs :
  (forall y, In y (x :: xs) -> last_char y <> None /\ last_char y <> Some LF) ->
  last_char (join nl (x :: xs)) <> None /\ last_char (join nl (x :: xs)) <> Some LF.
Proof.
  revert x. induction xs as [|y ys IH]; intros x H.
  - cbn [join concat]. apply H. left. reflexivity.
  - rewrite join_cons, !last_char_app.
    destruct (IH y) as [H1 H2]; [intros z Hz; apply H; right; exact Hz|].
    destruct (last_char (join nl (y :: ys))); [auto|contradiction].
Qed.

Lemma concat_empty_cons x l : String.concat "" (x :: l) = x ++ String.concat "" l.
Proof. destruct l; cbn [concat]; [now rewrite append_nil_r|reflexivity]. Qed.

Lemma join_lines_flat x xs :
  join nl (x :: xs) ++ nl = x ++ nl ++ String.concat "" (map (fun y => y ++ nl) xs).
Proof.
  revert x. induction xs as [|y ys IH]; intros x.
  - cbn [join concat map]. reflexivity.
  - rewrite join_cons, !append_assoc, IH. cbn [map].
    rewrite concat_empty_cons, !append_assoc. reflexivity.
Qed.

Lemma forall_chars_In p s c :
  forall_chars p s = true -> In c (list_ascii_of_string s) -> p c = true.
Proof.
  induction s as [|d s IH]; cbn; [contradiction|].
  rewrite andb_true_iff. intros [Hd Hs] [<-|Hc]; auto.
Qed.

Lemma of_bool_plain b : ~ needs_quotes (of_bool b).
Proof.
  unfold needs_quotes. destruct b; cbn; intros H;
    repeat (destruct H as [H|H]); discriminate || contradiction.
Qed.

Lemma dec_plain n : ~ needs_quotes (dec n).
Proof.
  intros [H|[H|H]]; apply (forall_chars_In _ _ _ (dec_digits n)) in H; discriminate.
Qed.

(** C8.  The text [resultsToCsv] produces is the header line
    [url,detected,valid,version,tool_count,tool_names,error] and one
    line per outcome, each line ended by a line feed; a line has the
    seven fields in the order of the header, separated by commas; a
    field that contains a comma, a double quote or a line feed is put
    between double quotes with every double quote in it doubled, any
    other field is written as it is; booleans are written [true] and
    [false], and neither they nor the tool count ever need quotes; and
    the text ends with exactly one line feed. *)
Theorem resultsToCsv_format results :
  csv_header = "url,detected,valid,version,tool_count,tool_names,error"
  /\ resultsToCsv results =
     csv_header ++ nl ++ String.concat "" (map (fun r => csv_row r ++ nl) results)
  /\ (forall r,
        csv_row r =
        escapeCsvField (url r) ++ "," ++ of_bool (detected r) ++ "," ++
        of_bool (valid r) ++ "," ++ escapeCsvField (version r) ++ "," ++
        dec (N.of_nat (toolCount r)) ++ "," ++ escapeCsvField (toolNames r) ++ "," ++
        escapeCsvField (error r))
  /\ (forall v, needs_quotes v ->
        escapeCsvField v = String DQ (double_quotes v) ++ String DQ ""
        /\ list_ascii_of_string (double_quotes v) =
           flat_map (fun c => if Ascii.eqb c DQ then [DQ; DQ] else [c])
             (list_ascii_of_string v))
  /\ (forall v, ~ needs_quotes v -> escapeCsvField v = v)
  /\ (of_bool true = "true" /\ of_bool false = "false")
  /\ (forall b n, ~ needs_quotes (of_bool b) /\ ~ needs_quotes (dec n))
  /\ (exists body, resultsToCsv results = body ++ nl /\ last_char body <> Some LF).
Proof.
  split; [reflexivity|]. split.
  - unfold resultsToCsv. fold nl. rewrite join_lines_flat, map_map. reflexivity.
  - split; [exact csv_row_eq|]. split.
    + intros v Hv. split; [apply escapeCsvField_quoted, Hv|apply double_quotes_chars].
    + split; [exact escapeCsvField_plain|]. split; [split; reflexivity|].
      split; [intros b n; split; [apply of_bool_plain|apply dec_plain]|].
      exists (join nl (csv_header :: map csv_row results)). split; [reflexivity|].
      apply (join_lines_last (fun _ => True)).
      intros y [<-|Hy]; [split; cbn; discriminate|].
      apply in_map_iff in Hy as (r & <- & _).
      split; [apply csv_row_nonempty|apply csv_row_last].
Qed.

(** C9.  [parseCsvUrls] compares the whole first line, not its first
    column, with [url], [domain] and [website]: the header [url,name]
    is not skipped and its first column is returned as an origin,
    while the header [url] is skipped. *)
Theorem parseCsvUrls_header_with_columns :
  parseCsvUrls ("url,name" ++ nl ++ "example.com,Example" ++ nl) = ["url"; "example.com"]
  /\ parseCsvUrls ("url" ++ nl ++ "example.com,Example" ++ nl) = ["example.com"].
Proof. split; reflexivity. Qed.

(* ------------------------------------------------------------------ *)
(** ** The outcome of a check *)

Section OutcomeFacts.
Variable rt : Runtime.

(** X1.  When the request for the manifest is rejected, the outcome
    carries the normalized origin, [detected] and [valid] are false,
    the other fields are empty, and [error] is the message of the
    error thrown, or [Unknown network error] when what was thrown is
    not an [Error]. *)
Theorem checkUrl_network_failure input origin e :
  normalizeUrl rt input = Some origin ->
  fetch rt (origin ++ "/.well-known/webmcp.json") = Rejected e ->
  checkUrl rt input =
  Some {| url := origin; detected := false; valid := false; version := "";
          toolCount := 0; toolNames := "";
          error := match e with
                   | Some m => m
                   | None => "Unknown network error"
                   end |}.
Proof. intros Hn Hf. unfold checkUrl. rewrite Hn, Hf. reflexivity. Qed.

Lemma checkUrl_same_origin a b :
  normalizeUrl rt a <> None -> normalizeUrl rt a = normalizeUrl rt b ->
  checkUrl rt a = checkUrl rt b.
Proof.
  intros Hne Heq. unfold checkUrl. rewrite <- Heq.
  destruct (normalizeUrl rt a); [reflexivity|congruence].
Qed.

Lemma checkUrl_url input r :
  checkUrl rt input = Some r ->
  url r = match normalizeUrl rt input with Some o => o | None => input end.
Proof.
  unfold checkUrl. destruct (normalizeUrl rt input) as [o|]; [|intros [= <-]; reflexivity].
  destruct (fetch rt _) as [e|status body]; [intros [= <-]; reflexivity|].
  destruct (negb (ok status)); [intros [= <-]; reflexivity|].
  destruct body as [doc|]; [|intros [= <-]; reflexivity].
  destruct (negb (Ajv.validate rt doc)); [intros [= <-]; reflexivity|].
  destruct (get doc "manifest_version") as [[]|]; try discriminate.
  destruct (get doc "tools") as [[]|]; try discriminate.
  destruct (map_option tool_name items); [intros [= <-]; reflexivity|discriminate].
Qed.

(** X2.  The outcome of [checkUrl] depends on its input only through
    the normalized origin: its [url] is that origin, and every input
    with the same origin has the same outcome. *)
Theorem checkUrl_by_origin input origin :
  normalizeUrl rt input = Some origin ->
  exists r, checkUrl rt input = Some r /\ url r = origin
    /\ forall input', normalizeUrl rt input' = Some origin ->
         checkUrl rt input' = Some r.
Proof.
  intros Hn. destruct (checkUrl_outcome rt input) as (r & Hr & _).
  exists r. split; [exact Hr|]. split.
  - rewrite (checkUrl_url _ _ Hr), Hn. reflexivity.
  - intros input' Hn'. rewrite <- Hr. apply checkUrl_same_origin; congruence.
Qed.

(** An origin [normalizeUrl] returns is normalized to itself. *)
Lemma normalizeUrl_fixed input o :
  unicode_stable rt -> ipv6_stable rt ->
  normalizeUrl rt input = Some o -> normalizeUrl rt o = Some o.
Proof.
  intros Hu H6 H. unfold normalizeUrl in H.
  destruct (Url.parse rt _) as [r|] eqn:Hr; [|discriminate].
  injection H as <-.
  destruct (parse_sound rt _ r Hr Hu H6) as (Hs & Hh & Hp).
  destruct r as [sch h p]. cbn [Url.scheme Url.host Url.port] in *.
  rewrite origin_eq. cbn [Url.scheme Url.host Url.port].
  unfold normalizeUrl.
  rewrite trim_visible
    by (apply (origin_visible rt); [destruct Hs as [-> | ->]; reflexivity|exact Hh]).
  replace (has_scheme (sch ++ "://" ++ h ++ Url.port_text p)) with true
    by (destruct Hs as [-> | ->]; [symmetry; apply has_scheme_http
                                  |symmetry; apply has_scheme_https]).
  rewrite parse_fix by assumption. reflexivity.
Qed.


(** X4.  [detected] is true exactly when the input is a URL, the request
    was answered with a status from 200 to 299 and the body is JSON;
    [valid] is true exactly when, in addition, the body passes the
    schema. *)
Theorem checkUrl_detected_valid input r :
  checkUrl rt input = Some r ->
  (detected r = true <->
     exists origin status doc,
       normalizeUrl rt input = Some origin
       /\ fetch rt (origin ++ "/.well-known/webmcp.json") = Responded status (Some doc)
       /\ ok status = true)
  /\ (valid r = true <->
     exists origin status doc,
       normalizeUrl rt input = Some origin
       /\ fetch rt (origin ++ "/.well-known/webmcp.json") = Responded status (Some doc)
       /\ ok status = true
       /\ Ajv.validate rt doc = true).
Proof.
  unfold checkUrl.
  destruct (normalizeUrl rt input) as [o|];
    [|intros [= <-]; cbn; split; split; try discriminate;
      intros (? & ? & ? & ? & _); discriminate].
  destruct (fetch rt _) as [e|status body] eqn:Hf;
    [intros [= <-]; cbn; split; split; try discriminate;
     intros (? & ? & ? & [= <-] & H & _); congruence|].
  destruct (ok status) eqn:Eok; cbn [negb].
  2:{ intros [= <-]; cbn; split; split; try discriminate;
      intros (? & ? & ? & [= <-] & H & Hrest); rewrite Hf in H;
      injection H as <- _; [|destruct Hrest as [Hrest _]]; congruence. }
  destruct body as [doc|].
  2:{ intros [= <-]; cbn; split; split; try discriminate;
      intros (? & ? & ? & [= <-] & H & _); congruence. }
  destruct (Ajv.validate rt doc) eqn:Hv; cbn [negb].
  2:{ intros [= <-]; cbn; split; split; try discriminate;
        try (intros _; reflexivity).
      - intros _. exists o, status, doc. auto.
      - intros (? & ? & ? & [= <-] & H & _ & Hv'). rewrite Hf in H.
        injection H as <- <-. congruence. }
  destruct (get doc "manifest_version") as [[]|]; try discriminate.
  destruct (get doc "tools") as [[]|]; try discriminate.
  destruct (map_option tool_name items); [|discriminate].
  intros [= <-]; cbn; split; split; try reflexivity; intros _;
    exists o, status, doc; auto.
Qed.

(** X5.  The [error] of an outcome is empty exactly when the outcome is
    valid, or when the request was rejected with an error whose message
    is empty: an empty [error] alone does not tell a valid manifest. *)
Theorem checkUrl_error_empty input r :
  checkUrl rt input = Some r ->
  (error r = "" <->
     valid r = true
     \/ exists origin,
          normalizeUrl rt input = Some origin
          /\ fetch rt (origin ++ "/.well-known/webmcp.json") = Rejected (Some "")).
Proof.
  unfold checkUrl.
  destruct (normalizeUrl rt input) as [o|];
    [|intros [= <-]; cbn; split; [discriminate|];
      intros [H|(? & H & _)]; discriminate].
  destruct (fetch rt _) as [e|status body] eqn:Hf.
  { intros [= <-]; cbn. split.
    - intros He. right. exists o. split; [reflexivity|].
      destruct e as [m|]; [subst m; exact Hf|discriminate].
    - intros [H|(? & [= <-] & H)]; [discriminate|].
      rewrite Hf in H. injection H as ->. reflexivity. }
  destruct (negb (ok status)).
  { intros [= <-]; cbn. split; [discriminate|].
    intros [H|(? & [= <-] & H)]; [discriminate|congruence]. }
  destruct body as [doc|].
  2:{ intros [= <-]; cbn. split; [discriminate|].
      intros [H|(? & [= <-] & H)]; [discriminate|congruence]. }
  destruct (negb (Ajv.validate rt doc)).
  { intros [= <-]; cbn. split; [discriminate|].
    intros [H|(? & [= <-] & H)]; [discriminate|congruence]. }
  destruct (get doc "manifest_version") as [[]|]; try discriminate.
  destruct (get doc "tools") as [[]|]; try discriminate.
  destruct (map_option tool_name items); [|discriminate].
  intros [= <-]; cbn. split; auto.
Qed.

End OutcomeFacts.

(* ------------------------------------------------------------------ *)
(** ** White space, and the address of the manifest *)

Lemma dropStart_app_all p a s :
  forall_chars p a = true -> dropStart p (a ++ s) = dropStart p s.
Proof.
  induction a as [|c a IH]; cbn [append forall_chars dropStart]; [reflexivity|].
  rewrite andb_true_iff. intros [-> Ha]. auto.
Qed.

Lemma dropEnd_all p b : forall_chars p b = true -> dropEnd p b = "".
Proof.
  induction b as [|c b IH]; cbn [forall_chars dropEnd]; [reflexivity|].
  rewrite andb_true_iff. intros [-> Hb]. now rewrite (IH Hb).
Qed.

Lemma dropEnd_app_all p s b :
  forall_chars p b = true -> dropEnd p (s ++ b) = dropEnd p s.
Proof.
  intros Hb. induction s as [|c s IH]; cbn [append dropEnd].
  - now apply dropEnd_all.
  - now rewrite IH.
Qed.

Lemma dropStart_all p b : forall_chars p b = true -> dropStart p b = "".
Proof.
  induction b as [|c b IH]; cbn [forall_chars dropStart]; [reflexivity|].
  rewrite andb_true_iff. intros [-> Hb]. auto.
Qed.

Lemma dropStart_app_end p s b :
  forall_chars p b = true ->
  dropEnd p (dropStart p (s ++ b)) = dropEnd p (dropStart p s).
Proof.
  intros Hb. induction s as [|c s IH]; cbn [append dropStart].
  - now rewrite dropStart_all.
  - destruct (p c); [exact IH|].
    change (String c (s ++ b)) with (String c s ++ b). now apply dropEnd_app_all.
Qed.

Lemma trim_surrounded a s b :
  forall_chars is_space a = true -> forall_chars is_space b = true ->
  trim (a ++ s ++ b) = trim s.
Proof.
  intros Ha Hb. unfold trim. rewrite dropStart_app_all by exact Ha.
  now apply dropStart_app_end.
Qed.

Section NormalizerFacts.
Variable rt : Runtime.

(** X6.  White space around the input does not change what
    [normalizeUrl] returns, nor whether it fails. *)
Theorem normalizeUrl_ignores_space a s b :
  forall_chars is_space a = true -> forall_chars is_space b = true ->
  normalizeUrl rt (a ++ s ++ b) = normalizeUrl rt s.
Proof.
  intros Ha Hb. unfold normalizeUrl. now rewrite trim_surrounded.
Qed.

Lemma forall_chars_nonempty_app a b :
  is_empty a = false -> is_empty (a ++ b) = false.
Proof. destruct a; [discriminate|reflexivity]. Qed.

Lemma authority_char_not_end c :
  authority_char c = true -> negb (Url.is_authority_end c) = true.
Proof. unfold authority_char. rewrite andb_true_iff. tauto. Qed.


End NormalizerFacts.

(* ------------------------------------------------------------------ *)
(** ** What the schema demands *)

Section SchemaFacts.
Variable rt : Runtime.
Import Ajv.

Lemma object_keys_inv req ps path ms :
  validate_at rt (SObject req false ps) path (JObj ms) = [] ->
  forall k v, In (k, v) ms -> In k (map fst ps).
Proof.
  rewrite validate_at_object. intros H.
  apply app_eq_nil in H as [_ H]. apply app_eq_nil in H as [Hadd _].
  intros k v Hin. induction ms as [|m ms IH]; [contradiction|].
  cbn [flat_map] in Hadd. apply app_eq_nil in Hadd as [H1 H2].
  destruct Hin as [->|Hin]; [|auto].
  cbn [fst] in H1. destruct (existsb (String.eqb k) (map fst ps)) eqn:E; [|discriminate].
  apply existsb_exists in E as (x & Hx & Heq). apply String.eqb_eq in Heq. now subst.
Qed.

Lemma string_valid_inv path data :
  validate_at rt string_ path data = [] -> exists v, data = JStr v.
Proof. destruct data; try discriminate. eauto. Qed.

Lemma minLength_valid_inv n path data :
  validate_at rt (SString None (Some n) None None) path data = [] ->
  exists v, data = JStr v /\ (n <= N.of_nat (String.length v))%N.
Proof.
  destruct data; try discriminate. cbn. intros H. exists s. split; [reflexivity|].
  destruct (N.ltb_spec (N.of_nat (String.length s)) n); [discriminate|assumption].
Qed.

Lemma format_valid_inv path data :
  validate_at rt (SString None None None (Some DateTime)) path data = [] ->
  exists v, data = JStr v /\ dateTime rt v = true.
Proof.
  destruct data; try discriminate. cbn. intros H. exists s. split; [reflexivity|].
  destruct (dateTime rt s); [reflexivity|discriminate].
Qed.

Lemma boolean_valid_inv path data :
  validate_at rt SBoolean path data = [] -> exists b, data = JBool b.
Proof. destruct data; try discriminate. eauto. Qed.

Lemma number_valid_inv m path data :
  validate_at rt (SNumber (Some m)) path data = [] ->
  exists q, data = JNum (Finite q) /\ (inject_Z (Z.of_N m) <= q)%Q.
Proof.
  destruct data as [| |[q|]| | |]; try discriminate. cbn. intros H.
  exists q. split; [reflexivity|].
  destruct (Qle_bool (inject_Z (Z.of_N m)) q) eqn:E; [|discriminate].
  now apply Qle_bool_iff.
Qed.

Lemma strings_valid_inv path data :
  validate_at rt strings_ path data = [] ->
  exists xs, data = JArr xs /\ Forall (fun x => exists v, x = JStr v) xs.
Proof.
  intros H. apply array_valid_inv in H as (xs & -> & _ & Hall).
  exists xs. split; [reflexivity|].
  eapply Forall_impl; [|exact Hall]. intros x [p Hp]. eapply string_valid_inv; exact Hp.
Qed.

Lemma object_bare_inv path data :
  validate_at rt object_ path data = [] -> exists ms, data = JObj ms.
Proof. destruct data; try discriminate. eauto. Qed.

(* a required property with its schema *)
Lemma required_property req addl ps path ms k sk :
  validate_at rt (SObject req addl ps) path (JObj ms) = [] ->
  In k req -> In (k, sk) ps ->
  exists v, assoc k ms = Some v /\ validate_at rt sk (path ++ "/" ++ k) v = [].
Proof.
  intros H Hk Hsk. apply object_valid_inv in H as (ms' & [= <-] & Hreq & Hps).
  destruct (assoc k ms) as [v|] eqn:E; [|exfalso; exact (Hreq k Hk E)].
  exists v. split; [reflexivity|]. eapply Hps; eassumption.
Qed.

Tactic Notation "here" integer(n) := do n right; left; reflexivity.

(** *** From an accepted document to its shape *)

Lemma pricing_valid_shape path pricing :
  validate_at rt
    (SObject ["model"] false
       [ ("model", SString (Some ["free"; "per_call"; "subscription"]) None None None);
         ("price_usd", SNumber (Some 0%N));
         ("notes", string_) ]) path pricing = [] ->
  pricing_shape pricing.
Proof.
  intros Vp.
  destruct (object_valid_inv rt _ _ _ _ _ Vp) as (pm & -> & _ & Hpopt).
  pose proof (object_keys_inv _ _ _ _ Vp) as Hpkeys.
  destruct (required_property _ _ _ _ _ "model" _ Vp
              ltac:(here 0) ltac:(here 0)) as (m & Hm & Vm).
  apply enum_valid_inv in Vm as (model & -> & Hmodel).
  exists pm, model. split; [reflexivity|]. split; [exact Hpkeys|].
  split; [exact Hm|]. split; [exact Hmodel|]. split.
  - intros price Hprice.
    pose proof (Hpopt _ _ _ ltac:(here 1) Hprice) as Vq.
    apply number_valid_inv in Vq as (q & -> & Hq). exists q. split; [reflexivity|exact Hq].
  - intros notes Hnotes.
    pose proof (Hpopt _ _ _ ltac:(here 2) Hnotes) as Vn.
    eapply string_valid_inv; exact Vn.
Qed.

Lemma validate_shape doc : validate rt doc = true -> manifest_shape rt doc.
Proof.
  unfold validate, errors.
  destruct (validate_at rt webmcpSchema "" doc) eqn:E; [intros _|discriminate].
  unfold webmcpSchema in E.
  destruct (object_valid_inv rt _ _ _ _ _ E) as (ms & -> & _ & Hps).
  pose proof (object_keys_inv _ _ _ _ E) as Hkeys.
  destruct (required_property _ _ _ _ _ "manifest_version" _ E
              ltac:(here 0) ltac:(here 0)) as (v1 & H1 & V1).
  destruct (required_property _ _ _ _ _ "origin" _ E
              ltac:(here 1) ltac:(here 1)) as (v2 & H2 & V2).
  destruct (required_property _ _ _ _ _ "updated_at" _ E
              ltac:(here 2) ltac:(here 2)) as (v3 & H3 & V3).
  destruct (required_property _ _ _ _ _ "tools" _ E
              ltac:(here 3) ltac:(here 3)) as (v4 & H4 & V4).
  apply enum_valid_inv in V1 as (mv & -> & [<-|[]]).
  apply pattern_valid_inv in V2 as (origin & -> & Ho).
  apply format_valid_inv in V3 as (updated & -> & Hd).
  apply array_valid_inv in V4 as (tools & -> & Hmin & Hall).
  exists ms, origin, updated, tools.
  split; [reflexivity|]. split; [exact Hkeys|]. split; [exact H1|].
  split; [exact H2|]. split; [exact Ho|]. split; [exact H3|].
  split; [exact Hd|]. split; [exact H4|].
  split; [specialize (Hmin _ eq_refl); destruct tools; [cbn in Hmin; lia|discriminate]|].
  split; [|split].
  - eapply Forall_impl; [|exact Hall]. clear. intros t [p Ht].
    destruct (object_valid_inv rt _ _ _ _ _ Ht) as (tm & -> & _ & Hopt).
    pose proof (object_keys_inv _ _ _ _ Ht) as Hkeys.
    destruct (required_property _ _ _ _ _ "name" _ Ht
                ltac:(here 0) ltac:(here 0)) as (v1 & H1 & V1).
    destruct (required_property _ _ _ _ _ "description" _ Ht
                ltac:(here 1) ltac:(here 1)) as (v2 & H2 & V2).
    destruct (required_property _ _ _ _ _ "version" _ Ht
                ltac:(here 2) ltac:(here 2)) as (v3 & H3 & V3).
    destruct (required_property _ _ _ _ _ "tags" _ Ht
                ltac:(here 3) ltac:(here 3)) as (v4 & H4 & V4).
    destruct (required_property _ _ _ _ _ "risk_level" _ Ht
                ltac:(here 4) ltac:(here 4)) as (v5 & H5 & V5).
    destruct (required_property _ _ _ _ _ "requires_user_confirm" _ Ht
                ltac:(here 5) ltac:(here 5)) as (v6 & H6 & V6).
    destruct (required_property _ _ _ _ _ "input_schema" _ Ht
                ltac:(here 6) ltac:(here 6)) as (v7 & H7 & V7).
    destruct (required_property _ _ _ _ _ "output_schema" _ Ht
                ltac:(here 7) ltac:(here 7)) as (v8 & H8 & V8).
    apply pattern_valid_inv in V1 as (name & -> & Hn).
    apply minLength_valid_inv in V2 as (desc & -> & Hd).
    apply minLength_valid_inv in V3 as (ver & -> & Hv).
    apply strings_valid_inv in V4 as (tags & -> & Htags).
    apply enum_valid_inv in V5 as (risk & -> & Hrisk).
    apply boolean_valid_inv in V6 as (confirm & ->).
    apply object_bare_inv in V7 as (ins & ->).
    apply object_bare_inv in V8 as (outs & ->).
    exists tm, name, desc, ver, tags, risk, confirm, ins, outs.
    split; [reflexivity|]. split; [exact Hkeys|]. split; [exact H1|].
    split; [exact Hn|]. split; [exact H2|].
    split; [intros ->; cbn in Hd; lia|]. split; [exact H3|].
    split; [intros ->; cbn in Hv; lia|]. split; [exact H4|].
    split; [exact Htags|]. split; [exact H5|]. split; [exact Hrisk|].
    split; [exact H6|]. split; [exact H7|]. split; [exact H8|].
    intros pricing Hpr.
    exact (pricing_valid_shape _ _ (Hopt _ _ _ ltac:(here 8) Hpr)).
  - intros auth Hauth.
    pose proof (Hps _ _ _ ltac:(here 4) Hauth) as V.
    destruct (object_valid_inv rt _ _ _ _ _ V) as (am & -> & _ & Hopt).
    pose proof (object_keys_inv _ _ _ _ V) as Hakeys.
    destruct (required_property _ _ _ _ _ "requires_login" _ V
                ltac:(here 0) ltac:(here 0)) as (w1 & W1 & VW1).
    apply boolean_valid_inv in VW1 as (login & ->).
    exists am, login. split; [reflexivity|]. split; [exact Hakeys|].
    split; [exact W1|]. intros scopes Hsc.
    pose proof (Hopt _ _ _ ltac:(here 1) Hsc) as Vs.
    eapply strings_valid_inv; exact Vs.
  - intros att Hatt.
    pose proof (Hps _ _ _ ltac:(here 5) Hatt) as V.
    destruct (object_valid_inv rt _ _ _ _ _ V) as (tm & -> & _ & _).
    pose proof (object_keys_inv _ _ _ _ V) as Htkeys.
    destruct (required_property _ _ _ _ _ "algo" _ V
                ltac:(here 0) ltac:(here 0)) as (w1 & W1 & VW1).
    destruct (required_property _ _ _ _ _ "public_key_jwk" _ V
                ltac:(here 1) ltac:(here 1)) as (w2 & W2 & VW2).
    destruct (required_property _ _ _ _ _ "signature" _ V
                ltac:(here 2) ltac:(here 2)) as (w3 & W3 & VW3).
    destruct (required_property _ _ _ _ _ "signed_fields" _ V
                ltac:(here 3) ltac:(here 3)) as (w4 & W4 & VW4).
    apply enum_valid_inv in VW1 as (algo & -> & [<-|[]]).
    apply object_bare_inv in VW2 as (key & ->).
    apply string_valid_inv in VW3 as (sig & ->).
    apply strings_valid_inv in VW4 as (signed & -> & Hsigned).
    exists tm, key, sig, signed. repeat split; assumption.
Qed.

(** *** From the shape to an accepted document *)

Lemma flat_map_nil {A B} (f : A -> list B) xs :
  (forall x, In x xs -> f x = []) -> flat_map f xs = [].
Proof.
  induction xs as [|x xs IH]; intros H; [reflexivity|]. cbn [flat_map].
  rewrite (H x (or_introl eq_refl)), IH; [reflexivity|].
  intros y Hy. apply H. now right.
Qed.

Lemma object_valid_intro req ps path ms :
  (forall k, In k req -> assoc k ms <> None) ->
  (forall k v, In (k, v) ms -> In k (map fst ps)) ->
  (forall k sk v, In (k, sk) ps -> assoc k ms = Some v ->
     validate_at rt sk (path ++ "/" ++ k) v = []) ->
  validate_at rt (SObject req false ps) path (JObj ms) = [].
Proof.
  intros Hreq Hkeys Hps. rewrite validate_at_object.
  rewrite flat_map_nil, flat_map_nil; cbn [app].
  - unfold props_errors. apply flat_map_nil. intros [k sk] Hin. cbn [fst snd].
    destruct (assoc k ms) as [v|] eqn:E; [|reflexivity]. eapply Hps; eassumption.
  - intros [k v] Hin. cbn [fst].
    replace (existsb (String.eqb k) (map fst ps)) with true; [reflexivity|].
    symmetry. apply existsb_exists. exists k. split; [eapply Hkeys; exact Hin|].
    apply String.eqb_refl.
  - intros k Hk. specialize (Hreq k Hk). destruct (assoc k ms); [reflexivity|congruence].
Qed.

Lemma items_valid_intro items path xs : forall i,
  Forall (fun x => forall p, validate_at rt items p x = []) xs ->
  items_errors rt items path i xs = [].
Proof.
  induction xs as [|x xs IH]; intros i H; [reflexivity|].
  inversion H as [|? ? Hx Hxs]; subst. cbn [items_errors].
  now rewrite Hx, IH.
Qed.

Lemma strings_valid_intro path xs :
  strings_shape xs -> validate_at rt strings_ path (JArr xs) = [].
Proof.
  intros H. unfold strings_. rewrite validate_at_array. cbn [app].
  apply items_valid_intro. eapply Forall_impl; [|exact H].
  intros x [v ->] p. reflexivity.
Qed.

Lemma enum_valid_intro allowed path v :
  In v allowed ->
  validate_at rt (SString (Some allowed) None None None) path (JStr v) = [].
Proof.
  intros H. cbn.
  replace (existsb (String.eqb v) allowed) with true; [reflexivity|].
  symmetry. apply existsb_exists. exists v. split; [exact H|apply String.eqb_refl].
Qed.

Lemma pattern_valid_intro p path v :
  test p v = true ->
  validate_at rt (SString None None (Some p) None) path (JStr v) = [].
Proof. intros H. cbn. now rewrite H. Qed.

Lemma number_valid_intro m path q :
  (inject_Z (Z.of_N m) <= q)%Q ->
  validate_at rt (SNumber (Some m)) path (JNum (Finite q)) = [].
Proof. intros H. apply Qle_bool_iff in H. cbn [validate_at]. now rewrite H. Qed.

Lemma minLength_valid_intro path v :
  v <> "" -> validate_at rt (SString None (Some 1%N) None None) path (JStr v) = [].
Proof.
  intros Hv.
  assert (E : (N.of_nat (String.length v) <? 1)%N = false)
    by (apply N.ltb_ge; destruct v; [congruence|cbn [String.length]; lia]).
  cbn [validate_at is_some orb app string_rules]. now rewrite E.
Qed.

Ltac property Hin :=
  repeat (destruct Hin as [Hin|Hin]; [injection Hin as <- <-|]);
  [..|contradiction Hin].

Ltac known Hv H := rewrite H in Hv; injection Hv as <-.

Lemma pricing_shape_valid path pricing :
  pricing_shape pricing ->
  validate_at rt
    (SObject ["model"] false
       [ ("model", SString (Some ["free"; "per_call"; "subscription"]) None None None);
         ("price_usd", SNumber (Some 0%N));
         ("notes", string_) ]) path pricing = [].
Proof.
  intros (pm & model & -> & Hkeys & Hm & Hmodel & Hprice & Hnotes).
  apply object_valid_intro.
  - intros k [<-|[]]. congruence.
  - exact Hkeys.
  - intros k sk v Hin Hv. property Hin.
    + known Hv Hm. now apply enum_valid_intro.
    + destruct (Hprice _ Hv) as (q & -> & Hq). apply number_valid_intro. exact Hq.
    + destruct (Hnotes _ Hv) as (s & ->). reflexivity.
Qed.

Lemma tool_shape_valid path t :
  tool_shape t ->
  validate_at rt
    (SObject
       ["name"; "description"; "version"; "tags"; "risk_level";
        "requires_user_confirm"; "input_schema"; "output_schema"]
       false
       [ ("name", SString None None (Some name_pattern) None);
         ("description", SString None (Some 1%N) None None);
         ("version", SString None (Some 1%N) None None);
         ("tags", strings_);
         ("risk_level", SString (Some ["low"; "medium"; "high"]) None None None);
         ("requires_user_confirm", SBoolean);
         ("input_schema", object_);
         ("output_schema", object_);
         ("pricing",
           SObject ["model"] false
             [ ("model",
                 SString (Some ["free"; "per_call"; "subscription"])
                   None None None);
               ("price_usd", SNumber (Some 0%N));
               ("notes", string_) ]) ]) path t = [].
Proof.
  intros (tm & name & desc & ver & tags & risk & confirm & ins & outs & -> & Hkeys
          & H1 & Hn & H2 & Hd & H3 & Hv & H4 & Htags & H5 & Hrisk & H6 & H7 & H8 & Hpr).
  apply object_valid_intro.
  - intros k Hk. repeat (destruct Hk as [<-|Hk]; [congruence|]). contradiction Hk.
  - exact Hkeys.
  - intros k sk v Hin Hval. property Hin.
    + known Hval H1. now apply pattern_valid_intro.
    + known Hval H2. now apply minLength_valid_intro.
    + known Hval H3. now apply minLength_valid_intro.
    + known Hval H4. now apply strings_valid_intro.
    + known Hval H5. now apply enum_valid_intro.
    + known Hval H6. reflexivity.
    + known Hval H7. reflexivity.
    + known Hval H8. reflexivity.
    + apply pricing_shape_valid. now apply Hpr.
Qed.

Lemma manifest_shape_valid doc : manifest_shape rt doc -> validate rt doc = true.
Proof.
  intros (ms & origin & updated & tools & -> & Hkeys & H1 & H2 & Ho & H3 & Hd & H4
          & Hne & Htools & Hauth & Hatt).
  unfold validate, errors.
  replace (validate_at rt webmcpSchema "" (JObj ms)) with (@nil ErrorObject);
    [reflexivity|].
  symmetry. unfold webmcpSchema. apply object_valid_intro.
  - intros k Hk. repeat (destruct Hk as [<-|Hk]; [congruence|]). contradiction Hk.
  - exact Hkeys.
  - intros k sk v Hin Hval. property Hin.
    + known Hval H1. apply enum_valid_intro. now left.
    + known Hval H2. now apply pattern_valid_intro.
    + known Hval H3. cbn. now rewrite Hd.
    + known Hval H4. rewrite validate_at_array.
      replace (N.of_nat (List.length tools) <? 1)%N with false
        by (destruct tools; [congruence|symmetry; apply N.ltb_ge; cbn [List.length]; lia]).
      cbn [app]. apply items_valid_intro.
      eapply Forall_impl; [|exact Htools]. intros t Ht p. now apply tool_shape_valid.
    + destruct (Hauth _ Hval) as (am & login & -> & Hak & Hl & Hsc).
      apply object_valid_intro.
      * intros k [<-|[]]. congruence.
      * exact Hak.
      * intros k' sk' v' Hin' Hv'. property Hin'.
        -- known Hv' Hl. reflexivity.
        -- destruct (Hsc _ Hv') as (xs & -> & Hxs). now apply strings_valid_intro.
    + destruct (Hatt _ Hval) as (tm & key & sig & signed & -> & Htk & A1 & A2 & A3 & A4 & A5).
      apply object_valid_intro.
      * intros k Hk. repeat (destruct Hk as [<-|Hk]; [congruence|]). contradiction Hk.
      * exact Htk.
      * intros k' sk' v' Hin' Hv'. property Hin'.
        -- known Hv' A1. apply enum_valid_intro. now left.
        -- known Hv' A2. reflexivity.
        -- known Hv' A3. reflexivity.
        -- known Hv' A4. now apply strings_valid_intro.
Qed.

(** X8.  A document the validator accepts is an object with no key
    outside [manifest_version], [origin], [updated_at], [tools], [auth]
    and [attestation]; its [manifest_version] is the string [0.1], its
    [origin] a string that starts with [http://] or [https://], its
    [updated_at] a date-time string, and its [tools] an array with at
    least one item. *)
Theorem valid_manifest_root doc :
  validate rt doc = true ->
  exists ms origin updated_at tools,
    doc = JObj ms
    /\ (forall k v, In (k, v) ms -> In k root_keys)
    /\ assoc "manifest_version" ms = Some (JStr "0.1")
    /\ assoc "origin" ms = Some (JStr origin)
    /\ startsWith "http://" origin || startsWith "https://" origin = true
    /\ assoc "updated_at" ms = Some (JStr updated_at)
    /\ dateTime rt updated_at = true
    /\ assoc "tools" ms = Some (JArr tools)
    /\ tools <> [].
Proof.
  intros H. apply validate_shape in H
    as (ms & origin & updated & tools & -> & Hkeys & H1 & H2 & Ho & H3 & Hd & H4
        & Hne & _).
  exists ms, origin, updated, tools. repeat split; assumption.
Qed.

(** X9.  In a document the validator accepts, every item of [tools] is
    an object with no key outside the nine of the schema, with a [name]
    that matches the name pattern, a non-empty [description] and
    [version], an array of strings [tags], a [risk_level] among [low],
    [medium] and [high], a boolean [requires_user_confirm], and objects
    [input_schema] and [output_schema]; a [pricing], when present, is
    an object with a [model] among [free], [per_call] and
    [subscription] and, when it has them, a [price_usd] that is a
    number not below zero and [notes] that are a string. *)
Theorem valid_manifest_tools doc tools t :
  validate rt doc = true ->
  get doc "tools" = Some (JArr tools) ->
  In t tools ->
  exists tm name description version tags risk confirm ins outs,
    t = JObj tm
    /\ (forall k v, In (k, v) tm -> In k tool_keys)
    /\ assoc "name" tm = Some (JStr name) /\ test name_pattern name = true
    /\ assoc "description" tm = Some (JStr description) /\ description <> ""
    /\ assoc "version" tm = Some (JStr version) /\ version <> ""
    /\ assoc "tags" tm = Some (JArr tags)
    /\ Forall (fun x => exists v, x = JStr v) tags
    /\ assoc "risk_level" tm = Some (JStr risk)
    /\ In risk ["low"; "medium"; "high"]
    /\ assoc "requires_user_confirm" tm = Some (JBool confirm)
    /\ assoc "input_schema" tm = Some (JObj ins)
    /\ assoc "output_schema" tm = Some (JObj outs)
    /\ (forall pricing, assoc "pricing" tm = Some pricing ->
          exists pm model,
            pricing = JObj pm
            /\ (forall k v, In (k, v) pm -> In k ["model"; "price_usd"; "notes"])
            /\ assoc "model" pm = Some (JStr model)
            /\ In model ["free"; "per_call"; "subscription"]
            /\ (forall price, assoc "price_usd" pm = Some price ->
                  exists q, price = JNum (Finite q) /\ (0 <= q)%Q)
            /\ (forall notes, assoc "notes" pm = Some notes ->
                  exists v, notes = JStr v)).
Proof.
  intros H Hts Hin. apply validate_shape in H
    as (ms & origin & updated & tools' & -> & _ & _ & _ & _ & _ & _ & H4 & _ & Hall & _).
  cbn [get] in Hts. rewrite H4 in Hts. injection Hts as ->.
  rewrite Forall_forall in Hall. exact (Hall t Hin).
Qed.

(** X10.  In a document the validator accepts, [auth], when present, is
    an object with a boolean [requires_login] and at most one more key,
    [oauth_scopes], an array of strings; [attestation], when present,
    is an object with exactly the keys [algo], which is [ed25519],
    [public_key_jwk], an object, [signature], a string, and
    [signed_fields], an array of strings. *)
Theorem valid_manifest_optional doc :
  validate rt doc = true ->
  (forall auth, get doc "auth" = Some auth ->
     exists am login,
       auth = JObj am
       /\ (forall k v, In (k, v) am -> In k ["requires_login"; "oauth_scopes"])
       /\ assoc "requires_login" am = Some (JBool login)
       /\ (forall scopes, assoc "oauth_scopes" am = Some scopes ->
             exists xs, scopes = JArr xs
                        /\ Forall (fun x => exists v, x = JStr v) xs))
  /\ (forall attestation, get doc "attestation" = Some attestation ->
       exists tm key signature signed,
         attestation = JObj tm
         /\ (forall k v, In (k, v) tm ->
               In k ["algo"; "public_key_jwk"; "signature"; "signed_fields"])
         /\ assoc "algo" tm = Some (JStr "ed25519")
         /\ assoc "public_key_jwk" tm = Some (JObj key)
         /\ assoc "signature" tm = Some (JStr signature)
         /\ assoc "signed_fields" tm = Some (JArr signed)
         /\ Forall (fun x => exists v, x = JStr v) signed).
Proof.
  intros H. apply validate_shape in H
    as (ms & origin & updated & tools & -> & _ & _ & _ & _ & _ & _ & _ & _ & _
        & Hauth & Hatt).
  cbn [get]. split; [exact Hauth|exact Hatt].
Qed.

(** X11.  The validator accepts a document exactly when it has the
    shape of a manifest: the conditions of the schema on the root, on
    every tool and its pricing, and on [auth] and [attestation] when
    present, are together sufficient as well as necessary. *)
Theorem validate_exactly doc : validate rt doc = true <-> manifest_shape rt doc.
Proof. split; [apply validate_shape|apply manifest_shape_valid]. Qed.

End SchemaFacts.

(* ------------------------------------------------------------------ *)
(** ** The two modes and the command line *)

Lemma count_valid_pos rs :
  0 < count_valid rs <-> exists r, In r rs /\ valid r = true.
Proof.
  unfold count_valid. split.
  - destruct (filter valid rs) as [|r l] eqn:E; cbn; [lia|]. intros _.
    assert (H : In r (filter valid rs)) by (rewrite E; left; reflexivity).
    apply filter_In in H. eauto.
  - intros (r & Hin & Hv).
    assert (H : In r (filter valid rs)) by (apply filter_In; auto).
    destruct (filter valid rs); [contradiction|cbn; lia].
Qed.

Lemma In_map_Some {A} (x : A) xs : In (Some x) (map Some xs) <-> In x xs.
Proof.
  rewrite in_map_iff. split; [intros (y & [= ->] & H); exact H|eauto].
Qed.

Section RunFacts.
Variable rt : Runtime.

Lemma batch_loop_total urls :
  exists st, batch_loop rt urls batch_start = Some st
    /\ map Some (results st) = map (checkUrl rt) urls
    /\ detectedCount st = count_valid (results st).
Proof.
  destruct (batch_loop_from rt urls batch_start eq_refl) as (st & H1 & H2 & H3).
  exists st. auto.
Qed.

Lemma batch_some_valid urls st :
  map Some (results st) = map (checkUrl rt) urls ->
  (0 < count_valid (results st) <->
   exists u r, In u urls /\ checkUrl rt u = Some r /\ valid r = true).
Proof.
  intros Hres. rewrite count_valid_pos. split.
  - intros (r & Hin & Hv). apply In_map_Some in Hin. rewrite Hres in Hin.
    apply in_map_iff in Hin as (u & Hu & Hin). eauto.
  - intros (u & r & Hin & Hr & Hv). exists r. split; [|exact Hv].
    apply In_map_Some. rewrite Hres, <- Hr. now apply in_map.
Qed.

Lemma runBatch_run content :
  exists run, runBatch rt content = Some run
    /\ (written run = None <-> parseCsvUrls content = [])
    /\ (forall t, written run = Some t ->
          exists st, batch_loop rt (parseCsvUrls content) batch_start = Some st
                     /\ t = resultsToCsv (results st))
    /\ (exitCode run = 0 <->
          exists u r, In u (parseCsvUrls content)
                      /\ checkUrl rt u = Some r /\ valid r = true)
    /\ (exitCode run = 0 \/ exitCode run = 1).
Proof.
  unfold runBatch. destruct (parseCsvUrls content) as [|u urls] eqn:E.
  - cbn. eexists. split; [reflexivity|]. cbn. repeat split; auto; try discriminate.
    intros (? & ? & [] & _).
  - cbn [List.length Nat.eqb].
    destruct (batch_loop_total (u :: urls)) as (st & Hloop & Hres & Hcount).
    rewrite Hloop. eexists. split; [reflexivity|]. cbn [written exitCode].
    split; [split; discriminate|]. split; [intros t [= <-]; eauto|].
    pose proof (batch_some_valid _ _ Hres) as Hv. rewrite <- Hcount in Hv.
    destruct (Nat.ltb_spec 0 (detectedCount st)).
    + split; [|now left]. split; [intros _; now apply Hv|reflexivity].
    + split; [|now right]. split; [discriminate|].
      intros H'. apply Hv in H'. lia.
Qed.

(** X12.  [runBatch] always ends.  It writes no file exactly when the
    input has no URL; the file it writes is the CSV text of the
    outcomes of the loop; and its exit code is 0 exactly when some URL
    of the input has a valid outcome, and 1 otherwise. *)
Theorem runBatch_result content :
  exists run, runBatch rt content = Some run
    /\ (written run = None <-> parseCsvUrls content = [])
    /\ (forall t, written run = Some t ->
          exists st, batch_loop rt (parseCsvUrls content) batch_start = Some st
                     /\ t = resultsToCsv (results st))
    /\ (exitCode run = 0 <->
          exists u r, In u (parseCsvUrls content)
                      /\ checkUrl rt u = Some r /\ valid r = true)
    /\ (exitCode run = 0 \/ exitCode run = 1).
Proof. exact (runBatch_run content). Qed.

Import Cli.

Lemma runSingle_run input :
  exists run, runSingle rt input = Some run
    /\ (exit run = 0 <-> exists r, checkUrl rt input = Some r /\ valid r = true)
    /\ (exit run = 0 \/ exit run = 1)
    /\ (stderr run <> [] <-> normalizeUrl rt input = None)
    /\ (normalizeUrl rt input = None -> stdout run = []).
Proof.
  unfold runSingle. destruct (checkUrl_outcome rt input) as (r & Hr & Hvd & _).
  assert (Hvalid : (exists r', checkUrl rt input = Some r' /\ valid r' = true)
                   <-> valid r = true).
  { split; [intros (r' & Hr' & Hv'); congruence|intros Hv; eauto]. }
  destruct (normalizeUrl rt input) as [o|] eqn:Hn.
  - rewrite Hr in *.
    assert (Herr : ([] : list text) <> [] <-> Some o = @None string)
      by (split; [intros H; now contradiction H|discriminate]).
    destruct (detected r) eqn:Hd; cbn [negb];
      [destruct (valid r) eqn:Hv; cbn [negb]|];
      (eexists; split; [reflexivity|]); cbn [exit stderr stdout].
    + split; [rewrite Hvalid; tauto|].
      split; [now left|]. split; [exact Herr|discriminate].
    + split; [rewrite Hvalid; split; discriminate|].
      split; [now right|]. split; [exact Herr|discriminate].
    + split.
      { rewrite Hvalid. split; [discriminate|]. intros Hv. specialize (Hvd Hv).
        discriminate. }
      split; [now right|]. split; [exact Herr|discriminate].
  - eexists; (split; [reflexivity|]); cbn [exit stderr stdout].
    split.
    { rewrite Hvalid. split; [discriminate|]. intros Hv.
      unfold checkUrl in Hr. rewrite Hn in Hr. injection Hr as <-. discriminate. }
    split; [now right|]. split; [split; [reflexivity|discriminate]|reflexivity].
Qed.

(** X13.  [runSingle] always ends, with exit code 0 exactly when the
    outcome of the check is valid and 1 otherwise; it writes to the
    error stream exactly when the input is not a URL, and then nothing
    to the standard output. *)
Theorem runSingle_exit input :
  exists run, runSingle rt input = Some run
    /\ (exit run = 0 <-> exists r, checkUrl rt input = Some r /\ valid r = true)
    /\ (exit run = 0 \/ exit run = 1)
    /\ (stderr run <> [] <-> normalizeUrl rt input = None)
    /\ (normalizeUrl rt input = None -> stdout run = []).
Proof. exact (runSingle_run input). Qed.

End RunFacts.

Section CommandLineFacts.
Import Cli.

Lemma split2_cons a b c s :
  Ascii.eqb c a = false -> split2 a b (String c s) = cons_head c (split2 a b s).
Proof.
  intros Hc. cbn [split2]. destruct s as [|d s]; [reflexivity|].
  rewrite Hc. reflexivity.
Qed.

Lemma split2_plain a b n :
  includes a n = false -> split2 a b n = [n].
Proof.
  induction n as [|c n IH]; [reflexivity|]. cbn [includes].
  rewrite orb_false_iff. intros [Hc Hn]. rewrite split2_cons by exact Hc.
  now rewrite (IH Hn).
Qed.

Lemma split2_sep a b n rest :
  includes a n = false ->
  split2 a b (n ++ String a (String b rest)) = n :: split2 a b rest.
Proof.
  induction n as [|c n IH]; cbn [includes append].
  - intros _. cbn [split2]. now rewrite !Ascii.eqb_refl.
  - rewrite orb_false_iff. intros [Hc Hn]. rewrite split2_cons by exact Hc.
    now rewrite (IH Hn).
Qed.

Lemma split2_join names :
  names <> [] -> Forall (fun n => includes ";" n = false) names ->
  split2 ";" " " (join "; " names) = names.
Proof.
  intros Hne Hall. induction Hall as [|n names Hn Hall IH]; [congruence|].
  destruct names as [|m names].
  - cbn [join concat]. now apply split2_plain.
  - change (join "; " (n :: m :: names)) with (n ++ "; " ++ join "; " (m :: names)).
    cbn [append]. rewrite split2_sep by exact Hn. f_equal. apply IH. discriminate.
Qed.

Lemma name_char_not_semicolon c : Ajv.is_name_char c = true -> Ascii.eqb c ";" = false.
Proof. char_fact c. Qed.
Lemma lower_not_semicolon c : Ajv.is_lower c = true -> Ascii.eqb c ";" = false.
Proof. char_fact c. Qed.

Lemma name_pattern_no_semicolon n :
  Ajv.test Ajv.name_pattern n = true -> includes ";" n = false.
Proof.
  destruct n as [|c n]; [discriminate|]. cbn [Ajv.test Ajv.name_pattern includes].
  rewrite andb_true_iff. intros [Hc Hn]. rewrite (lower_not_semicolon c Hc). cbn [orb].
  apply includes_false_chars. eapply forall_chars_impl; [|exact Hn].
  intros d Hd. now rewrite (name_char_not_semicolon d Hd).
Qed.

Section SingleFacts.
Variable rt : Runtime.

Lemma valid_manifest_names doc :
  Ajv.validate rt doc = true ->
  exists tools names,
    get doc "manifest_version" = Some (JStr "0.1")
    /\ get doc "tools" = Some (JArr tools)
    /\ map_option tool_name tools = Some names
    /\ map tool_name tools = map Some names
    /\ names <> []
    /\ Forall (fun n => Ajv.test Ajv.name_pattern n = true) names.
Proof.
  intros H. apply valid_manifest_shape in H as (ms & tools & -> & Hmv & Hts & Hlen & Hall).
  apply map_option_Forall in Hall as (names & Hn & HP & Hm).
  exists tools, names. cbn [get]. repeat split; auto.
  intros ->. destruct tools; [cbn in Hlen; lia|discriminate].
Qed.

(** X14.  For a site that serves a valid manifest, [runSingle] exits
    with 0 after writing the line of the request, the line of success,
    the origin, the version [0.1], the number of tools and then one
    line per tool with its name, in the order of the manifest: cutting
    the joined names at [; ] gives the names back, since a name that
    matches the pattern has no semicolon. *)
Theorem runSingle_lists_tools input origin status doc :
  normalizeUrl rt input = Some origin ->
  fetch rt (origin ++ "/.well-known/webmcp.json") = Responded status (Some doc) ->
  ok status = true ->
  Ajv.validate rt doc = true ->
  exists tools names run,
    get doc "tools" = Some (JArr tools)
    /\ map tool_name tools = map Some names
    /\ runSingle rt input = Some run
    /\ exit run = 0
    /\ stdout run =
       ([ dim (units ("Checking " ++ origin ++ "/.well-known/webmcp.json..." ++ nl));
          (green tick ++ units " WebMCP detected")%list;
          units ("  Origin:   " ++ origin);
          units "  Version:  0.1";
          units ("  Tools:    " ++ dec (N.of_nat (List.length names))) ]
        ++ map (fun name => units ("    - " ++ name)) names)%list.
Proof.
  intros Hn Hf Hok Hv.
  destruct (valid_manifest_names _ Hv) as (tools & names & Hmv & Hts & Hnames & Hmap & Hne & Hpat).
  exists tools, names. eexists. split; [exact Hts|]. split; [exact Hmap|].
  unfold runSingle, checkUrl. rewrite Hn, Hf, Hok, Hv. cbn [negb].
  rewrite Hmv, Hts, Hnames. cbn [negb detected valid].
  split; [reflexivity|]. split; [reflexivity|]. cbn [stdout url version toolCount toolNames].
  rewrite split2_join.
  - assert (Hlen : List.length tools = List.length names)
      by (rewrite <- (length_map tool_name), Hmap; apply length_map).
    rewrite Hlen. reflexivity.
  - exact Hne.
  - eapply Forall_impl; [|exact Hpat]. apply name_pattern_no_semicolon.
Qed.

(** X15.  [main] always ends with exit code 0 or 1.  The code is 0
    exactly when the usage was asked for with arguments present, when
    the single URL has a valid outcome, or when the input file can be
    read and some URL of it has a valid outcome.  A file is written
    only in batch mode, at the path of the output file, and holds the
    CSV text of the outcomes. *)
Theorem main_exit_code readFile args :
  exists e, main rt readFile args = Some e
    /\ (status e = 0 \/ status e = 1)
    /\ (status e = 0 <->
        match action args with
        | Help c => c = 0
        | CsvNeedsFile => False
        | Batch inputFile _ =>
            exists content u r,
              readFile inputFile = Some content
              /\ In u (parseCsvUrls content)
              /\ checkUrl rt u = Some r /\ valid r = true
        | Single input => exists r, checkUrl rt input = Some r /\ valid r = true
        end)
    /\ (forall path t, file e = Some (path, t) ->
          exists inputFile content st,
            action args = Batch inputFile path
            /\ readFile inputFile = Some content
            /\ batch_loop rt (parseCsvUrls content) batch_start = Some st
            /\ parseCsvUrls content <> []
            /\ t = resultsToCsv (results st)).
Proof.
  unfold main. destruct (action args) as [c| |i o|input] eqn:Ha.
  - eexists. split; [reflexivity|]. cbn [status file].
    split; [|split; [tauto|discriminate]].
    unfold action in Ha.
    destruct ((List.length args =? 0)%nat || _ || _); [|
      destruct (indexOf "--csv" args); [destruct (truthy_arg args _)|]; discriminate].
    injection Ha as <-. destruct (List.length args =? 0)%nat; auto.
  - eexists. split; [reflexivity|]. cbn [status file].
    split; [now right|]. split; [split; [discriminate|tauto]|discriminate].
  - destruct (readFile i) as [content|] eqn:Hread.
    + destruct (runBatch_run rt content) as (run & Hrun & Hw & Hwt & Hex & Hcode).
      rewrite Hrun. eexists. split; [reflexivity|]. cbn [status file].
      split; [exact Hcode|]. split.
      * rewrite Hex. split.
        -- intros (u & r & H). exists content, u, r. auto.
        -- intros (content' & u & r & [= <-] & H). eauto.
      * intros path t Hfile. destruct (written run) as [t'|] eqn:Ew; [|discriminate].
        cbn in Hfile. injection Hfile as <- <-.
        destruct (Hwt _ eq_refl) as (st & Hst & ->).
        exists i, content, st. repeat split; auto.
        intros Hnil. apply Hw in Hnil. discriminate.
    + eexists. split; [reflexivity|]. cbn [status file].
      split; [now right|]. split; [|discriminate].
      split; [discriminate|]. intros (? & ? & ? & H & _). discriminate.
  - destruct (runSingle_run rt input) as (run & Hrun & Hex & Hcode & _).
    rewrite Hrun. eexists. split; [reflexivity|]. cbn [status file].
    split; [exact Hcode|]. split; [exact Hex|discriminate].
Qed.

End SingleFacts.

Lemma includes_arg_In x args : includes_arg x args = true <-> In x args.
Proof.
  unfold includes_arg. rewrite existsb_exists. split.
  - intros (a & Hin & Heq). apply String.eqb_eq in Heq. now subst.
  - intros Hin. exists x. split; [exact Hin|apply String.eqb_refl].
Qed.

Lemma indexOf_first x args i :
  indexOf x args = Some i ->
  nth_error args i = Some x /\ forall j, j < i -> nth_error args j <> Some x.
Proof.
  revert i. induction args as [|a args IH]; intros i; cbn [indexOf]; [discriminate|].
  destruct (String.eqb_spec a x) as [->|Hne].
  - intros [= <-]. split; [reflexivity|]. intros j Hj. lia.
  - destruct (indexOf x args) as [k|]; [|discriminate]. intros [= <-].
    destruct (IH k eq_refl) as [Hk Hfirst]. split; [exact Hk|].
    intros [|j] Hj; cbn [nth_error]; [congruence|]. apply Hfirst. lia.
Qed.

Lemma indexOf_none x args : indexOf x args = None -> ~ In x args.
Proof.
  induction args as [|a args IH]; cbn [indexOf]; [auto|].
  destruct (String.eqb_spec a x) as [->|Hne]; [discriminate|].
  destruct (indexOf x args); [discriminate|]. intros _ [H|H]; [congruence|].
  now apply IH.
Qed.

Lemma truthy_arg_some args i a :
  truthy_arg args i = Some a -> nth_error args i = Some a /\ a <> "".
Proof.
  unfold truthy_arg. destruct (nth_error args i) as [b|]; [|discriminate].
  destruct b; cbn [is_empty]; [discriminate|]. intros [= <-]. split; [reflexivity|discriminate].
Qed.

(** X16.  How [main] reads its arguments.  With no argument it prints
    the usage and exits with 1; with [--help] or [-h] anywhere, with
    0.  Single mode takes the first argument as the URL, and only when
    no [--csv] is given.  Batch mode takes as input file the argument
    after the first [--csv], which is not empty, and as output file
    either [results.csv] or the argument after the first [-o]. *)
Theorem action_rules args :
  (args = [] -> action args = Help 1)
  /\ (args <> [] -> In "--help" args \/ In "-h" args -> action args = Help 0)
  /\ (forall input, action args = Single input ->
        ~ In "--help" args /\ ~ In "-h" args /\ ~ In "--csv" args
        /\ nth_error args 0 = Some input)
  /\ (forall inputFile outputFile, action args = Batch inputFile outputFile ->
        inputFile <> "" /\ outputFile <> ""
        /\ (exists i, nth_error args i = Some "--csv"
                      /\ (forall j, j < i -> nth_error args j <> Some "--csv")
                      /\ nth_error args (i + 1) = Some inputFile)
        /\ (outputFile = "results.csv"
            \/ exists j, nth_error args j = Some "-o"
                         /\ (forall k, k < j -> nth_error args k <> Some "-o")
                         /\ nth_error args (j + 1) = Some outputFile)).
Proof.
  split; [intros ->; reflexivity|]. split.
  { intros Hne Hhelp. unfold action.
    replace (List.length args =? 0)%nat with false by (now destruct args).
    replace (false || includes_arg "--help" args || includes_arg "-h" args) with true;
      [reflexivity|].
    symmetry. cbn [orb]. apply orb_true_iff.
    destruct Hhelp as [H|H]; [left|right]; now apply includes_arg_In. }
  assert (Hflags : forall a,
            action args = a -> (forall c, a <> Help c) ->
            args <> [] /\ ~ In "--help" args /\ ~ In "-h" args).
  { intros a Ha Hna. unfold action in Ha.
    destruct (List.length args =? 0)%nat eqn:El;
      [cbn [orb] in Ha; subst a; now contradiction (Hna 1)|].
    destruct (includes_arg "--help" args) eqn:E1;
      [cbn [orb] in Ha; subst a; now contradiction (Hna 0)|].
    destruct (includes_arg "-h" args) eqn:E2;
      [cbn [orb] in Ha; subst a; now contradiction (Hna 0)|].
    split; [intros ->; discriminate|]. split; intros H; apply includes_arg_In in H; congruence. }
  split.
  - intros input Ha.
    destruct (Hflags _ Ha ltac:(discriminate)) as (Hne & H1 & H2).
    split; [exact H1|]. split; [exact H2|].
    unfold action in Ha.
    destruct ((List.length args =? 0)%nat || _ || _); [discriminate|].
    destruct (indexOf "--csv" args) eqn:Ei;
      [destruct (truthy_arg args _); discriminate|].
    injection Ha as <-. split; [now apply indexOf_none|].
    destruct args; [congruence|reflexivity].
  - intros i o Ha. unfold action in Ha.
    destruct ((List.length args =? 0)%nat || _ || _); [discriminate|].
    destruct (indexOf "--csv" args) as [ci|] eqn:Ei; [|discriminate].
    destruct (truthy_arg args (ci + 1)) as [f|] eqn:Ef; [|discriminate].
    injection Ha as <- <-.
    apply truthy_arg_some in Ef as [Hf Hfne]. apply indexOf_first in Ei as [Hci Hfirst].
    split; [exact Hfne|].
    destruct (indexOf "-o" args) as [oi|] eqn:Eo.
    + destruct (truthy_arg args (oi + 1)) as [g|] eqn:Eg.
      * apply truthy_arg_some in Eg as [Hg Hgne]. apply indexOf_first in Eo as [Hoi Hofirst].
        split; [exact Hgne|]. split; [eauto|]. right. eauto.
      * split; [discriminate|]. split; [eauto|]. now left.
    + split; [discriminate|]. split; [eauto|]. now left.
Qed.

End CommandLineFacts.

(* ------------------------------------------------------------------ *)
(** ** Reading the input file *)

Lemma url_char_not_space c : url_char c = true -> negb (is_space c) = true.
Proof. ascii_cases c; vm_compute; congruence. Qed.
Lemma url_char_not_quote c : url_char c = true -> is_quote c = false.
Proof. ascii_cases c; vm_compute; congruence. Qed.
Lemma url_char_not_comma c : url_char c = true -> negb (Ascii.eqb c ",") = true.
Proof. ascii_cases c; vm_compute; congruence. Qed.
Lemma url_char_not_lf c : url_char c = true -> negb (Ascii.eqb c LF) = true.
Proof. ascii_cases c; vm_compute; congruence. Qed.
Lemma url_char_not_cr c : url_char c = true -> Ascii.eqb c CR = false.
Proof. ascii_cases c; vm_compute; congruence. Qed.
Lemma url_char_lower c : url_char (lower_char c) = url_char c.
Proof. ascii_cases c; vm_compute; congruence. Qed.

Lemma includes_app c a b : includes c (a ++ b) = includes c a || includes c b.
Proof.
  induction a as [|x a IH]; cbn [append includes]; [reflexivity|].
  rewrite IH. apply orb_assoc.
Qed.

Lemma map_chars_app f a b : map_chars f (a ++ b) = map_chars f a ++ map_chars f b.
Proof. induction a as [|x a IH]; cbn; [reflexivity|now rewrite IH]. Qed.

Lemma forall_chars_map p f s :
  forall_chars p (map_chars f s) = forall_chars (fun c => p (f c)) s.
Proof. induction s as [|c s IH]; cbn; [reflexivity|now rewrite IH]. Qed.

Lemma forall_chars_ext p q s :
  (forall c, p c = q c) -> forall_chars p s = forall_chars q s.
Proof. intros H. induction s as [|c s IH]; cbn; [reflexivity|now rewrite H, IH]. Qed.

Lemma url_text_lower u : url_text (toLowerCase u) = url_text u.
Proof.
  unfold url_text, toLowerCase. rewrite forall_chars_map.
  rewrite (forall_chars_ext _ url_char) by apply url_char_lower.
  now destruct u.
Qed.

Lemma split_nonempty d s : exists y ys, split d s = y :: ys.
Proof.
  induction s as [|c s (y & ys & E)]; cbn [split]; [eauto|].
  destruct (Ascii.eqb c d); [eauto|]. rewrite E. eauto.
Qed.

Lemma drop_cr_id l : last_char l <> Some CR -> drop_cr l = l.
Proof.
  unfold drop_cr. destruct (last_char l) as [c|]; [|reflexivity].
  destruct (Ascii.eqb_spec c CR) as [->|]; congruence.
Qed.

Lemma split_lines_cons sep l rest :
  sep = nl \/ sep = crlf ->
  includes LF l = false -> last_char l <> Some CR ->
  split_lines (l ++ sep ++ rest) = l :: split_lines rest.
Proof.
  intros Hsep Hl Hcr. unfold split_lines.
  destruct (split_nonempty LF rest) as (y & ys & E).
  destruct Hsep as [->| ->].
  - change (l ++ nl ++ rest) with (l ++ String LF rest).
    rewrite split_app_sep by exact Hl. rewrite E. cbn [map_init].
    now rewrite drop_cr_id.
  - replace (l ++ crlf ++ rest) with ((l ++ String CR "") ++ String LF rest)
      by (rewrite append_assoc; reflexivity).
    rewrite split_app_sep
      by (rewrite includes_app, Hl; reflexivity).
    rewrite E. cbn [map_init]. f_equal.
    unfold drop_cr. rewrite last_char_app. cbn [last_char].
    rewrite Ascii.eqb_refl. apply drop_last_snoc.
Qed.

Lemma split_lines_one l : includes LF l = false -> split_lines l = [l].
Proof. intros H. unfold split_lines. now rewrite split_no_sep. Qed.

Lemma split_lines_join sep tail l ls :
  sep = nl \/ sep = crlf -> tail = "" \/ tail = sep ->
  Forall line_text (l :: ls) ->
  split_lines (join sep (l :: ls) ++ tail)
  = ((l :: ls) ++ (if is_empty tail then [] else [""]))%list.
Proof.
  intros Hsep Htail. revert l. induction ls as [|l' ls IH]; intros l Hall.
  - inversion Hall as [|? ? [Hl Hcr] _]; subst. cbn [join String.concat].
    destruct Htail as [->| ->].
    + rewrite append_nil_r. now apply split_lines_one.
    + rewrite <- (append_nil_r sep) at 1.
      rewrite split_lines_cons by assumption.
      destruct Hsep as [->| ->]; reflexivity.
  - inversion Hall as [|? ? [Hl Hcr] Hrest]; subst.
    rewrite join_cons, !append_assoc.
    rewrite split_lines_cons by assumption.
    now rewrite IH.
Qed.

Lemma trim_cons c r :
  is_space c = false -> trim (String c r) = String c (dropEnd is_space r).
Proof.
  intros Hc. unfold trim. cbn [dropStart]. rewrite Hc.
  exact (dropEnd_keep is_space "" c r eq_refl Hc).
Qed.

Lemma url_text_cons u :
  url_text u = true ->
  exists c r, u = String c r /\ url_char c = true /\ forall_chars url_char r = true.
Proof.
  unfold url_text. destruct u as [|c r]; [discriminate|]. cbn.
  rewrite andb_true_iff. intros [Hc Hr]. eauto.
Qed.

Lemma last_char_forall p s c :
  forall_chars p s = true -> last_char s = Some c -> p c = true.
Proof.
  induction s as [|x s IH]; [discriminate|]. cbn [forall_chars last_char].
  rewrite andb_true_iff. intros [Hx Hs]. destruct s; [now intros [= <-]|now apply IH].
Qed.

Lemma columns_text_inv rest :
  columns_text rest = true ->
  (rest = "" \/ exists x, rest = String "," x)
  /\ includes LF rest = false /\ includes CR rest = false.
Proof.
  unfold columns_text. rewrite !andb_true_iff, !negb_true_iff.
  intros [[Hs Hl] Hc]. split; [|auto].
  destruct rest as [|c x]; [now left|right].
  cbn [is_empty orb startsWith] in Hs. apply andb_true_iff in Hs as [Hs _].
  apply Ascii.eqb_eq in Hs as <-. eauto.
Qed.

Lemma includes_last c s : includes c s = false -> last_char s <> Some c.
Proof.
  induction s as [|x s IH]; [discriminate|]. cbn [includes last_char].
  rewrite orb_false_iff. intros [Hx Hs].
  destruct s; [|now apply IH]. intros [= ->]. now rewrite Ascii.eqb_refl in Hx.
Qed.

Lemma csv_line_text r :
  url_text (fst r) = true -> columns_text (snd r) = true -> line_text (csv_line r).
Proof.
  destruct r as [u rest]; unfold csv_line; cbn [fst snd]. intros Hu Hrest.
  apply url_text_cons in Hu as (c & s & -> & Hc & Hs).
  apply columns_text_inv in Hrest as (_ & Hlf & Hcr).
  assert (Hu : forall_chars url_char (String c s) = true) by (cbn; now rewrite Hc, Hs).
  split.
  - rewrite includes_app, Hlf, orb_false_r. apply includes_false_chars.
    eapply forall_chars_impl; [exact url_char_not_lf|exact Hu].
  - rewrite last_char_app. destruct (last_char rest) as [d|] eqn:Ed.
    + rewrite <- Ed. now apply includes_last.
    + intros Hlast. apply (last_char_forall _ _ _ Hu) in Hlast.
      vm_compute in Hlast. discriminate.
Qed.

Lemma csv_line_nonblank r :
  url_text (fst r) = true -> negb (is_empty (trim (csv_line r))) = true.
Proof.
  destruct r as [u rest]; unfold csv_line; cbn [fst snd]. intros Hu.
  apply url_text_cons in Hu as (c & s & -> & Hc & Hs). cbn [append].
  rewrite trim_cons; [reflexivity|]. apply negb_true_iff, url_char_not_space, Hc.
Qed.

Lemma filter_all {A} (p : A -> bool) xs :
  Forall (fun x => p x = true) xs -> filter p xs = xs.
Proof. induction 1 as [|x xs Hx _ IH]; cbn; [reflexivity|]. now rewrite Hx, IH. Qed.

(** The lines [parseCsvUrls] keeps, for a file of rows. *)
Lemma csv_lines sep tail rows :
  sep = nl \/ sep = crlf -> tail = "" \/ tail = sep -> csv_rows rows ->
  filter (fun line => negb (is_empty (trim line)))
    (split_lines (join sep (map csv_line rows) ++ tail))
  = map csv_line rows.
Proof.
  intros Hsep Htail Hrows. destruct rows as [|r rows].
  - cbn [map join String.concat append].
    destruct Hsep as [->| ->], Htail as [->| ->]; reflexivity.
  - cbn [map]. rewrite split_lines_join; try assumption.
    + rewrite filter_app.
      replace (filter _ (if is_empty tail then [] else [""])) with (@nil string)
        by (now destruct (is_empty tail)).
      rewrite app_nil_r. apply filter_all.
      change (csv_line r :: map csv_line rows) with (map csv_line (r :: rows)).
      apply Forall_map. eapply Forall_impl; [|exact Hrows].
      intros a [Ha _]. now apply csv_line_nonblank.
    + change (csv_line r :: map csv_line rows) with (map csv_line (r :: rows)).
      apply Forall_map. eapply Forall_impl; [|exact Hrows].
      intros a [Ha Hb]. now apply csv_line_text.
Qed.

Lemma trim_url_text u : url_text u = true -> trim u = u.
Proof.
  unfold url_text. rewrite andb_true_iff. intros [_ Hu]. unfold trim.
  assert (H : forall_chars (fun c => negb (is_space c)) u = true)
    by (eapply forall_chars_impl; [exact url_char_not_space|exact Hu]).
  now rewrite dropStart_id, dropEnd_id.
Qed.

Lemma strip_quotes_url_text u : url_text u = true -> strip_quotes u = u.
Proof.
  intros Hu. pose proof Hu as Hu'.
  apply url_text_cons in Hu as (c & s & -> & Hc & Hs).
  unfold strip_quotes. rewrite (url_char_not_quote c Hc).
  destruct (last_char (String c s)) as [d|] eqn:Ed; [|reflexivity].
  assert (Hall : forall_chars url_char (String c s) = true) by (cbn; now rewrite Hc, Hs).
  now rewrite (url_char_not_quote d (last_char_forall _ _ _ Hall Ed)).
Qed.

(** The entry [parseCsvUrls] makes of one row. *)
Lemma csv_entry r :
  url_text (fst r) = true -> columns_text (snd r) = true ->
  strip_quotes (trim (hd EmptyString (split "," (csv_line r)))) = fst r.
Proof.
  destruct r as [u rest]; unfold csv_line; cbn [fst snd]. intros Hu Hrest.
  assert (Hcomma : includes "," u = false).
  { apply includes_false_chars. unfold url_text in Hu.
    apply andb_true_iff in Hu as [_ Hu].
    eapply forall_chars_impl; [exact url_char_not_comma|exact Hu]. }
  apply columns_text_inv in Hrest as ([->|[x ->]] & _).
  - rewrite append_nil_r, split_no_sep by exact Hcomma. cbn [hd].
    now rewrite trim_url_text, strip_quotes_url_text.
  - rewrite split_app_sep by exact Hcomma. cbn [hd].
    now rewrite trim_url_text, strip_quotes_url_text.
Qed.

Lemma is_header_words f :
  String.eqb f "url" || String.eqb f "domain" || String.eqb f "website" = true
  <-> In f header_words.
Proof.
  unfold header_words. cbn [In]. rewrite !orb_true_iff, !String.eqb_eq.
  split; [intros [[H|H]|H]; auto|intros [H|[H|[H|[]]]]; auto].
Qed.

Lemma header_word_comma f : In f header_words -> includes "," f = false.
Proof. intros [<-|[<-|[<-|[]]]]; reflexivity. Qed.

Lemma header_word_text f : In f header_words -> url_text f = true.
Proof. intros [<-|[<-|[<-|[]]]]; reflexivity. Qed.

(** A row is taken for a header only when it is one word of the three
    and has no further column. *)
Lemma is_header_row r :
  url_text (fst r) = true -> columns_text (snd r) = true ->
  In (trim (toLowerCase (csv_line r))) header_words ->
  snd r = "" /\ In (toLowerCase (fst r)) header_words.
Proof.
  destruct r as [u rest]; unfold csv_line; cbn [fst snd]. intros Hu Hrest.
  rewrite <- url_text_lower in Hu.
  apply columns_text_inv in Hrest as ([->|[x ->]] & _).
  - rewrite append_nil_r, trim_url_text by exact Hu. auto.
  - intros Hin. exfalso. apply header_word_comma in Hin.
    unfold toLowerCase in Hin. rewrite map_chars_app in Hin. cbn [map_chars] in Hin.
    change (map_chars lower_char u) with (toLowerCase u) in Hin.
    unfold url_text in Hu. apply andb_true_iff in Hu as [_ Hu].
    unfold trim in Hin.
    assert (Hs : forall_chars (fun c => negb (is_space c)) (toLowerCase u) = true)
      by (eapply forall_chars_impl; [exact url_char_not_space|exact Hu]).
    replace (lower_char ",") with ","%char in Hin by reflexivity.
    rewrite dropStart_keep, dropEnd_keep in Hin by (try exact Hs; reflexivity).
    rewrite includes_app in Hin. cbn [includes] in Hin.
    rewrite Ascii.eqb_refl, orb_true_r in Hin. discriminate.
Qed.

(** X17.  A file of rows, each a URL without white space, quote or
    comma, alone or followed by a comma and further columns, with lines
    ended by LF or by CR LF and the last line ended or not, is read as
    the list of its URLs in order, provided the first row is not one
    of the words [url], [domain], [website] alone on its line. *)
Theorem parseCsvUrls_first_column sep tail rows :
  sep = nl \/ sep = crlf -> tail = "" \/ tail = sep -> csv_rows rows ->
  (forall r, hd_error rows = Some r ->
     snd r = "" -> ~ In (toLowerCase (fst r)) header_words) ->
  parseCsvUrls (join sep (map csv_line rows) ++ tail) = map fst rows.
Proof.
  intros Hsep Htail Hrows Hfirst. unfold parseCsvUrls.
  rewrite csv_lines by assumption.
  assert (Hno :
    match option_map (fun l => trim (toLowerCase l)) (hd_error (map csv_line rows)) with
    | Some f => String.eqb f "url" || String.eqb f "domain" || String.eqb f "website"
    | None => false
    end = false).
  { destruct rows as [|r rows]; [reflexivity|]. cbn [map hd_error option_map].
    inversion Hrows as [|? ? [Hu Hc] _]; subst.
    apply not_true_is_false. intros H. apply is_header_words in H.
    destruct (is_header_row r Hu Hc H) as [He Hin].
    exact (Hfirst r eq_refl He Hin). }
  rewrite Hno. cbn [skipn]. rewrite map_map.
  apply map_ext_Forall. eapply Forall_impl; [|exact Hrows].
  intros r [Hu Hc]. now apply csv_entry.
Qed.

(** X18.  When the first line is [url], [domain] or [website], in any
    letter case, it is left out and the rows after it are read as
    before. *)
Theorem parseCsvUrls_skips_header sep tail header rows :
  sep = nl \/ sep = crlf -> tail = "" \/ tail = sep -> csv_rows rows ->
  In (toLowerCase header) header_words ->
  parseCsvUrls (join sep (header :: map csv_line rows) ++ tail) = map fst rows.
Proof.
  intros Hsep Htail Hrows Hin. unfold parseCsvUrls.
  assert (Hh : url_text header = true)
    by (rewrite <- url_text_lower; now apply header_word_text).
  assert (Hrows' : csv_rows ((header, "") :: rows))
    by (constructor; [split; [exact Hh|reflexivity]|exact Hrows]).
  pose proof (csv_lines sep tail _ Hsep Htail Hrows') as Hl.
  cbn [map] in Hl. unfold csv_line at 1 3 in Hl. cbn [fst snd] in Hl.
  rewrite append_nil_r in Hl. rewrite Hl.
  cbn [hd_error option_map].
  rewrite trim_url_text by (now rewrite url_text_lower).
  apply is_header_words in Hin. rewrite Hin. cbn [skipn]. rewrite map_map.
  apply map_ext_Forall. eapply Forall_impl; [|exact Hrows].
  intros r [Hu Hc]. now apply csv_entry.
Qed.

(* ------------------------------------------------------------------ *)
(** ** Reading the output file back *)

Lemma read_csv_plain v : forall rest field row,
  includes "," v || includes DQ v || includes LF v = false ->
  read_csv (v ++ rest) false field row = read_csv rest false (field ++ v) row.
Proof.
  induction v as [|c v IH]; intros rest field row.
  - intros _. now rewrite append_nil_r.
  - cbn [includes]. rewrite !orb_false_iff. intros [[[H1 H2] [H3 H4]] [H5 H6]].
    cbn [append read_csv]. rewrite H3, H1, H5.
    rewrite IH by (now rewrite H2, H4, H6).
    rewrite append_assoc. reflexivity.
Qed.

Lemma read_csv_quoted v : forall rest field row,
  field_end rest ->
  read_csv (double_quotes v ++ String DQ rest) true field row
  = read_csv rest false (field ++ v) row.
Proof.
  induction v as [|c v IH]; intros rest field row Hrest.
  - rewrite append_nil_r. cbn [double_quotes append read_csv].
    rewrite Ascii.eqb_refl.
    destruct Hrest as [->|(d & s & -> & Hd)]; [reflexivity|]. now rewrite Hd.
  - cbn [double_quotes]. destruct (Ascii.eqb c DQ) eqn:Ec.
    + apply Ascii.eqb_eq in Ec as ->. cbn [append read_csv].
      rewrite Ascii.eqb_refl. rewrite IH by exact Hrest.
      rewrite append_assoc. reflexivity.
    + cbn [append read_csv]. rewrite Ec. rewrite IH by exact Hrest.
      rewrite append_assoc. reflexivity.
Qed.

(** Reading one written field. *)
Lemma read_csv_field v rest row :
  field_end rest ->
  read_csv (escapeCsvField v ++ rest) false "" row = read_csv rest false v row.
Proof.
  intros Hrest. unfold escapeCsvField.
  destruct (includes "," v || includes DQ v || includes LF v) eqn:E.
  - rewrite append_assoc. cbn [append read_csv]. rewrite Ascii.eqb_refl.
    now rewrite read_csv_quoted.
  - now rewrite read_csv_plain.
Qed.

Lemma read_csv_line f fs : forall rest row,
  read_csv (written_line (f :: fs) ++ String LF rest) false "" row
  = (row ++ f :: fs)%list :: read_csv rest false "" [].
Proof.
  unfold written_line. revert f. induction fs as [|g fs IH]; intros f rest row.
  - cbn [map join String.concat].
    rewrite read_csv_field by (right; eexists _, _; split; reflexivity).
    reflexivity.
  - cbn [map]. rewrite join_cons, !append_assoc.
    rewrite read_csv_field by (right; eexists _, _; split; reflexivity).
    cbn [append read_csv].
    replace (Ascii.eqb "," DQ) with false by reflexivity.
    rewrite Ascii.eqb_refl.
    change (escapeCsvField g :: map escapeCsvField fs)
      with (map escapeCsvField (g :: fs)).
    rewrite IH. now rewrite <- app_assoc.
Qed.

Lemma read_csv_lines l ls :
  Forall (fun fs => fs <> []) (l :: ls) ->
  read_csv (join nl (map written_line (l :: ls)) ++ nl) false "" [] = l :: ls.
Proof.
  revert l. induction ls as [|l' ls IH]; intros l Hall;
    inversion Hall as [|? ? Hl Hrest]; subst;
    destruct l as [|f fs]; try congruence.
  - cbn [map join String.concat]. unfold nl. now rewrite read_csv_line.
  - cbn [map]. rewrite join_cons, !append_assoc. unfold nl at 1. cbn [append].
    rewrite read_csv_line. cbn [app]. f_equal. now apply IH.
Qed.

Lemma csv_row_written r : csv_row r = written_line (fields r).
Proof.
  unfold csv_row, written_line, fields. cbn [map].
  now rewrite !(escapeCsvField_plain _ (of_bool_plain _)),
              (escapeCsvField_plain _ (dec_plain _)).
Qed.

(** X19.  The text [resultsToCsv] writes reads back, field by field, as
    the header and one record of seven fields per outcome, whatever
    commas, quotes and line feeds the fields hold. *)
Theorem resultsToCsv_reads_back results :
  read_csv (resultsToCsv results) false "" []
  = header_fields :: map fields results.
Proof.
  unfold resultsToCsv.
  change csv_header with (written_line header_fields).
  rewrite (map_ext _ _ csv_row_written), <- map_map.
  change (written_line header_fields :: map written_line (map fields results))
    with (map written_line (header_fields :: map fields results)).
  change (String LF "") with nl.
  apply read_csv_lines. constructor; [discriminate|].
  apply Forall_map, Forall_forall. intros r _. discriminate.
Qed.

(* ------------------------------------------------------------------ *)
(** ** The theorems at work on the example runtime *)

(** The scenario of the specification: of three sites only the third
    serves a valid manifest, with three tools. *)
Example batch_of_three :
  exists st,
    batch_loop Example.runtime
      ["https://stripe.com"; "https://github.com"; "https://example.com"]
      batch_start = Some st
    /\ List.length (results st) = 3
    /\ detectedCount st = 1
    /\ option_map csv_row (nth_error (results st) 2) =
       Some "https://example.com,true,true,0.1,3,search_products; get_order; create_return,".
Proof. eexists. split; [reflexivity|]. repeat split. Qed.

Example three_tools :
  checkUrl Example.runtime "https://example.com" =
  Some {| url := "https://example.com";
          detected := true;
          valid := true;
          version := "0.1";
          toolCount := 3;
          toolNames := "search_products; get_order; create_return";
          error := "" |}.
Proof. reflexivity. Qed.

Example batch_file :
  option_map exitCode
    (runBatch Example.runtime
       ("url" ++ nl ++ "stripe.com" ++ nl ++ "github.com" ++ nl ++ "example.com" ++ nl))
  = Some 0.
Proof. reflexivity. Qed.

Example not_json :
  option_map error (checkUrl Example.runtime "text.example") = Some "Invalid JSON".
Proof. reflexivity. Qed.

Example network_failure :
  option_map error (checkUrl Example.runtime "nowhere.example") = Some "fetch failed".
Proof. reflexivity. Qed.

Lemma example_runtime_unicode_stable : unicode_stable Example.runtime.
Proof. intros d r H. discriminate H. Qed.

Lemma example_runtime_ipv6_stable : ipv6_stable Example.runtime.
Proof.
  intros s a H. cbn [ipv6 Example.runtime] in *. unfold Example.loopback in *.
  destruct (String.eqb s "::1"); [|discriminate].
  injection H as <-. split; reflexivity.
Qed.


Lemma checkUrl_invalid_url_witness :
  checkUrl Example.runtime "http://" =
    Some {| url := "http://"; detected := false; valid := false; version := "";
            toolCount := 0; toolNames := ""; error := "Invalid URL" |}
  /\ normalizeUrl Example.runtime "" = None
  /\ normalizeUrl Example.runtime "http://" = None.
Proof.
  apply (checkUrl_invalid_url Example.runtime "http://"). reflexivity.
Defined.

Lemma checkUrl_http_and_parse_errors_witness :
  checkUrl Example.runtime "github.com" =
    Some {| url := "https://github.com"; detected := false; valid := false;
            version := ""; toolCount := 0; toolNames := ""; error := "HTTP 404" |}.
Proof.
  apply (proj1 (checkUrl_http_and_parse_errors Example.runtime "github.com"
                  "https://github.com" 404 None eq_refl eq_refl)).
  right. reflexivity.
Defined.




Lemma checkUrl_invariants_witness :
  exists r, checkUrl Example.runtime "stripe.com" = Some r
    /\ (valid r = true -> detected r = true)
    /\ (valid r = false -> version r = "" /\ toolCount r = 0 /\ toolNames r = "")
    /\ (valid r = true -> error r = "").
Proof. exact (checkUrl_invariants Example.runtime "stripe.com"). Defined.

Lemma batch_loop_outcomes_witness :
  exists st,
    batch_loop Example.runtime ["stripe.com"; "example.com"] batch_start = Some st
    /\ List.length (results st) = 2
    /\ (forall i u, nth_error ["stripe.com"; "example.com"] i = Some u ->
          exists r, nth_error (results st) i = Some r
                    /\ checkUrl Example.runtime u = Some r)
    /\ map Some (results st) =
       map (checkUrl Example.runtime) ["stripe.com"; "example.com"]
    /\ (forall k, exists stk,
          batch_loop Example.runtime (firstn k ["stripe.com"; "example.com"])
            batch_start = Some stk
          /\ results stk = firstn k (results st))
    /\ detectedCount st = List.length (filter valid (results st)).
Proof.
  exact (batch_loop_outcomes Example.runtime ["stripe.com"; "example.com"]).
Defined.

Lemma resultsToCsv_format_witness :
  exists body,
    resultsToCsv [failure "a,b" false "Invalid URL"] = body ++ nl
    /\ last_char body <> Some LF.
Proof.
  exact (proj2 (proj2 (proj2 (proj2 (proj2 (proj2 (proj2
           (resultsToCsv_format [failure "a,b" false "Invalid URL"])))))))).
Defined.

Lemma checkUrl_network_failure_witness :
  checkUrl Example.runtime "nowhere.example" =
  Some {| url := "https://nowhere.example"; detected := false; valid := false;
          version := ""; toolCount := 0; toolNames := ""; error := "fetch failed" |}.
Proof.
  apply (checkUrl_network_failure Example.runtime "nowhere.example"
           "https://nowhere.example" (Some "fetch failed")); reflexivity.
Defined.

Lemma checkUrl_by_origin_witness :
  exists r, checkUrl Example.runtime " Example.com/shop " = Some r
    /\ url r = "https://example.com"
    /\ forall input', normalizeUrl Example.runtime input' = Some "https://example.com" ->
         checkUrl Example.runtime input' = Some r.
Proof.
  apply (checkUrl_by_origin Example.runtime " Example.com/shop " "https://example.com").
  reflexivity.
Defined.


Lemma checkUrl_detected_valid_witness :
  (true = true <->
     exists origin status doc,
       normalizeUrl Example.runtime "stripe.com" = Some origin
       /\ fetch Example.runtime (origin ++ "/.well-known/webmcp.json")
          = Responded status (Some doc)
       /\ ok status = true)
  /\ (false = true <->
     exists origin status doc,
       normalizeUrl Example.runtime "stripe.com" = Some origin
       /\ fetch Example.runtime (origin ++ "/.well-known/webmcp.json")
          = Responded status (Some doc)
       /\ ok status = true
       /\ Ajv.validate Example.runtime doc = true).
Proof.
  apply (checkUrl_detected_valid Example.runtime "stripe.com"
           (failure "https://stripe.com" true
              ("Invalid manifest: " ++
               join "; " (map render_error
                            (Ajv.errors Example.runtime Example.not_a_manifest))))).
  reflexivity.
Defined.

Lemma checkUrl_error_empty_witness :
  "HTTP 404" = "" <->
    false = true
    \/ exists origin,
         normalizeUrl Example.runtime "github.com" = Some origin
         /\ fetch Example.runtime (origin ++ "/.well-known/webmcp.json")
            = Rejected (Some "").
Proof.
  apply (checkUrl_error_empty Example.runtime "github.com"
           (failure "https://github.com" false "HTTP 404")).
  reflexivity.
Defined.

Lemma normalizeUrl_ignores_space_witness :
  normalizeUrl Example.runtime
    (String TAB " " ++ "example.com:8443" ++ String CR (String LF ""))
  = normalizeUrl Example.runtime "example.com:8443".
Proof.
  apply (normalizeUrl_ignores_space Example.runtime); reflexivity.
Defined.


Lemma valid_manifest_root_witness :
  exists ms origin updated_at tools,
    Example.manifest = JObj ms
    /\ (forall k v, In (k, v) ms -> In k root_keys)
    /\ assoc "manifest_version" ms = Some (JStr "0.1")
    /\ assoc "origin" ms = Some (JStr origin)
    /\ startsWith "http://" origin || startsWith "https://" origin = true
    /\ assoc "updated_at" ms = Some (JStr updated_at)
    /\ dateTime Example.runtime updated_at = true
    /\ assoc "tools" ms = Some (JArr tools)
    /\ tools <> [].
Proof.
  apply (valid_manifest_root Example.runtime Example.manifest). reflexivity.
Defined.

Lemma valid_manifest_tools_witness :
  exists tm name description version tags risk confirm ins outs,
    Example.tool "get_order" = JObj tm
    /\ (forall k v, In (k, v) tm -> In k tool_keys)
    /\ assoc "name" tm = Some (JStr name)
    /\ Ajv.test Ajv.name_pattern name = true
    /\ assoc "description" tm = Some (JStr description) /\ description <> ""
    /\ assoc "version" tm = Some (JStr version) /\ version <> ""
    /\ assoc "tags" tm = Some (JArr tags)
    /\ Forall (fun x => exists v, x = JStr v) tags
    /\ assoc "risk_level" tm = Some (JStr risk)
    /\ In risk ["low"; "medium"; "high"]
    /\ assoc "requires_user_confirm" tm = Some (JBool confirm)
    /\ assoc "input_schema" tm = Some (JObj ins)
    /\ assoc "output_schema" tm = Some (JObj outs)
    /\ (forall pricing, assoc "pricing" tm = Some pricing ->
          exists pm model,
            pricing = JObj pm
            /\ (forall k v, In (k, v) pm -> In k ["model"; "price_usd"; "notes"])
            /\ assoc "model" pm = Some (JStr model)
            /\ In model ["free"; "per_call"; "subscription"]
            /\ (forall price, assoc "price_usd" pm = Some price ->
                  exists q, price = JNum (Finite q) /\ (0 <= q)%Q)
            /\ (forall notes, assoc "notes" pm = Some notes ->
                  exists v, notes = JStr v)).
Proof.
  apply (valid_manifest_tools Example.runtime Example.manifest
           [Example.tool "search_products"; Example.tool "get_order";
            Example.tool "create_return"]).
  - reflexivity.
  - reflexivity.
  - right. left. reflexivity.
Defined.

Lemma valid_manifest_optional_witness :
  (forall auth, get Example.manifest "auth" = Some auth ->
     exists am login,
       auth = JObj am
       /\ (forall k v, In (k, v) am -> In k ["requires_login"; "oauth_scopes"])
       /\ assoc "requires_login" am = Some (JBool login)
       /\ (forall scopes, assoc "oauth_scopes" am = Some scopes ->
             exists xs, scopes = JArr xs
                        /\ Forall (fun x => exists v, x = JStr v) xs))
  /\ (forall attestation, get Example.manifest "attestation" = Some attestation ->
       exists tm key signature signed,
         attestation = JObj tm
         /\ (forall k v, In (k, v) tm ->
               In k ["algo"; "public_key_jwk"; "signature"; "signed_fields"])
         /\ assoc "algo" tm = Some (JStr "ed25519")
         /\ assoc "public_key_jwk" tm = Some (JObj key)
         /\ assoc "signature" tm = Some (JStr signature)
         /\ assoc "signed_fields" tm = Some (JArr signed)
         /\ Forall (fun x => exists v, x = JStr v) signed).
Proof.
  apply (valid_manifest_optional Example.runtime Example.manifest). reflexivity.
Defined.

Lemma validate_exactly_witness : manifest_shape Example.runtime Example.manifest.
Proof.
  apply (validate_exactly Example.runtime Example.manifest). reflexivity.
Defined.

Lemma runSingle_lists_tools_witness :
  exists tools names run,
    get Example.manifest "tools" = Some (JArr tools)
    /\ map tool_name tools = map Some names
    /\ Cli.runSingle Example.runtime "example.com" = Some run
    /\ Cli.exit run = 0
    /\ Cli.stdout run =
       ([ Cli.dim (Cli.units ("Checking " ++ "https://example.com"
                              ++ "/.well-known/webmcp.json..." ++ nl));
          (Cli.green Cli.tick ++ Cli.units " WebMCP detected")%list;
          Cli.units ("  Origin:   " ++ "https://example.com");
          Cli.units "  Version:  0.1";
          Cli.units ("  Tools:    " ++ dec (N.of_nat (List.length names))) ]
        ++ map (fun name => Cli.units ("    - " ++ name)) names)%list.
Proof.
  apply (runSingle_lists_tools Example.runtime "example.com" "https://example.com"
           200 Example.manifest); reflexivity.
Defined.

Lemma parseCsvUrls_first_column_witness :
  parseCsvUrls
    (join crlf (map csv_line [("example.com", ""); ("stripe.com", ",Stripe, Inc.")])
     ++ crlf)
  = map fst [("example.com", ""); ("stripe.com", ",Stripe, Inc.")].
Proof.
  apply (parseCsvUrls_first_column crlf crlf
           [("example.com", ""); ("stripe.com", ",Stripe, Inc.")]).
  - right. reflexivity.
  - right. reflexivity.
  - repeat constructor.
  - intros r Hr _ Hin. injection Hr as <-. vm_compute in Hin.
    repeat (destruct Hin as [Hin|Hin]; [discriminate Hin|]). exact Hin.
Defined.

Lemma parseCsvUrls_skips_header_witness :
  parseCsvUrls
    (join nl ("URL" :: map csv_line [("url", ""); ("stripe.com", ",Stripe")]) ++ "")
  = map fst [("url", ""); ("stripe.com", ",Stripe")].
Proof.
  apply (parseCsvUrls_skips_header nl "" "URL" [("url", ""); ("stripe.com", ",Stripe")]).
  - left. reflexivity.
  - left. reflexivity.
  - repeat constructor.
  - left. reflexivity.
Defined.

Lemma runBatch_result_witness :
  exists run,
    runBatch Example.runtime ("url" ++ nl ++ "stripe.com" ++ nl ++ "example.com" ++ nl)
    = Some run
    /\ (written run = None <->
        parseCsvUrls ("url" ++ nl ++ "stripe.com" ++ nl ++ "example.com" ++ nl) = [])
    /\ (forall t, written run = Some t ->
          exists st,
            batch_loop Example.runtime
              (parseCsvUrls ("url" ++ nl ++ "stripe.com" ++ nl ++ "example.com" ++ nl))
              batch_start = Some st
            /\ t = resultsToCsv (results st))
    /\ (exitCode run = 0 <->
          exists u r,
            In u (parseCsvUrls ("url" ++ nl ++ "stripe.com" ++ nl ++ "example.com" ++ nl))
            /\ checkUrl Example.runtime u = Some r /\ valid r = true)
    /\ (exitCode run = 0 \/ exitCode run = 1).
Proof.
  exact (runBatch_result Example.runtime
           ("url" ++ nl ++ "stripe.com" ++ nl ++ "example.com" ++ nl)).
Defined.

Lemma runSingle_exit_witness :
  exists run, Cli.runSingle Example.runtime "http://" = Some run
    /\ (Cli.exit run = 0 <->
        exists r, checkUrl Example.runtime "http://" = Some r /\ valid r = true)
    /\ (Cli.exit run = 0 \/ Cli.exit run = 1)
    /\ (Cli.stderr run <> [] <-> normalizeUrl Example.runtime "http://" = None)
    /\ (normalizeUrl Example.runtime "http://" = None -> Cli.stdout run = []).
Proof. exact (runSingle_exit Example.runtime "http://"). Defined.

Lemma main_exit_code_witness :
  exists e,
    Cli.main Example.runtime
      (fun path => if String.eqb path "urls.csv"
                   then Some ("github.com" ++ nl ++ "example.com" ++ nl) else None)
      ["--csv"; "urls.csv"; "-o"; "out.csv"] = Some e
    /\ (Cli.status e = 0 \/ Cli.status e = 1)
    /\ (Cli.status e = 0 <->
        exists content u r,
          (if String.eqb "urls.csv" "urls.csv"
           then Some ("github.com" ++ nl ++ "example.com" ++ nl) else None)
          = Some content
          /\ In u (parseCsvUrls content)
          /\ checkUrl Example.runtime u = Some r /\ valid r = true)
    /\ (forall path t, Cli.file e = Some (path, t) ->
          exists inputFile content st,
            Cli.action ["--csv"; "urls.csv"; "-o"; "out.csv"] = Cli.Batch inputFile path
            /\ (if String.eqb inputFile "urls.csv"
                then Some ("github.com" ++ nl ++ "example.com" ++ nl) else None)
               = Some content
            /\ batch_loop Example.runtime (parseCsvUrls content) batch_start = Some st
            /\ parseCsvUrls content <> []
            /\ t = resultsToCsv (results st)).
Proof.
  exact (main_exit_code Example.runtime
           (fun path => if String.eqb path "urls.csv"
                        then Some ("github.com" ++ nl ++ "example.com" ++ nl) else None)
           ["--csv"; "urls.csv"; "-o"; "out.csv"]).
Defined.

Lemma action_rules_witness :
  Cli.action ["-o"; "out.csv"; "--csv"; "urls.csv"] = Cli.Batch "urls.csv" "out.csv"
  /\ Cli.action ["--csv"; "urls.csv"; "-o"] = Cli.Batch "urls.csv" "results.csv"
  /\ Cli.action ["example.com"; "-h"] = Cli.Help 0.
Proof.
  split; [reflexivity|]. split; [reflexivity|].
  apply (proj1 (proj2 (action_rules ["example.com"; "-h"]))).
  - discriminate.
  - right. right. left. reflexivity.
Defined.

Lemma resultsToCsv_reads_back_witness :
  read_csv
    (resultsToCsv [failure "a,b" false ("say " ++ String DQ "hi" ++ String DQ nl)])
    false "" []
  = [ header_fields;
      ["a,b"; "false"; "false"; ""; "0"; ""; "say " ++ String DQ "hi" ++ String DQ nl] ].
Proof.
  exact (resultsToCsv_reads_back
           [failure "a,b" false ("say " ++ String DQ "hi" ++ String DQ nl)]).
Defined.
